(** * LC-3 virtual machine (vm.c): shallow embedding and checked properties

    The machine of [vm.c] is embedded as executable Rocq definitions.

    - Data.  The two global arrays, [memory] and [registers], are lists
      indexed with stdpp's lookup and insert; a [uint16_t] is a [Z] in
      [0, 65536), and every conversion to [uint16_t] is written out as
      [u16].  The bit operations are those of [Z].
    - Effects.  The C statements that read or write the arrays or the
      console run in a state-and-error monad over [machine].  A
      computation ends in [Ok], or in one of the two ways a run of the C
      program leaves the defined path: [Undefined], an index outside an
      array, and [Aborted], a call of [abort()].
    - Host.  [int] has 32 bits, [char] is signed and has 8, and the byte
      order is little-endian.  The console is a list of input bytes, a
      list of the answers [select] gives to the polls of [check_key], and
      the stream [stdout]: the bytes written to it, and how many of them
      [fflush] has handed to the host.  What the host has received when
      the process has ended depends on the buffering of the stream and
      is given by [transmitted].  The setting of the terminal and the
      handler of SIGINT are left out.
    - Loops.  The loops of PUTS and PUTSP recurse on the cells from the
      pointer to the end of the array; the loop of [main] takes fuel.

    The definitions follow the current revision of [vm.c].  The functions
    of the earlier revision kept beside it are embedded in [Module Early]
    and compared with the current ones at the end. *)

From Stdlib Require Import ZArith Lia String Ascii.
From stdpp Require Import base list.

Local Open Scope Z_scope.

(** ** Machine words *)

Definition UINT16_MAX : Z := 65535.

(** Conversion of an [int] result to [uint16_t]. *)
Definition u16 (z : Z) : Z := z mod 65536.

(** Conversion to [char] (signed, 8 bits) and the conversion to
    [unsigned char] that [putc] applies to its argument. *)
Definition to_char (z : Z) : Z := (z + 128) mod 256 - 128.
Definition to_uchar (z : Z) : Z := z mod 256.

(** A C condition: non-zero is true. *)
Definition truthy (z : Z) : bool := negb (z =? 0).

(** ** Enumerations *)

Definition R0 : Z := 0.
Definition R1 : Z := 1.
Definition R2 : Z := 2.
Definition R3 : Z := 3.
Definition R4 : Z := 4.
Definition R5 : Z := 5.
Definition R6 : Z := 6.
Definition R7 : Z := 7.
Definition PC : Z := 8.
Definition COND : Z := 9.
Definition COUNT : Z := 10.

Definition BR : Z := 0.
Definition ADD : Z := 1.
Definition LD : Z := 2.
Definition ST : Z := 3.
Definition JSR : Z := 4.
Definition AND : Z := 5.
Definition LDR : Z := 6.
Definition STR : Z := 7.
Definition RTI : Z := 8.
Definition NOT : Z := 9.
Definition LDI : Z := 10.
Definition STI : Z := 11.
Definition JMP : Z := 12.
Definition RES : Z := 13.
Definition LEA : Z := 14.
Definition TRAP : Z := 15.

Definition FL_POS : Z := Z.shiftl 1 0.
Definition FL_ZRO : Z := Z.shiftl 1 1.
Definition FL_NEG : Z := Z.shiftl 1 2.

Definition TRAP_GETC : Z := 0x20.
Definition TRAP_OUT : Z := 0x21.
Definition TRAP_PUTS : Z := 0x22.
Definition TRAP_IN : Z := 0x23.
Definition TRAP_PUTSP : Z := 0x24.
Definition TRAP_HALT : Z := 0x25.

Definition MR_KBSR : Z := 0xFE00.
Definition MR_KBDR : Z := 0xFE02.

Definition PC_START : Z := 0x3000.

Definition EOF : Z := -1.

(** ** State *)

(** [memory] and [registers] are the two global arrays.  The console is
    the rest of the state: [stdin] holds the bytes [getchar] has not
    consumed yet, [polls] the answers of the coming [select] calls of
    [check_key], [stdout] the bytes written to the stream so far, and
    [flushed] the number of them that were written before the last
    [fflush(stdout)]; the bytes after these are the ones the program has
    left in the buffer of the stream. *)
Record machine : Type := Machine {
  memory : list Z;
  registers : list Z;
  stdin : list Z;
  polls : list bool;
  stdout : list Z;
  flushed : nat
}.

Definition with_memory (mem : list Z) (m : machine) : machine :=
  Machine mem (registers m) (stdin m) (polls m) (stdout m) (flushed m).
Definition with_registers (regs : list Z) (m : machine) : machine :=
  Machine (memory m) regs (stdin m) (polls m) (stdout m) (flushed m).
Definition with_stdout (out : list Z) (m : machine) : machine :=
  Machine (memory m) (registers m) (stdin m) (polls m) out (flushed m).
Definition with_flushed (n : nat) (m : machine) : machine :=
  Machine (memory m) (registers m) (stdin m) (polls m) (stdout m) n.

(** [uint16_t memory[UINT16_MAX]] and [uint16_t registers[COUNT]], both
    zero-initialised as objects of static storage duration. *)
Definition zero_memory : list Z := replicate (Z.to_nat UINT16_MAX) 0.
Definition zero_registers : list Z := replicate (Z.to_nat COUNT) 0.

(** ** The monad of machine actions *)

Inductive result (A : Type) : Type :=
| Ok (a : A) (m : machine)
| Undefined (m : machine)
| Aborted (m : machine).
Arguments Ok {A} a m.
Arguments Undefined {A} m.
Arguments Aborted {A} m.

Definition M (A : Type) : Type := machine -> result A.

Definition ret {A : Type} (a : A) : M A := fun m => Ok a m.

Definition bind {A B : Type} (c : M A) (k : A -> M B) : M B :=
  fun m =>
    match c m with
    | Ok a m' => k a m'
    | Undefined m' => Undefined m'
    | Aborted m' => Aborted m'
    end.

Declare Scope vm_scope.
Delimit Scope vm_scope with vm.
Notation "x <- c ;; k" := (bind c (fun x => k))
  (at level 100, c at next level, right associativity) : vm_scope.
Notation "c ;; k" := (bind c (fun _ => k))
  (at level 100, right associativity) : vm_scope.
Local Open Scope vm_scope.

(** An index outside the array it is applied to. *)
Definition undefined {A : Type} : M A := fun m => Undefined m.

(** [abort()]: the process ends there; nothing is flushed, and what is
    left in the buffer of [stdout] stays there. *)
Definition abort {A : Type} : M A := fun m => Aborted m.

(** ** Array accesses *)

(** [registers[r]] as an rvalue. *)
Definition reg_read (r : Z) : M Z :=
  fun m =>
    match registers m !! Z.to_nat r with
    | Some v => Ok v m
    | None => Undefined m
    end.

(** [registers[r] = v]. *)
Definition reg_write (r v : Z) : M unit :=
  fun m =>
    if decide (Z.to_nat r < length (registers m))%nat
    then Ok tt (with_registers (<[Z.to_nat r := v]> (registers m)) m)
    else Undefined m.

(** [memory[address]] as an rvalue. *)
Definition cell_read (address : Z) : M Z :=
  fun m =>
    match memory m !! Z.to_nat address with
    | Some v => Ok v m
    | None => Undefined m
    end.

(** [memory[address] = val]. *)
Definition cell_write (address val : Z) : M unit :=
  fun m =>
    if decide (Z.to_nat address < length (memory m))%nat
    then Ok tt (with_memory (<[Z.to_nat address := val]> (memory m)) m)
    else Undefined m.

(** ** Console *)

(** [getchar()]: the next byte of the input, or [EOF]. *)
Definition getchar : M Z :=
  fun m =>
    match stdin m with
    | [] => Ok EOF m
    | c :: rest =>
        Ok c (Machine (memory m) (registers m) rest (polls m) (stdout m) (flushed m))
    end.

(** [putc(c, stdout)]: the argument is written as an [unsigned char]. *)
Definition putc (c : Z) : M unit :=
  fun m => Ok tt (with_stdout (stdout m ++ [to_uchar c]) m).

Fixpoint bytes_of_string (s : string) : list Z :=
  match s with
  | EmptyString => []
  | String a s' => Z.of_N (N_of_ascii a) :: bytes_of_string s'
  end.

(** The string of the escape [\n]. *)
Definition nl : string := String (ascii_of_nat 10) EmptyString.

(** [printf] once its format is expanded. *)
Definition printf (s : string) : M unit :=
  fun m => Ok tt (with_stdout (stdout m ++ bytes_of_string s) m).

(** [puts(s)]: the string and a newline. *)
Definition puts (s : string) : M unit :=
  fun m => Ok tt (with_stdout (stdout m ++ bytes_of_string (String.append s nl)) m).

(** The machine once every byte written so far is handed to the host. *)
Definition all_flushed (m : machine) : machine :=
  with_flushed (length (stdout m)) m.

(** [fflush(stdout)]. *)
Definition fflush : M unit := fun m => Ok tt (all_flushed m).

(** [check_key()]: [select] on the standard input with a zero timeout;
    its answer is the next entry of [polls] (no key once they are used up). *)
Definition check_key : M bool :=
  fun m =>
    match polls m with
    | [] => Ok false m
    | b :: rest =>
        Ok b (Machine (memory m) (registers m) (stdin m) rest (stdout m) (flushed m))
    end.

(** ** Memory *)

Definition _mem_write (address val : Z) : M unit := cell_write address val.

Definition mem_read (address : Z) : M Z :=
  (if address =? MR_KBSR then
     key <- check_key ;;
     if key then
       cell_write MR_KBSR (Z.shiftl 1 15) ;;
       c <- getchar ;;
       cell_write MR_KBDR (u16 c)
     else
       cell_write MR_KBSR 0
   else ret tt) ;;
  cell_read address.

(** ** Sign extension and flags *)

Definition sign_extend (x bit_count : Z) : Z :=
  if truthy (Z.land (Z.shiftr x (bit_count - 1)) 1)
  then u16 (Z.lor x (Z.shiftl 0xFFFF bit_count))
  else x.

Definition update_flags (r : Z) : M unit :=
  v <- reg_read r ;;
  if v =? 0 then reg_write COND FL_ZRO
  else
    v' <- reg_read r ;;
    if truthy (Z.shiftr v' 15) then reg_write COND FL_NEG
    else reg_write COND FL_POS.

(** ** Instructions *)

Module Op.

Definition add (instr : Z) : M unit :=
  let r0 := Z.land (Z.shiftr instr 9) 0x7 in
  let r1 := Z.land (Z.shiftr instr 6) 0x7 in
  let imm_flag := Z.land (Z.shiftr instr 5) 0x1 in
  (if truthy imm_flag then
     let imm5 := sign_extend (Z.land instr 0x1F) 5 in
     a <- reg_read r1 ;;
     reg_write r0 (u16 (a + imm5))
   else
     let r2 := Z.land instr 0x7 in
     a <- reg_read r1 ;;
     b <- reg_read r2 ;;
     reg_write r0 (u16 (a + b))) ;;
  update_flags r0.

Definition and (instr : Z) : M unit :=
  let dr := Z.land (Z.shiftr instr 9) 0x7 in
  let sr1 := Z.land (Z.shiftr instr 6) 0x7 in
  let imm := Z.land (Z.shiftr instr 5) 0x1 in
  (if truthy imm then
     let imm_value := Z.land instr 0x1F in
     a <- reg_read sr1 ;;
     reg_write dr (Z.land a imm_value)
   else
     let sr2 := Z.land instr 0x7 in
     a <- reg_read sr1 ;;
     b <- reg_read sr2 ;;
     reg_write dr (Z.land a b)) ;;
  update_flags dr.

Definition not (instr : Z) : M unit :=
  let dr := Z.land (Z.shiftr instr 9) 0x7 in
  let sr := Z.land (Z.shiftr instr 6) 0x7 in
  a <- reg_read sr ;;
  reg_write dr (u16 (Z.lnot a)) ;;
  update_flags dr.

Definition br (instr : Z) : M unit :=
  let cond_flag := Z.land (Z.shiftr instr 9) 0x7 in
  let PCoffset9 := sign_extend (Z.land instr 0x1FF) 9 in
  cond <- reg_read COND ;;
  if truthy (Z.land cond_flag cond) then
    pc <- reg_read PC ;;
    reg_write PC (u16 (pc + PCoffset9))
  else ret tt.

Definition jmp (instr : Z) : M unit :=
  let r1 := Z.land (Z.shiftr instr 6) 0x7 in
  a <- reg_read r1 ;;
  reg_write PC a.

Definition jsr (instr : Z) : M unit :=
  let long_flag := Z.land (Z.shiftr instr 11) 1 in
  pc <- reg_read PC ;;
  reg_write R7 pc ;;
  if truthy long_flag then
    let pcoffset := sign_extend (Z.land instr 0x7FF) 11 in
    pc' <- reg_read PC ;;
    reg_write PC (u16 (pc' + pcoffset))
  else
    let r := Z.land (Z.shiftr instr 6) 0x7 in
    a <- reg_read r ;;
    reg_write PC a.

Definition ld (instr : Z) : M unit :=
  let dr := Z.land (Z.shiftr instr 9) 0x7 in
  let pcoffset := sign_extend (Z.land instr 0x1ff) 9 in
  pc <- reg_read PC ;;
  v <- mem_read (u16 (pc + pcoffset)) ;;
  reg_write dr v ;;
  update_flags dr.

Definition ldi (instr : Z) : M unit :=
  let dr := Z.land (Z.shiftr instr 9) 0x7 in
  let pcoffset := sign_extend (Z.land instr 0x1ff) 9 in
  pc <- reg_read PC ;;
  a <- mem_read (u16 (pc + pcoffset)) ;;
  v <- mem_read a ;;
  reg_write dr v ;;
  update_flags dr.

Definition ldr (instr : Z) : M unit :=
  let dr := Z.land (Z.shiftr instr 9) 0x7 in
  let baser := Z.land (Z.shiftr instr 6) 0x7 in
  let offset := sign_extend (Z.land instr 0x3F) 6 in
  b <- reg_read baser ;;
  v <- mem_read (u16 (b + offset)) ;;
  reg_write dr v ;;
  update_flags dr.

Definition lea (instr : Z) : M unit :=
  let dr := Z.land (Z.shiftr instr 9) 0x7 in
  let pcoffset9 := sign_extend (Z.land instr 0x1FF) 9 in
  pc <- reg_read PC ;;
  reg_write dr (u16 (pc + pcoffset9)) ;;
  update_flags dr.

Definition st (instr : Z) : M unit :=
  let dr := Z.land (Z.shiftr instr 9) 0x7 in
  let pc_offset := sign_extend (Z.land instr 0x1FF) 9 in
  pc <- reg_read PC ;;
  v <- reg_read dr ;;
  _mem_write (u16 (pc + pc_offset)) v.

Definition sti (instr : Z) : M unit :=
  let r0 := Z.land (Z.shiftr instr 9) 0x7 in
  let pc_offset := sign_extend (Z.land instr 0x1FF) 9 in
  pc <- reg_read PC ;;
  a <- mem_read (u16 (pc + pc_offset)) ;;
  v <- reg_read r0 ;;
  _mem_write a v.

Definition str (instr : Z) : M unit :=
  let r0 := Z.land (Z.shiftr instr 9) 0x7 in
  let r1 := Z.land (Z.shiftr instr 6) 0x7 in
  let offset := sign_extend (Z.land instr 0x3F) 6 in
  b <- reg_read r1 ;;
  v <- reg_read r0 ;;
  _mem_write (u16 (b + offset)) v.

End Op.

(** ** Trap routines *)

(** The loops of PUTS and PUTSP walk a pointer [c] up from
    [memory + registers[R0]]; the pointer is the list of the cells from
    its position to the end of the array, and dereferencing it past the
    last cell is undefined. *)
Fixpoint puts_loop (c : list Z) : M unit :=
  match c with
  | [] => undefined
  | w :: c' =>
      if truthy w then putc (to_char w) ;; puts_loop c'
      else ret tt
  end.

Fixpoint putsp_loop (c : list Z) : M unit :=
  match c with
  | [] => undefined
  | w :: c' =>
      if truthy w then
        let char1 := to_char (Z.land w 0xFF) in
        putc char1 ;;
        let char2 := to_char (Z.shiftr w 8) in
        (if truthy char2 then putc char2 else ret tt) ;;
        putsp_loop c'
      else ret tt
  end.

(** The pointer [memory + r]. *)
Definition pointer (r : Z) : M (list Z) :=
  fun m => Ok (drop (Z.to_nat r) (memory m)) m.

(** The inner [switch (instr & 0xFF)]; the result is [running]. *)
Definition trap (instr : Z) : M bool :=
  let vector := Z.land instr 0xFF in
  if vector =? TRAP_GETC then
    c <- getchar ;;
    reg_write R0 (u16 c) ;;
    ret true
  else if vector =? TRAP_OUT then
    r <- reg_read R0 ;;
    putc (to_char r) ;;
    fflush ;;
    ret true
  else if vector =? TRAP_PUTS then
    r <- reg_read R0 ;;
    c <- pointer r ;;
    puts_loop c ;;
    fflush ;;
    ret true
  else if vector =? TRAP_IN then
    printf "Enter a char: " ;;
    g <- getchar ;;
    let c := to_char g in
    putc c ;;
    reg_write R0 (u16 c) ;;
    ret true
  else if vector =? TRAP_PUTSP then
    r <- reg_read R0 ;;
    c <- pointer r ;;
    putsp_loop c ;;
    fflush ;;
    ret true
  else if vector =? TRAP_HALT then
    puts "HALT" ;;
    fflush ;;
    ret false
  else ret true.

(** ** The loop of [main] *)

(** [uint16_t instr = mem_read(registers[PC]++)]. *)
Definition fetch : M Z :=
  pc <- reg_read PC ;;
  reg_write PC (u16 (pc + 1)) ;;
  mem_read pc.

(** [switch (op)]; the result is [running]. *)
Definition execute (instr : Z) : M bool :=
  let op := Z.shiftr instr 12 in
  if op =? ADD then Op.add instr ;; ret true
  else if op =? AND then Op.and instr ;; ret true
  else if op =? NOT then Op.not instr ;; ret true
  else if op =? BR then Op.br instr ;; ret true
  else if op =? JMP then Op.jmp instr ;; ret true
  else if op =? JSR then Op.jsr instr ;; ret true
  else if op =? LD then Op.ld instr ;; ret true
  else if op =? LDI then Op.ldi instr ;; ret true
  else if op =? LDR then Op.ldr instr ;; ret true
  else if op =? LEA then Op.lea instr ;; ret true
  else if op =? ST then Op.st instr ;; ret true
  else if op =? STI then Op.sti instr ;; ret true
  else if op =? STR then Op.str instr ;; ret true
  else if op =? TRAP then trap instr
  else printf (String.append "Aborting..." nl) ;; abort.

(** One turn of [while (running)]. *)
Definition step : M bool :=
  instr <- fetch ;;
  execute instr.

(** How a run ends. *)
Inductive outcome : Type :=
| Halted (m : machine)
| Crashed (m : machine)
| Faulted (m : machine)
| Exited (code : Z) (m : machine)
| Running (m : machine).

(** The loop, for at most [fuel] turns; [Running] is a loop that has not
    ended yet. *)
Fixpoint run (fuel : nat) (m : machine) : outcome :=
  match fuel with
  | O => Running m
  | S fuel' =>
      match step m with
      | Ok true m' => run fuel' m'
      | Ok false m' => Halted m'
      | Undefined m' => Faulted m'
      | Aborted m' => Crashed m'
      end
  end.

(** The status the host sees: 0 after [return 0], the argument of
    [exit], and the status of a process killed by [SIGABRT]. *)
Definition exit_status (o : outcome) : option Z :=
  match o with
  | Halted _ => Some 0
  | Crashed _ => Some 134
  | Exited code _ => Some code
  | Faulted _ => None
  | Running _ => None
  end.

(** ** What the host receives *)

(** The buffering of [stdout], which stdio settles when the stream is
    first used: line buffered on a terminal, and otherwise (a file, a
    pipe) fully buffered, with a buffer of [size] bytes. *)
Inductive buffering : Type :=
| line_buffered
| fully_buffered (size : nat).

(** The length of [out] through its last newline, 0 without one. *)
Fixpoint line_end (out : list Z) : nat :=
  match out with
  | [] => O
  | c :: rest =>
      match line_end rest with
      | O => if c =? 10 then 1%nat else O
      | S n => S (S n)
      end
  end.

(** The bytes the host has received from [stdout] once the process has
    ended.  The [return] of [main] and [exit] flush the stream, so that
    every byte written arrives.  [abort()] does not flush: the host has
    what was written before the last [fflush], on a line-buffered
    stream also everything through the last newline, and what was left
    in the buffer is lost.  A fully buffered stream hands bytes over by
    itself only once its buffer is full; where more than a buffer was
    written since the last [fflush] no answer is given, nor is one given
    after an undefined access or for a loop that is still running. *)
Definition transmitted (b : buffering) (o : outcome) : option (list Z) :=
  match o with
  | Halted m => Some (stdout m)
  | Exited _ m => Some (stdout m)
  | Crashed m =>
      match b with
      | line_buffered =>
          Some (take (Nat.max (flushed m) (line_end (stdout m))) (stdout m))
      | fully_buffered size =>
          if (length (stdout m) - flushed m <=? size)%nat
          then Some (take (flushed m) (stdout m))
          else None
      end
  | Faulted _ => None
  | Running _ => None
  end.

(** ** Image files *)

Definition swap16 (x : Z) : Z := u16 (Z.lor (Z.shiftl x 8) (Z.shiftr x 8)).

(** [fread(ptr, sizeof(uint16_t), n, file)] on a little-endian host: the
    items it delivers, at most [n] of them and only whole ones (the bytes
    of a file are taken two by two; an odd last byte makes no item).  The
    byte at the lower position of the file is the low byte of the item. *)
Fixpoint fread16 (n : nat) (file : list Z) : list Z :=
  match n, file with
  | S n', lo :: hi :: rest => (lo + 256 * hi) :: fread16 n' rest
  | _, _ => []
  end.

(** The byte of a last, partly read item: when the file ends on an odd
    byte before [n] items are read, [fread] has copied that byte too, and
    does not count it. *)
Fixpoint fread16_partial (n : nat) (file : list Z) : list Z :=
  match n, file with
  | S n', lo :: hi :: rest => fread16_partial n' rest
  | S _, [lo] => [lo]
  | _, _ => []
  end.

(** The items stored from [p] on. *)
Fixpoint store_items (p : nat) (items : list Z) (mem : list Z) : list Z :=
  match items with
  | [] => mem
  | x :: rest => store_items (S p) rest (<[p := x]> mem)
  end.

(** The byte of a partly read item, stored at [q]: it takes the place of
    the low byte of the cell, whose high byte stays. *)
Definition store_partial (q : nat) (part : list Z) (mem : list Z) : list Z :=
  match part with
  | lo :: _ => alter (fun old => lo + 256 * (old / 256)) q mem
  | [] => mem
  end.

(** [while (read-- > 0) { *p = swap16( *p); ++p; }] *)
Fixpoint swap_loop (read : nat) (p : nat) (mem : list Z) : list Z :=
  match read with
  | O => mem
  | S read' => swap_loop read' (S p) (alter swap16 p mem)
  end.

Definition max_read (origin : Z) : Z := u16 (UINT16_MAX - origin).

(** The memory after [read_image_file].  A file too short to hold an
    origin leaves [origin] without a value, and leaves nothing to read
    either: the memory stays as it is.  The second [fread] stores the
    items it counts and, after them, the byte of a partly read one; the
    loop swaps the items counted. *)
Definition read_image_file (file : list Z) (mem : list Z) : list Z :=
  match fread16 1 file with
  | raw :: _ =>
      let origin := swap16 raw in
      let p := Z.to_nat origin in
      let items := fread16 (Z.to_nat (max_read origin)) (drop 2 file) in
      let part := fread16_partial (Z.to_nat (max_read origin)) (drop 2 file) in
      let read := length items in
      swap_loop read p
        (store_partial (p + read) part (store_items p items mem))
  | [] => mem
  end.

(** [read_image]: [fs] gives the content of the files that [fopen] opens;
    [None] is the result 0. *)
Definition read_image (fs : string -> option (list Z)) (image_path : string)
    (mem : list Z) : option (list Z) :=
  match fs image_path with
  | None => None
  | Some file => Some (read_image_file file mem)
  end.

(** ** [main] *)

(** The machine when the loop is entered: the registers as the program
    starts, [registers[PC] = PC_START]. *)
Definition boot (mem : list Z) (input : list Z) (keys : list bool) (out : list Z) : machine :=
  Machine mem (<[Z.to_nat PC := PC_START]> zero_registers) input keys out 0.

(** [for (int j = 0; j < argc; ++j)]: every argument is loaded, the
    name of the program included.  The result is the memory, and the path
    that could not be opened if there is one. *)
Fixpoint load_images (fs : string -> option (list Z)) (argv : list string)
    (mem : list Z) : list Z * option string :=
  match argv with
  | [] => (mem, None)
  | path :: rest =>
      match read_image fs path mem with
      | Some mem' => load_images fs rest mem'
      | None => (mem, Some path)
      end
  end.

(** [main], from its arguments, the files, the input and the poll answers
    of the console, for at most [fuel] turns of the loop.  The setting of
    the terminal and the handler of SIGINT are left out. *)
Definition main (argv : list string) (fs : string -> option (list Z))
    (input : list Z) (keys : list bool) (fuel : nat) : outcome :=
  if Z.of_nat (length argv) <? 2 then
    Exited 1 (Machine zero_memory zero_registers input keys
                (bytes_of_string (String.append "Usage: ...." nl)) 0)
  else
    match load_images fs argv zero_memory with
    | (mem, Some path) =>
        Exited 1 (Machine mem zero_registers input keys
                    (bytes_of_string
                       (String.append "Failed to load image: "
                          (String.append path nl))) 0)
    | (mem, None) => run fuel (boot mem input keys [])
    end.

(** ** The earlier revisions *)

(** [vm.c] is kept with an earlier revision of itself, whose functions
    differ from the current ones in [update_flags], [br], [jsr], [ld],
    [ldi] and in the loop of [main].  They are embedded here as they are
    written there; [mem_read] and [mem_write], which that revision calls
    and does not define, are the current ones.  A still earlier revision,
    kept in a file of its own, has the same [update_flags] and [br] and
    no handler yet for JSR, the loads and the stores. *)
Module Early.

Definition update_flags (r : Z) : M unit :=
  v <- reg_read r ;;
  if v =? 0 then reg_write COND FL_ZRO
  else
    v' <- reg_read r ;;
    if truthy (Z.shiftl v' 0xF) then reg_write COND FL_NEG
    else reg_write COND FL_POS.

Definition add (instr : Z) : M unit :=
  let r0 := Z.land (Z.shiftr instr 9) 0x7 in
  let r1 := Z.land (Z.shiftr instr 6) 0x7 in
  let imm_flag := Z.land (Z.shiftr instr 5) 0x1 in
  (if truthy imm_flag then
     let imm5 := sign_extend (Z.land instr 0x1F) 5 in
     a <- reg_read r1 ;;
     reg_write r0 (u16 (a + imm5))
   else
     let r2 := Z.land instr 0x7 in
     a <- reg_read r1 ;;
     b <- reg_read r2 ;;
     reg_write r0 (u16 (a + b))) ;;
  update_flags r0.

Definition and (instr : Z) : M unit :=
  let dr := Z.land (Z.shiftr instr 9) 0x7 in
  let sr1 := Z.land (Z.shiftr instr 6) 0x7 in
  let imm := Z.land (Z.shiftr instr 5) 0x1 in
  (if truthy imm then
     let imm_value := Z.land instr 0x1F in
     a <- reg_read sr1 ;;
     reg_write dr (Z.land a imm_value)
   else
     let sr2 := Z.land instr 0x7 in
     a <- reg_read sr1 ;;
     b <- reg_read sr2 ;;
     reg_write dr (Z.land a b)) ;;
  update_flags dr.

Definition not (instr : Z) : M unit :=
  let dr := Z.land (Z.shiftr instr 9) 0x7 in
  let sr := Z.land (Z.shiftr instr 6) 0x7 in
  a <- reg_read sr ;;
  reg_write dr (u16 (Z.lnot a)) ;;
  update_flags dr.

Definition br (instr : Z) : M unit :=
  let cond_flag := Z.land (Z.shiftr instr 9) 0x7 in
  let PCoffset9 := Z.land instr 0x1FF in
  if truthy cond_flag then reg_write PC (sign_extend PCoffset9 9)
  else ret tt.

Definition jsr (instr : Z) : M unit :=
  pc <- reg_read PC ;;
  reg_write R7 pc ;;
  let bit11 := Z.land (Z.shiftr instr 11) 0x1 in
  if truthy bit11 then
    let pcoffset := sign_extend (Z.land instr 0x7FF) 11 in
    reg_write PC pcoffset
  else
    let r := Z.land (Z.shiftr instr 6) 0x7 in
    a <- reg_read r ;;
    reg_write PC a.

Definition ld (instr : Z) : M unit :=
  let dr := Z.land (Z.shiftr instr 9) 0x7 in
  let pcoffset := sign_extend (Z.land instr 0x1f) 9 in
  pc <- reg_read PC ;;
  v <- mem_read (u16 (pc + pcoffset)) ;;
  reg_write dr v ;;
  update_flags dr.

Definition ldi (instr : Z) : M unit :=
  let dr := Z.land (Z.shiftr instr 9) 0x7 in
  let pcoffset := sign_extend (Z.land instr 0x1f) 9 in
  pc <- reg_read PC ;;
  a <- mem_read (u16 (pc + pcoffset)) ;;
  v <- mem_read a ;;
  reg_write dr v ;;
  update_flags dr.

Definition ldr (instr : Z) : M unit :=
  let dr := Z.land (Z.shiftr instr 9) 0x7 in
  let baser := Z.land (Z.shiftr instr 6) 0x7 in
  let offset := sign_extend (Z.land instr 0x3F) 6 in
  b <- reg_read baser ;;
  v <- mem_read (u16 (b + offset)) ;;
  reg_write dr v ;;
  update_flags dr.

Definition lea (instr : Z) : M unit :=
  let dr := Z.land (Z.shiftr instr 9) 0x7 in
  let pcoffset9 := sign_extend (Z.land instr 0x1ff) 9 in
  pc <- reg_read PC ;;
  reg_write dr (u16 (pc + pcoffset9)) ;;
  update_flags dr.

(** The loop of PUTSP, whose [++c] is under [if (char2)]: a word with a
    zero high byte is never left.  The result tells whether the loop
    ended within [fuel] turns. *)
Fixpoint putsp_loop (fuel : nat) (c : list Z) : M bool :=
  match fuel with
  | O => ret false
  | S fuel' =>
      match c with
      | [] => undefined
      | w :: c' =>
          if truthy w then
            let char1 := to_char (Z.land w 0xFF) in
            putc char1 ;;
            let char2 := to_char (Z.shiftr w 8) in
            if truthy char2 then putc char2 ;; putsp_loop fuel' c'
            else putsp_loop fuel' c
          else ret true
      end
  end.

(** The second [switch] of the loop, on [instr & 0xFF]; the result is
    [running], or [None] when PUTSP has not ended within [fuel] turns. *)
Definition trap (fuel : nat) (instr : Z) : M (option bool) :=
  let vector := Z.land instr 0xFF in
  if vector =? TRAP_GETC then
    c <- getchar ;;
    reg_write R0 (u16 c) ;;
    ret (Some true)
  else if vector =? TRAP_OUT then
    r <- reg_read R0 ;;
    putc (to_char r) ;;
    fflush ;;
    ret (Some true)
  else if vector =? TRAP_PUTS then
    r <- reg_read R0 ;;
    c <- pointer r ;;
    puts_loop c ;;
    fflush ;;
    ret (Some true)
  else if vector =? TRAP_IN then
    printf "Enter a char: " ;;
    g <- getchar ;;
    let c := to_char g in
    putc c ;;
    reg_write R0 (u16 c) ;;
    fflush ;;
    ret (Some true)
  else if vector =? TRAP_PUTSP then
    r <- reg_read R0 ;;
    c <- pointer r ;;
    ended <- putsp_loop fuel c ;;
    if ended then fflush ;; ret (Some true) else ret None
  else if vector =? TRAP_HALT then
    puts "HALT" ;;
    fflush ;;
    ret (Some false)
  else ret (Some true).

(** The two [switch]es of the loop, one after the other. *)
Definition execute (fuel : nat) (instr : Z) : M (option bool) :=
  let op := Z.shiftr instr 12 in
  (if op =? ADD then add instr
   else if op =? AND then and instr
   else if op =? NOT then not instr
   else if op =? BR then br instr
   else if op =? JMP then Op.jmp instr
   else if op =? JSR then jsr instr
   else if op =? LD then ld instr
   else if op =? LDI then ldi instr
   else if op =? LDR then ldr instr
   else if op =? LEA then lea instr
   else if op =? ST then Op.st instr
   else ret tt) ;;
  trap fuel instr.

End Early.

(** ** What the specification says of the flags *)

(** The flag of a word: ZRO for zero, NEG when bit 15 is set, POS otherwise. *)
Definition flag_of (v : Z) : Z :=
  if v =? 0 then FL_ZRO
  else if Z.testbit v 15 then FL_NEG
  else FL_POS.

(** The opcodes that write a result to a register and set the flags. *)
Definition writes_result (op : Z) : bool :=
  (op =? ADD) || (op =? AND) || (op =? NOT) || (op =? LD) || (op =? LDI)
  || (op =? LDR) || (op =? LEA).

(** ** Well-formed machines *)

Definition word (z : Z) : Prop := 0 <= z < 65536.

(** The arrays have their declared sizes and hold 16-bit values. *)
Record wf (m : machine) : Prop := Wf {
  wf_memory_length : length (memory m) = Z.to_nat UINT16_MAX;
  wf_registers_length : length (registers m) = Z.to_nat COUNT;
  wf_memory_words : Forall word (memory m);
  wf_registers_words : Forall word (registers m)
}.

(** ** Fields of an instruction *)

(** The register fields: bits 11..9, bits 8..6 and bits 2..0. *)
Definition field_DR (instr : Z) : Z := Z.land (Z.shiftr instr 9) 0x7.
Definition field_SR1 (instr : Z) : Z := Z.land (Z.shiftr instr 6) 0x7.
Definition field_SR2 (instr : Z) : Z := Z.land instr 0x7.

(** The machine [m] once [x] is written to the destination register of
    [instr] and COND is the flag of [x]. *)
Definition written (instr : Z) (m : machine) (x : Z) : machine :=
  with_registers
    (<[Z.to_nat COND := flag_of x]>
       (<[Z.to_nat (field_DR instr) := x]> (registers m))) m.

(** ** Frames *)

(** The machine a computation ends in, whichever way it ends. *)
Definition final {A : Type} (r : result A) : machine :=
  match r with
  | Ok _ m => m
  | Undefined m => m
  | Aborted m => m
  end.

(** [c] relates every machine to the one it ends in by [R]. *)
Definition keeps {A : Type} (R : machine -> machine -> Prop) (c : M A) : Prop :=
  forall m, R m (final (c m)).

(** Register [i] holds the same value. *)
Definition same_register (i : nat) (m m' : machine) : Prop :=
  registers m' !! i = registers m !! i.

(** The memory holds the same values. *)
Definition same_memory (m m' : machine) : Prop :=
  memory m' = memory m.

(** The stream holds the same bytes, flushed as far as before. *)
Definition same_stream (m m' : machine) : Prop :=
  stdout m' = stdout m /\ flushed m' = flushed m.

(** What was flushed is part of what was written; a computation keeps
    this when it holds at its end if it held at its start. *)
Definition flushed_in_stream (m : machine) : Prop :=
  (flushed m <= length (stdout m))%nat.

Definition keeps_flushed_in_stream (m m' : machine) : Prop :=
  flushed_in_stream m -> flushed_in_stream m'.

(** The output and the poll answers still to come are the same. *)
Definition same_output_and_polls (m m' : machine) : Prop :=
  stdout m' = stdout m /\ polls m' = polls m.

(** Nothing was written to the console, and no byte was taken from the
    input other than by a keyboard poll that found a key. *)
Definition quiet (m m' : machine) : Prop :=
  stdout m' = stdout m /\
  (length (polls m') <= length (polls m))%nat /\
  (length (polls m') = length (polls m) -> stdin m' = stdin m).

(** [c] keeps a machine well formed however it ends, and what it
    delivers satisfies [Q]. *)
Definition safe {A : Type} (c : M A) (Q : A -> Prop) : Prop :=
  forall m, wf m ->
    wf (final (c m)) /\ (forall a m', c m = Ok a m' -> Q a).

(** The machine a run ends in. *)
Definition last (o : outcome) : machine :=
  match o with
  | Halted m => m
  | Crashed m => m
  | Faulted m => m
  | Exited _ m => m
  | Running m => m
  end.

(** A byte of a file. *)
Definition byte (z : Z) : Prop := 0 <= z < 256.

(** [c] never ends in [abort()]. *)
Definition never_aborts {A : Type} (c : M A) : Prop :=
  forall m m', c m <> Aborted m'.

(** The diagnostic of the loop's [default] case. *)
Definition diagnostic : list Z := bytes_of_string (String.append "Aborting..." nl).

(** ** What the instructions compute *)

(** The value ADD and AND write to DR, from the values [a] and [b] of
    SR1 and SR2. *)
Definition add_result (instr a b : Z) : Z :=
  if truthy (Z.land (Z.shiftr instr 5) 0x1)
  then u16 (a + sign_extend (Z.land instr 0x1F) 5)
  else u16 (a + b).

Definition and_result (instr a b : Z) : Z :=
  if truthy (Z.land (Z.shiftr instr 5) 0x1)
  then Z.land a (Z.land instr 0x1F)
  else Z.land a b.

(** The bytes PUTSP writes for a non-zero word: the low byte, and the
    high byte when it is not zero. *)
Definition packed_bytes (w : Z) : list Z :=
  Z.land w 0xFF :: (if Z.shiftr w 8 =? 0 then [] else [Z.shiftr w 8]).

(** ** Image files as the specification describes them *)

(** The two bytes of a word in an image file, the high byte first. *)
Definition be_bytes (w : Z) : list Z := [Z.shiftr w 8; Z.land w 0xFF].

(** The file of an image: the origin, then the payload words. *)
Definition image (origin : Z) (payload : list Z) : list Z :=
  be_bytes origin ++ flat_map be_bytes payload.

(** The item [fread16] makes of the two bytes of a word. *)
Definition raw_item (w : Z) : Z := Z.shiftr w 8 + 256 * Z.land w 0xFF.

(** ** Runs that set no flag *)

(** [runs_without_flags m0 m]: the loop goes from [m0] to [m] in some
    number of turns, none of which executes ADD, AND, NOT, LD, LDI, LDR or
    LEA. *)
Inductive runs_without_flags : machine -> machine -> Prop :=
| rwf_start m : runs_without_flags m m
| rwf_turn m0 m instr m1 m2 :
    runs_without_flags m0 m ->
    fetch m = Ok instr m1 ->
    writes_result (Z.shiftr instr 12) = false ->
    execute instr m1 = Ok true m2 ->
    runs_without_flags m0 m2.

(** ** Sample machines *)

(** A machine at the start of the loop whose memory holds [code] from
    [PC_START] on and zeros elsewhere, whose registers R0..R7 and COND
    hold the values listed in [regs], and whose console is empty. *)
Definition sample (code : list Z) (regs : list (Z * Z)) : machine :=
  let m := boot (store_items (Z.to_nat PC_START) code zero_memory) [] [] [] in
  with_registers
    (foldr (fun rv acc => <[Z.to_nat (fst rv) := snd rv]> acc) (registers m) regs)
    m.

(** The machine with its PC one further. *)
Definition advance (m : machine) : machine :=
  match registers m !! Z.to_nat PC with
  | Some pc => with_registers (<[Z.to_nat PC := u16 (pc + 1)]> (registers m)) m
  | None => m
  end.

(** ** Signed values and further frames *)

(** The value of the [n]-bit field [x] read in two's complement. *)
Definition signed (x n : Z) : Z := if x <? 2 ^ (n - 1) then x else x - 2 ^ n.

(** Every cell other than the two keyboard registers holds the same
    value. *)
Definition same_cells_but_keyboard (m m' : machine) : Prop :=
  forall i, i <> Z.to_nat MR_KBSR -> i <> Z.to_nat MR_KBDR ->
    memory m' !! i = memory m !! i.

(** * Properties *)

(** ** Words and bit fields *)

Lemma u16_word z : word (u16 z).
Proof. unfold word, u16. apply Z.mod_pos_bound. lia. Qed.

Lemma u16_id z : word z -> u16 z = z.
Proof. unfold word, u16. intros H. apply Z.mod_small. exact H. Qed.

Lemma land_ones_mod a n : 0 <= n -> Z.land a (Z.ones n) = a mod 2 ^ n.
Proof. intros Hn. apply Z.land_ones. exact Hn. Qed.

(** A register field: three bits, hence one of R0..R7. *)
Lemma field3_range a : 0 <= Z.land a 0x7 < 8.
Proof.
  change 0x7 with (Z.ones 3). rewrite land_ones_mod by lia.
  apply Z.mod_pos_bound. lia.
Qed.

Lemma bit_range a : Z.land a 1 = 0 \/ Z.land a 1 = 1.
Proof.
  assert (E : Z.land a 1 = a mod 2) by (apply (land_ones_mod a 1); lia).
  rewrite E. pose proof (Z.mod_pos_bound a 2 ltac:(lia)). lia.
Qed.

Lemma field8_range a : 0 <= Z.land a 0xFF < 256.
Proof.
  change 0xFF with (Z.ones 8). rewrite land_ones_mod by lia.
  apply Z.mod_pos_bound. lia.
Qed.

Lemma land_word a b : word a -> word b -> word (Z.land a b).
Proof.
  unfold word. intros Ha Hb. split.
  - apply Z.land_nonneg. lia.
  - destruct (Z.eq_dec (Z.land a b) 0) as [E | E]; [lia |].
    assert (0 <= Z.land a b) by (apply Z.land_nonneg; lia).
    assert (0 < a) by (destruct (Z.eq_dec a 0) as [-> | ]; [now rewrite Z.land_0_l in E | lia]).
    apply (Z.log2_lt_pow2 _ 16); [lia |].
    pose proof (Z.log2_land a b ltac:(lia) ltac:(lia)).
    assert (Z.log2 a < 16) by (apply Z.log2_lt_pow2; lia).
    lia.
Qed.

(** A value below [2^n] shares no bit with one shifted left by [n]. *)
Lemma land_shiftl_disjoint a x n :
  0 <= n -> 0 <= x < 2 ^ n -> Z.land x (Z.shiftl a n) = 0.
Proof.
  intros Hn Hx. apply Z.bits_inj'. intros i Hi.
  rewrite Z.land_spec, Z.bits_0.
  destruct (Z_lt_ge_dec i n) as [Hlow | Hhigh].
  - rewrite Z.shiftl_spec_low by exact Hlow. apply andb_false_r.
  - rewrite <- (Z.mod_small x (2 ^ n)) by exact Hx.
    rewrite Z.mod_pow2_bits_high by lia. reflexivity.
Qed.

(** ** Sign extension *)

(** [sign_extend x n] is the 16-bit two's complement form of the signed
    value of the [n]-bit field [x]. *)
Lemma sign_extend_value x n :
  1 <= n <= 15 -> 0 <= x < 2 ^ n ->
  sign_extend x n = if x <? 2 ^ (n - 1) then x else x + 65536 - 2 ^ n.
Proof.
  intros Hn Hx. unfold sign_extend.
  assert (Hpow : 2 ^ n = 2 * 2 ^ (n - 1)).
  { replace n with (Z.succ (n - 1)) at 1 by lia. apply Z.pow_succ_r. lia. }
  assert (Hpos : 0 < 2 ^ (n - 1)) by (apply Z.pow_pos_nonneg; lia).
  assert (Hmax : 2 ^ (n - 1) <= 2 ^ 14) by (apply Z.pow_le_mono_r; lia).
  change (2 ^ 14) with 16384 in Hmax.
  set (h := 2 ^ (n - 1)) in *.
  rewrite Z.shiftr_div_pow2 by lia. fold h.
  assert (Ebit : Z.land (x / h) 1 = (x / h) mod 2)
    by (apply (land_ones_mod (x / h) 1); lia).
  rewrite Ebit.
  destruct (Z.ltb_spec x h) as [Hlt | Hge].
  - rewrite Z.div_small by lia. reflexivity.
  - assert (Ediv : x / h = 1)
      by (symmetry; apply (Z.div_unique x h 1 (x - h)); lia).
    rewrite Ediv. change (truthy (1 mod 2)) with true. cbv iota.
    rewrite <- (Z.add_0_r (Z.lor _ _)),
      <- (land_shiftl_disjoint 0xFFFF x n ltac:(lia) Hx).
    rewrite Z.add_lor_land, Z.shiftl_mul_pow2 by lia.
    unfold u16. rewrite Hpow.
    replace (x + 65535 * (2 * h)) with (x + 65536 - 2 * h + (2 * h - 1) * 65536) by lia.
    rewrite Z.mod_add by lia. apply Z.mod_small. lia.
Qed.

(** ** Running the monad *)

Lemma bind_ok {A B : Type} (c : M A) (k : A -> M B) m a m' :
  c m = Ok a m' -> bind c k m = k a m'.
Proof. unfold bind. intros ->. reflexivity. Qed.

Lemma bind_undefined {A B : Type} (c : M A) (k : A -> M B) m m' :
  c m = Undefined m' -> bind c k m = Undefined m'.
Proof. unfold bind. intros ->. reflexivity. Qed.

Lemma bind_inv {A B : Type} (c : M A) (k : A -> M B) m b m2 :
  bind c k m = Ok b m2 -> exists a m1, c m = Ok a m1 /\ k a m1 = Ok b m2.
Proof.
  unfold bind. destruct (c m) as [a m1 | m1 | m1]; intros H; try discriminate.
  exists a, m1. split; [reflexivity | exact H].
Qed.

Lemma reg_read_some r v m :
  registers m !! Z.to_nat r = Some v -> reg_read r m = Ok v m.
Proof. unfold reg_read. intros ->. reflexivity. Qed.

Lemma reg_read_inv r v m m' :
  reg_read r m = Ok v m' -> m' = m /\ registers m !! Z.to_nat r = Some v.
Proof.
  unfold reg_read. destruct (registers m !! Z.to_nat r) as [w |] eqn:E; intros H;
    inversion H; subst. split; reflexivity.
Qed.

Lemma reg_write_lt r v m :
  (Z.to_nat r < length (registers m))%nat ->
  reg_write r v m = Ok tt (with_registers (<[Z.to_nat r := v]> (registers m)) m).
Proof. unfold reg_write. intros H. rewrite decide_True by exact H. reflexivity. Qed.

Lemma reg_write_inv r v m u m' :
  reg_write r v m = Ok u m' ->
  (Z.to_nat r < length (registers m))%nat /\
  m' = with_registers (<[Z.to_nat r := v]> (registers m)) m.
Proof.
  unfold reg_write. destruct (decide (Z.to_nat r < length (registers m))%nat);
    intros H; inversion H; subst. split; [assumption | reflexivity].
Qed.

Lemma cell_read_inv a v m m' :
  cell_read a m = Ok v m' -> m' = m /\ memory m !! Z.to_nat a = Some v.
Proof.
  unfold cell_read. destruct (memory m !! Z.to_nat a) as [w |] eqn:E; intros H;
    inversion H; subst. split; reflexivity.
Qed.

Lemma cell_write_inv a v m u m' :
  cell_write a v m = Ok u m' ->
  (Z.to_nat a < length (memory m))%nat /\
  m' = with_memory (<[Z.to_nat a := v]> (memory m)) m.
Proof.
  unfold cell_write. destruct (decide (Z.to_nat a < length (memory m))%nat);
    intros H; inversion H; subst. split; [assumption | reflexivity].
Qed.

(** A register file of the declared size has a value at each of its ten
    indices. *)
Lemma register_lookup m r :
  length (registers m) = Z.to_nat COUNT -> 0 <= r < COUNT ->
  exists v, registers m !! Z.to_nat r = Some v.
Proof.
  intros Hlen Hr.
  destruct (lookup_lt_is_Some_2 (registers m) (Z.to_nat r)) as [v Hv].
  - rewrite Hlen. unfold COUNT in *. lia.
  - exists v. exact Hv.
Qed.

(** ** The fetch *)

(** [mem_read] touches neither the registers nor the output. *)
Lemma mem_read_frame a v m m' :
  mem_read a m = Ok v m' ->
  registers m' = registers m /\ stdout m' = stdout m /\
  length (memory m') = length (memory m).
Proof.
  unfold mem_read. intros H.
  apply bind_inv in H as (u & m1 & H1 & H2).
  apply cell_read_inv in H2 as [-> _].
  destruct (a =? MR_KBSR).
  - apply bind_inv in H1 as (key & m2 & Hk & H1).
    assert (registers m2 = registers m /\ stdout m2 = stdout m
            /\ memory m2 = memory m) as (Er & Eo & Em).
    { unfold check_key in Hk. destruct (polls m); inversion Hk; subst; auto. }
    destruct key.
    + apply bind_inv in H1 as (u1 & m3 & Hw & H1).
      apply cell_write_inv in Hw as [_ ->].
      apply bind_inv in H1 as (c & m4 & Hg & H1).
      apply cell_write_inv in H1 as [_ ->].
      unfold getchar in Hg. simpl in Hg.
      destruct (stdin m2); inversion Hg; subst; simpl;
        rewrite !length_insert, Em; auto.
    + apply cell_write_inv in H1 as [_ ->]. simpl.
      rewrite length_insert, Em. auto.
  - inversion H1; subst. auto.
Qed.

(** The fetch reads the cell at PC and leaves PC one further, modulo 2^16. *)
Lemma fetch_registers m0 instr m :
  fetch m0 = Ok instr m ->
  exists pc0, registers m0 !! Z.to_nat PC = Some pc0 /\
              registers m = <[Z.to_nat PC := u16 (pc0 + 1)]> (registers m0) /\
              stdout m = stdout m0.
Proof.
  unfold fetch. intros H.
  apply bind_inv in H as (pc0 & m1 & H1 & H).
  apply reg_read_inv in H1 as [-> Hpc].
  apply bind_inv in H as (u & m2 & H2 & H).
  apply reg_write_inv in H2 as [_ ->].
  apply mem_read_frame in H as (Er & Eo & _).
  exists pc0. simpl in *. auto.
Qed.

(** ** Sample machines *)

Lemma store_items_length items : forall p mem,
  length (store_items p items mem) = length mem.
Proof.
  induction items as [| x rest IH]; intros p mem; simpl; [reflexivity |].
  rewrite IH. apply length_insert.
Qed.

Lemma store_items_words items : forall p mem,
  Forall word items -> Forall word mem -> Forall word (store_items p items mem).
Proof.
  induction items as [| x rest IH]; intros p mem Hitems Hmem; simpl; [exact Hmem |].
  inversion Hitems; subst. apply IH; [assumption |].
  apply Forall_insert; assumption.
Qed.

Lemma zero_memory_length : length zero_memory = Z.to_nat UINT16_MAX.
Proof. apply length_replicate. Qed.

Lemma zero_memory_words : Forall word zero_memory.
Proof. apply Forall_replicate. unfold word. lia. Qed.

Lemma chosen_registers_length (regs : list (Z * Z)) (base : list Z) :
  length (foldr (fun rv acc => <[Z.to_nat (fst rv) := snd rv]> acc) base regs)
  = length base.
Proof.
  induction regs as [| rv regs IH]; [reflexivity |].
  cbn [foldr]. rewrite length_insert. exact IH.
Qed.

Lemma chosen_registers_words (regs : list (Z * Z)) (base : list Z) :
  Forall (fun rv => word (snd rv)) regs -> Forall word base ->
  Forall word (foldr (fun rv acc => <[Z.to_nat (fst rv) := snd rv]> acc) base regs).
Proof.
  intros Hregs Hbase. induction regs as [| rv regs IH]; [exact Hbase |].
  inversion Hregs; subst. cbn [foldr]. apply Forall_insert; [apply IH |]; assumption.
Qed.

(** The sample machines are well formed. *)
Lemma sample_wf code regs :
  Forall word code -> Forall (fun rv => word (snd rv)) regs -> wf (sample code regs).
Proof.
  intros Hcode Hregs. unfold sample, boot.
  split; cbn [memory registers with_registers].
  - rewrite store_items_length. apply zero_memory_length.
  - rewrite chosen_registers_length, length_insert. apply length_replicate.
  - apply store_items_words; [exact Hcode | apply zero_memory_words].
  - apply chosen_registers_words; [exact Hregs |].
    apply Forall_insert; [| unfold word, PC_START; lia].
    apply Forall_replicate. unfold word. lia.
Qed.

(** The fetch from an address other than KBSR. *)
Lemma fetch_run m pc instr :
  registers m !! Z.to_nat PC = Some pc ->
  pc <> MR_KBSR ->
  memory m !! Z.to_nat pc = Some instr ->
  fetch m = Ok instr (advance m).
Proof.
  intros Hpc Hne Hcell. unfold fetch, advance. rewrite Hpc.
  rewrite (bind_ok _ _ _ _ _ (reg_read_some _ _ _ Hpc)).
  rewrite (bind_ok _ _ _ _ _ (reg_write_lt PC (u16 (pc + 1)) m
             (lookup_lt_Some _ _ _ Hpc))).
  unfold mem_read. apply Z.eqb_neq in Hne. rewrite Hne.
  unfold bind, ret, cell_read. simpl. rewrite Hcell. reflexivity.
Qed.

(** ** Dispatch *)

Lemma execute_BR instr :
  Z.shiftr instr 12 = BR -> execute instr = (Op.br instr ;; ret true).
Proof. unfold execute. intros ->. reflexivity. Qed.

Lemma execute_JSR instr :
  Z.shiftr instr 12 = JSR -> execute instr = (Op.jsr instr ;; ret true).
Proof. unfold execute. intros ->. reflexivity. Qed.

Lemma execute_TRAP instr :
  Z.shiftr instr 12 = TRAP -> execute instr = trap instr.
Proof. unfold execute. intros ->. reflexivity. Qed.

Lemma execute_illegal instr :
  Z.shiftr instr 12 = RES \/ Z.shiftr instr 12 = RTI ->
  execute instr = (printf (String.append "Aborting..." nl) ;; abort).
Proof. unfold execute. intros [-> | ->]; reflexivity. Qed.

Lemma execute_ADD instr :
  Z.shiftr instr 12 = ADD -> execute instr = (Op.add instr ;; ret true).
Proof. unfold execute. intros ->. reflexivity. Qed.

Lemma execute_AND instr :
  Z.shiftr instr 12 = AND -> execute instr = (Op.and instr ;; ret true).
Proof. unfold execute. intros ->. reflexivity. Qed.

Lemma execute_NOT instr :
  Z.shiftr instr 12 = NOT -> execute instr = (Op.not instr ;; ret true).
Proof. unfold execute. intros ->. reflexivity. Qed.

Lemma execute_LD instr :
  Z.shiftr instr 12 = LD -> execute instr = (Op.ld instr ;; ret true).
Proof. unfold execute. intros ->. reflexivity. Qed.

Lemma execute_LDI instr :
  Z.shiftr instr 12 = LDI -> execute instr = (Op.ldi instr ;; ret true).
Proof. unfold execute. intros ->. reflexivity. Qed.

Lemma execute_LDR instr :
  Z.shiftr instr 12 = LDR -> execute instr = (Op.ldr instr ;; ret true).
Proof. unfold execute. intros ->. reflexivity. Qed.

Lemma execute_LEA instr :
  Z.shiftr instr 12 = LEA -> execute instr = (Op.lea instr ;; ret true).
Proof. unfold execute. intros ->. reflexivity. Qed.

(** ** BR *)

(** What [br] does to a machine whose PC and COND are [pc] and [cond]. *)
Lemma br_run instr m pc cond :
  registers m !! Z.to_nat PC = Some pc ->
  registers m !! Z.to_nat COND = Some cond ->
  Op.br instr m =
    Ok tt (if truthy (Z.land (Z.land (Z.shiftr instr 9) 0x7) cond)
           then with_registers
                  (<[Z.to_nat PC :=
                       u16 (pc + sign_extend (Z.land instr 0x1FF) 9)]> (registers m)) m
           else m).
Proof.
  intros Hpc Hcond. unfold Op.br.
  rewrite (bind_ok _ _ _ _ _ (reg_read_some _ _ _ Hcond)).
  destruct (truthy _); [| reflexivity].
  rewrite (bind_ok _ _ _ _ _ (reg_read_some _ _ _ Hpc)).
  apply reg_write_lt. apply lookup_lt_Some in Hpc. exact Hpc.
Qed.

(** C1.  Every executed BR instruction, with [nzp] its bits 11..9 and
    [imm9] its bits 8..0: when [nzp & COND] is not zero, PC becomes the
    PC after the fetch plus [sign_extend imm9 9], modulo 2^16; otherwise PC
    keeps the value the fetch left; COND is not modified, nor is any other
    register, the memory or the console; with [nzp = 0] the machine is the
    one the fetch left. *)
Theorem br_adds_offset_when_cond_matches m0 pc0 instr m :
  length (registers m0) = Z.to_nat COUNT ->
  registers m0 !! Z.to_nat PC = Some pc0 ->
  fetch m0 = Ok instr m ->
  Z.shiftr instr 12 = BR ->
  let nzp := Z.land (Z.shiftr instr 9) 0x7 in
  let imm9 := Z.land instr 0x1FF in
  let pc := u16 (pc0 + 1) in
  exists cond m',
    step m0 = Ok true m' /\
    registers m !! Z.to_nat PC = Some pc /\
    registers m !! Z.to_nat COND = Some cond /\
    registers m' !! Z.to_nat COND = Some cond /\
    registers m' !! Z.to_nat PC =
      Some (if Z.land nzp cond =? 0 then pc else u16 (pc + sign_extend imm9 9)) /\
    (forall r, r <> Z.to_nat PC -> registers m' !! r = registers m !! r) /\
    memory m' = memory m /\ stdin m' = stdin m /\ polls m' = polls m /\
    stdout m' = stdout m /\
    (nzp = 0 -> m' = m).
Proof.
  intros Hlen Hpc0 Hfetch Hop nzp imm9 pc.
  destruct (fetch_registers _ _ _ Hfetch) as (pc0' & Hpc0' & Hregs & _).
  assert (pc0' = pc0) as -> by congruence.
  assert (Hlen' : length (registers m) = Z.to_nat COUNT)
    by (rewrite Hregs, length_insert; exact Hlen).
  assert (Hpc : registers m !! Z.to_nat PC = Some pc).
  { rewrite Hregs. apply list_lookup_insert_eq. apply lookup_lt_Some in Hpc0. exact Hpc0. }
  destruct (register_lookup m COND Hlen') as [cond Hcond]; [unfold COND, COUNT; lia |].
  exists cond.
  unfold step. rewrite (bind_ok _ _ _ _ _ Hfetch), (execute_BR _ Hop).
  rewrite (bind_ok _ _ _ _ _ (br_run instr m pc cond Hpc Hcond)).
  fold nzp imm9. unfold truthy, ret.
  destruct (Z.land nzp cond =? 0) eqn:E; simpl.
  - exists m. repeat split; auto.
  - eexists. split; [reflexivity |]. simpl.
    assert (Hlt : (Z.to_nat PC < length (registers m))%nat)
      by (apply lookup_lt_Some in Hpc; exact Hpc).
    repeat split; auto.
    + rewrite list_lookup_insert_ne; [exact Hcond | unfold PC, COND; lia].
    + apply list_lookup_insert_eq. exact Hlt.
    + intros r Hr. apply list_lookup_insert_ne. congruence.
    + intros Hz. rewrite Hz, Z.land_0_l in E. discriminate.
Qed.

(** BRz +5 with COND = ZRO: the branch is taken from 0x3001 to 0x3006. *)
Lemma br_adds_offset_witness :
  exists m', step (sample [0x0405] [(COND, FL_ZRO)]) = Ok true m' /\
             registers m' !! Z.to_nat PC = Some 0x3006.
Proof.
  destruct (br_adds_offset_when_cond_matches
              (sample [0x0405] [(COND, FL_ZRO)]) PC_START 0x0405
              (advance (sample [0x0405] [(COND, FL_ZRO)])))
    as (cond & m' & Hstep & _ & Hc & _ & Hpc & _).
  - vm_compute. reflexivity.
  - vm_compute. reflexivity.
  - apply (fetch_run _ PC_START); [| discriminate |]; vm_compute; reflexivity.
  - reflexivity.
  - exists m'. split; [exact Hstep |].
    vm_compute in Hc. injection Hc as <-. exact Hpc.
Defined.

(** ** Frame rules *)

Section Frame.
Variable R : machine -> machine -> Prop.
Context {R_preorder : PreOrder R}.

Lemma keeps_ret {A : Type} (a : A) : keeps R (ret a).
Proof. intros m. simpl. reflexivity. Qed.

Lemma keeps_undefined {A : Type} : keeps R (@undefined A).
Proof. intros m. simpl. reflexivity. Qed.

Lemma keeps_abort {A : Type} : keeps R (@abort A).
Proof. intros m. simpl. reflexivity. Qed.

Lemma keeps_bind {A B : Type} (c : M A) (k : A -> M B) :
  keeps R c -> (forall a, keeps R (k a)) -> keeps R (bind c k).
Proof.
  intros Hc Hk m. unfold bind. specialize (Hc m).
  destruct (c m) as [a m1 | m1 | m1]; simpl in *; try exact Hc.
  etransitivity; [exact Hc | apply Hk].
Qed.

Lemma keeps_if {A : Type} (b : bool) (c1 c2 : M A) :
  keeps R c1 -> keeps R c2 -> keeps R (if b then c1 else c2).
Proof. destruct b; auto. Qed.

Lemma keeps_reg_read r : keeps R (reg_read r).
Proof.
  intros m. unfold reg_read. destruct (registers m !! Z.to_nat r); simpl; reflexivity.
Qed.

Lemma keeps_cell_read a : keeps R (cell_read a).
Proof.
  intros m. unfold cell_read. destruct (memory m !! Z.to_nat a); simpl; reflexivity.
Qed.

Lemma keeps_fflush :
  (forall n m, R m (with_flushed n m)) -> keeps R fflush.
Proof. intros H m. apply H. Qed.

Lemma keeps_pointer r : keeps R (pointer r).
Proof. intros m. simpl. reflexivity. Qed.
End Frame.

#[export] Instance same_register_preorder i : PreOrder (same_register i).
Proof.
  split.
  - intros m. reflexivity.
  - intros m1 m2 m3 H12 H23. unfold same_register in *. congruence.
Qed.

#[export] Instance same_memory_preorder : PreOrder same_memory.
Proof.
  split.
  - intros m. reflexivity.
  - intros m1 m2 m3 H12 H23. unfold same_memory in *. congruence.
Qed.

#[export] Instance quiet_preorder : PreOrder quiet.
Proof.
  split.
  - intros m. unfold quiet. auto.
  - intros m1 m2 m3 (Ho & Hl & Hi) (Ho' & Hl' & Hi'). unfold quiet.
    repeat split; [congruence | lia |].
    intros E. rewrite Hi' by lia. apply Hi. lia.
Qed.

(** The primitives, relation by relation. *)

Lemma reg_write_same_register i r v :
  Z.to_nat r <> i -> keeps (same_register i) (reg_write r v).
Proof.
  intros Hne m. unfold reg_write, same_register.
  destruct (decide _); simpl; [| reflexivity].
  apply list_lookup_insert_ne. exact Hne.
Qed.

Lemma cell_write_same_register i a v : keeps (same_register i) (cell_write a v).
Proof. intros m. unfold cell_write. destruct (decide _); reflexivity. Qed.

Lemma getchar_same_register i : keeps (same_register i) getchar.
Proof. intros m. unfold getchar. destruct (stdin m); reflexivity. Qed.

Lemma check_key_same_register i : keeps (same_register i) check_key.
Proof. intros m. unfold check_key. destruct (polls m); reflexivity. Qed.

Lemma putc_same_register i c : keeps (same_register i) (putc c).
Proof. intros m. reflexivity. Qed.

Lemma printf_same_register i s : keeps (same_register i) (printf s).
Proof. intros m. reflexivity. Qed.

Lemma puts_same_register i s : keeps (same_register i) (puts s).
Proof. intros m. reflexivity. Qed.

Lemma fflush_same_register i : keeps (same_register i) fflush.
Proof. intros m. reflexivity. Qed.

Lemma fflush_same_memory : keeps same_memory fflush.
Proof. intros m. reflexivity. Qed.

Lemma reg_write_same_memory r v : keeps same_memory (reg_write r v).
Proof. intros m. unfold reg_write. destruct (decide _); reflexivity. Qed.

Lemma getchar_same_memory : keeps same_memory getchar.
Proof. intros m. unfold getchar. destruct (stdin m); reflexivity. Qed.

Lemma putc_same_memory c : keeps same_memory (putc c).
Proof. intros m. reflexivity. Qed.

Lemma printf_same_memory s : keeps same_memory (printf s).
Proof. intros m. reflexivity. Qed.

Lemma puts_same_memory s : keeps same_memory (puts s).
Proof. intros m. reflexivity. Qed.

Lemma reg_write_quiet r v : keeps quiet (reg_write r v).
Proof.
  intros m. unfold reg_write. destruct (decide _); simpl; unfold quiet; auto.
Qed.

Lemma cell_write_quiet a v : keeps quiet (cell_write a v).
Proof.
  intros m. unfold cell_write. destruct (decide _); simpl; unfold quiet; auto.
Qed.

Lemma fflush_quiet : keeps quiet fflush.
Proof. intros m. unfold quiet. simpl. auto. Qed.

Create HintDb frame discriminated.

#[export] Hint Resolve keeps_ret keeps_undefined keeps_abort keeps_reg_read
  keeps_cell_read keeps_pointer
  cell_write_same_register getchar_same_register check_key_same_register
  putc_same_register printf_same_register puts_same_register
  reg_write_same_memory getchar_same_memory putc_same_memory
  printf_same_memory puts_same_memory
  reg_write_quiet cell_write_quiet
  fflush_same_register fflush_same_memory fflush_quiet : frame.

(** Goes through the binds and branches of a computation and closes the
    leaves with the [frame] hints. *)
Ltac frame_step :=
  match goal with
  | |- PreOrder _ => apply _
  | |- forall _, _ => intro
  | |- keeps _ (bind _ _) => apply keeps_bind
  | |- keeps _ (if ?b then _ else _) => destruct b
  | |- keeps (same_register _) (reg_write _ _) =>
      apply reg_write_same_register; unfold R0, R7, PC, COND; lia
  | |- keeps _ _ => solve [ eauto with frame typeclass_instances ]
  end.

Ltac frame := repeat frame_step.

(** ** Frames of the memory read and of the instructions *)

Lemma mem_read_same_register i a : keeps (same_register i) (mem_read a).
Proof. unfold mem_read. frame. Qed.

#[export] Instance same_output_and_polls_preorder : PreOrder same_output_and_polls.
Proof.
  split.
  - intros m. split; reflexivity.
  - intros m1 m2 m3 [Ho Hp] [Ho' Hp']. split; congruence.
Qed.

Lemma cell_write_same_output_and_polls a v :
  keeps same_output_and_polls (cell_write a v).
Proof. intros m. unfold cell_write. destruct (decide _); split; reflexivity. Qed.

Lemma getchar_same_output_and_polls : keeps same_output_and_polls getchar.
Proof. intros m. unfold getchar. destruct (stdin m); split; reflexivity. Qed.

(** A read of KBSR takes a byte from the input only after a poll that
    found a key, and a poll is then used up. *)
Lemma mem_read_quiet a : keeps quiet (mem_read a).
Proof.
  unfold mem_read. apply keeps_bind; [apply _ | | intros _; apply keeps_cell_read; apply _].
  destruct (a =? MR_KBSR); [| apply keeps_ret; apply _].
  intros m. unfold bind at 1, check_key.
  destruct (polls m) as [| key rest] eqn:Hp.
  - apply cell_write_quiet.
  - set (m1 := Machine (memory m) (registers m) (stdin m) rest (stdout m) (flushed m)).
    assert (Hbody : same_output_and_polls m1
              (final ((if key
                       then cell_write MR_KBSR (Z.shiftl 1 15) ;;
                            c <- getchar ;; cell_write MR_KBDR (u16 c)
                       else cell_write MR_KBSR 0) m1))).
    { generalize m1. 
      change (keeps same_output_and_polls
                (if key
                 then cell_write MR_KBSR (Z.shiftl 1 15) ;;
                      c <- getchar ;; cell_write MR_KBDR (u16 c)
                 else cell_write MR_KBSR 0)).
      destruct key;
        repeat first
          [ apply keeps_bind; [apply _ | | intros ?]
          | apply cell_write_same_output_and_polls
          | apply getchar_same_output_and_polls ]. }
    destruct Hbody as [Ho Hq]. unfold quiet. rewrite Ho, Hq, Hp. simpl.
    repeat split; lia.
Qed.

#[export] Hint Resolve mem_read_same_register mem_read_quiet : frame.

Lemma update_flags_quiet r : keeps quiet (update_flags r).
Proof. unfold update_flags. frame. Qed.

#[export] Hint Resolve update_flags_quiet : frame.

(** No handler of an opcode other than TRAP writes to the console, nor
    takes input other than through a keyboard poll. *)
Lemma handlers_quiet instr :
  keeps quiet (Op.add instr) /\ keeps quiet (Op.and instr) /\
  keeps quiet (Op.not instr) /\ keeps quiet (Op.br instr) /\
  keeps quiet (Op.jmp instr) /\ keeps quiet (Op.jsr instr) /\
  keeps quiet (Op.ld instr) /\ keeps quiet (Op.ldi instr) /\
  keeps quiet (Op.ldr instr) /\ keeps quiet (Op.lea instr) /\
  keeps quiet (Op.st instr) /\ keeps quiet (Op.sti instr) /\
  keeps quiet (Op.str instr).
Proof.
  unfold Op.add, Op.and, Op.not, Op.br, Op.jmp, Op.jsr, Op.ld, Op.ldi,
    Op.ldr, Op.lea, Op.st, Op.sti, Op.str, _mem_write.
  repeat apply conj; frame.
Qed.

(** The loops of PUTS and PUTSP keep whatever [putc] keeps. *)
Lemma puts_loop_keeps (R : machine -> machine -> Prop) `{!PreOrder R} c :
  (forall b, keeps R (putc b)) -> keeps R (puts_loop c).
Proof.
  intros Hputc. induction c as [| w c' IH]; simpl; frame.
Qed.

Lemma putsp_loop_keeps (R : machine -> machine -> Prop) `{!PreOrder R} c :
  (forall b, keeps R (putc b)) -> keeps R (putsp_loop c).
Proof.
  intros Hputc. induction c as [| w c' IH]; simpl; frame.
Qed.

(** A trap routine writes no register but R0, and no memory cell. *)
Lemma trap_same_register i instr :
  i <> Z.to_nat R0 -> keeps (same_register i) (trap instr).
Proof.
  intros Hi. unfold trap.
  assert (forall v, keeps (same_register i) (reg_write R0 v))
    by (intros v; apply reg_write_same_register; congruence).
  assert (forall c, keeps (same_register i) (puts_loop c))
    by (intros c; apply puts_loop_keeps; [apply _ | apply putc_same_register]).
  assert (forall c, keeps (same_register i) (putsp_loop c))
    by (intros c; apply putsp_loop_keeps; [apply _ | apply putc_same_register]).
  frame.
Qed.

Lemma trap_same_memory instr : keeps same_memory (trap instr).
Proof.
  unfold trap.
  assert (forall c, keeps same_memory (puts_loop c))
    by (intros c; apply puts_loop_keeps; [apply _ | apply putc_same_memory]).
  assert (forall c, keeps same_memory (putsp_loop c))
    by (intros c; apply putsp_loop_keeps; [apply _ | apply putc_same_memory]).
  frame.
Qed.

(** ** JSR *)

(** C6.  Every executed JSR instruction first sets R7 to the PC the
    fetch left; then, with bit 11 set, PC becomes that PC plus
    [sign_extend imm11 11] modulo 2^16 (the offset is added to PC), and
    with bit 11 clear PC becomes the register named by bits 8..6, read
    from the register file in which R7 is already set. *)
Theorem jsr_links_then_jumps m0 pc0 instr m :
  length (registers m0) = Z.to_nat COUNT ->
  registers m0 !! Z.to_nat PC = Some pc0 ->
  fetch m0 = Ok instr m ->
  Z.shiftr instr 12 = JSR ->
  let pc := u16 (pc0 + 1) in
  let imm11 := Z.land instr 0x7FF in
  let linked := <[Z.to_nat R7 := pc]> (registers m) in
  exists target,
    registers m !! Z.to_nat PC = Some pc /\
    (if Z.land (Z.shiftr instr 11) 1 =? 1
     then target = u16 (pc + sign_extend imm11 11)
     else linked !! Z.to_nat (Z.land (Z.shiftr instr 6) 0x7) = Some target) /\
    step m0 = Ok true (with_registers (<[Z.to_nat PC := target]> linked) m) /\
    <[Z.to_nat PC := target]> linked !! Z.to_nat R7 = Some pc /\
    <[Z.to_nat PC := target]> linked !! Z.to_nat PC = Some target.
Proof.
  intros Hlen Hpc0 Hfetch Hop pc imm11 linked.
  destruct (fetch_registers _ _ _ Hfetch) as (pc0' & Hpc0' & Hregs & _).
  assert (pc0' = pc0) as -> by congruence.
  assert (Hlen' : length (registers m) = Z.to_nat COUNT)
    by (rewrite Hregs, length_insert; exact Hlen).
  assert (Hpc : registers m !! Z.to_nat PC = Some pc).
  { rewrite Hregs. apply list_lookup_insert_eq. apply lookup_lt_Some in Hpc0. exact Hpc0. }
  assert (Hlinked : length linked = Z.to_nat COUNT)
    by (unfold linked; rewrite length_insert; exact Hlen').
  assert (Hpc' : linked !! Z.to_nat PC = Some pc)
    by (unfold linked; rewrite list_lookup_insert_ne; [exact Hpc | unfold R7, PC; lia]).
  pose proof (field3_range (Z.shiftr instr 6)) as Hr.
  destruct (lookup_lt_is_Some_2 linked (Z.to_nat (Z.land (Z.shiftr instr 6) 0x7)))
    as [a Ha]; [rewrite Hlinked; unfold COUNT; lia |].
  pose proof (bit_range (Z.shiftr instr 11)) as Hbit.
  set (target := if Z.land (Z.shiftr instr 11) 1 =? 1
                 then u16 (pc + sign_extend imm11 11) else a).
  exists target.
  assert (Hrun : Op.jsr instr m =
                 Ok tt (with_registers (<[Z.to_nat PC := target]> linked) m)).
  { unfold Op.jsr.
    rewrite (bind_ok _ _ _ _ _ (reg_read_some _ _ _ Hpc)).
    rewrite (bind_ok _ _ _ _ _ (reg_write_lt R7 pc m
               ltac:(rewrite Hlen'; unfold R7, COUNT; lia))).
    fold linked. unfold truthy, target.
    destruct Hbit as [-> | ->];
      [ change (negb (0 =? 0)) with false; change (0 =? 1) with false
      | change (negb (1 =? 0)) with true; change (1 =? 1) with true ];
      cbv iota.
    - rewrite (bind_ok _ _ _ _ _ (reg_read_some _ _ (with_registers linked m) Ha)).
      rewrite reg_write_lt by (simpl; rewrite Hlinked; unfold PC, COUNT; lia).
      reflexivity.
    - rewrite (bind_ok _ _ _ _ _ (reg_read_some _ _ (with_registers linked m) Hpc')).
      rewrite reg_write_lt by (simpl; rewrite Hlinked; unfold PC, COUNT; lia).
      reflexivity. }
  repeat apply conj.
  - exact Hpc.
  - unfold target. destruct Hbit as [-> | ->]; simpl; [exact Ha | reflexivity].
  - unfold step. rewrite (bind_ok _ _ _ _ _ Hfetch), (execute_JSR _ Hop).
    rewrite (bind_ok _ _ _ _ _ Hrun). reflexivity.
  - rewrite list_lookup_insert_ne by (unfold R7, PC; lia).
    unfold linked. apply list_lookup_insert_eq. rewrite Hlen'. unfold R7, COUNT. lia.
  - apply list_lookup_insert_eq. rewrite Hlinked. unfold PC, COUNT. lia.
Qed.

(** JSR +2 at 0x3000: R7 = 0x3001 and PC = 0x3003. *)
Lemma jsr_links_witness :
  exists m', step (sample [0x4802] []) = Ok true m' /\
             registers m' !! Z.to_nat R7 = Some 0x3001 /\
             registers m' !! Z.to_nat PC = Some 0x3003.
Proof.
  destruct (jsr_links_then_jumps (sample [0x4802] []) PC_START 0x4802
              (advance (sample [0x4802] [])))
    as (target & _ & Ht & Hstep & H7 & Hpc).
  - vm_compute. reflexivity.
  - vm_compute. reflexivity.
  - apply (fetch_run _ PC_START); [| discriminate |]; vm_compute; reflexivity.
  - reflexivity.
  - vm_compute in Ht. subst target.
    eexists. split; [exact Hstep |]. split; [exact H7 | exact Hpc].
Defined.

(** ** RES and RTI *)

(** The fetch writes nothing and flushes nothing. *)
#[export] Instance same_stream_preorder : PreOrder same_stream.
Proof.
  split.
  - intros m. split; reflexivity.
  - intros m1 m2 m3 [Ho Hf] [Ho' Hf']. split; congruence.
Qed.

Lemma fetch_same_stream : keeps same_stream fetch.
Proof.
  assert (forall r v, keeps same_stream (reg_write r v))
    by (intros r v m; unfold reg_write; destruct (decide _); split; reflexivity).
  assert (forall a v, keeps same_stream (cell_write a v))
    by (intros a v m; unfold cell_write; destruct (decide _); split; reflexivity).
  assert (keeps same_stream check_key)
    by (intros m; unfold check_key; destruct (polls m); split; reflexivity).
  assert (keeps same_stream getchar)
    by (intros m; unfold getchar; destruct (stdin m); split; reflexivity).
  unfold fetch, mem_read. frame.
Qed.

(** What was flushed stays a part of what was written, all along a run
    and in every machine [main] ends in. *)
#[export] Instance keeps_flushed_in_stream_preorder :
  PreOrder keeps_flushed_in_stream.
Proof.
  split.
  - intros m H. exact H.
  - intros m1 m2 m3 H12 H23 H. apply H23, H12, H.
Qed.

Lemma same_stream_flushed_in_stream {A : Type} (c : M A) :
  keeps same_stream c -> keeps keeps_flushed_in_stream c.
Proof.
  intros Hc m. specialize (Hc m). destruct Hc as [Ho Hf].
  unfold keeps_flushed_in_stream, flushed_in_stream. rewrite Ho, Hf. auto.
Qed.

Lemma written_flushed_in_stream out m :
  keeps_flushed_in_stream m (with_stdout (stdout m ++ out) m).
Proof.
  unfold keeps_flushed_in_stream, flushed_in_stream.
  cbn [stdout flushed with_stdout]. rewrite length_app. lia.
Qed.

Lemma step_flushed_in_stream : keeps keeps_flushed_in_stream step.
Proof.
  assert (forall r v, keeps keeps_flushed_in_stream (reg_write r v))
    by (intros r v m; unfold reg_write; destruct (decide _); intros Hkept; exact Hkept).
  assert (forall a v, keeps keeps_flushed_in_stream (cell_write a v))
    by (intros a v m; unfold cell_write; destruct (decide _); intros Hkept; exact Hkept).
  assert (keeps keeps_flushed_in_stream check_key)
    by (intros m; unfold check_key; destruct (polls m); intros Hkept; exact Hkept).
  assert (keeps keeps_flushed_in_stream getchar)
    by (intros m; unfold getchar; destruct (stdin m); intros Hkept; exact Hkept).
  assert (Hputc : forall c, keeps keeps_flushed_in_stream (putc c))
    by (intros c m; apply written_flushed_in_stream).
  assert (forall s, keeps keeps_flushed_in_stream (printf s))
    by (intros s m; apply written_flushed_in_stream).
  assert (forall s, keeps keeps_flushed_in_stream (puts s))
    by (intros s m; apply written_flushed_in_stream).
  assert (keeps keeps_flushed_in_stream fflush)
    by (intros m _; unfold flushed_in_stream; simpl; lia).
  assert (forall c, keeps keeps_flushed_in_stream (puts_loop c))
    by (intros c; apply puts_loop_keeps; [apply _ | exact Hputc]).
  assert (forall c, keeps keeps_flushed_in_stream (putsp_loop c))
    by (intros c; apply putsp_loop_keeps; [apply _ | exact Hputc]).
  assert (Hread : forall a, keeps keeps_flushed_in_stream (mem_read a))
    by (intros a; unfold mem_read; frame).
  assert (Hflags : forall r, keeps keeps_flushed_in_stream (update_flags r))
    by (intros r; unfold update_flags; frame).
  unfold step, fetch, execute, trap, Op.add, Op.and, Op.not, Op.br, Op.jmp,
    Op.jsr, Op.ld, Op.ldi, Op.ldr, Op.lea, Op.st, Op.sti, Op.str, _mem_write.
  frame.
Qed.

Lemma run_flushed_in_stream fuel : forall m,
  flushed_in_stream m -> flushed_in_stream (last (run fuel m)).
Proof.
  induction fuel as [| fuel IH]; intros m Hm; [exact Hm |].
  cbn [run]. pose proof (step_flushed_in_stream m Hm) as Hstep.
  destruct (step m) as [[|] m' | m' | m']; cbn [final last] in *;
    [apply IH; exact Hstep | exact Hstep .. ].
Qed.

Lemma main_flushed_in_stream argv fs input keys fuel :
  flushed_in_stream (last (main argv fs input keys fuel)).
Proof.
  unfold main.
  destruct (Z.of_nat (length argv) <? 2);
    [unfold flushed_in_stream; cbn [last flushed]; lia |].
  destruct (load_images fs argv zero_memory) as [mem [path |]].
  - unfold flushed_in_stream. cbn [last flushed]. lia.
  - apply run_flushed_in_stream. unfold flushed_in_stream, boot.
    cbn [flushed stdout length]. lia.
Qed.

(** A stream whose last byte is a newline ends a line there. *)
Lemma line_end_newline out : line_end (out ++ [10]) = length (out ++ [10]).
Proof.
  induction out as [| c out IH]; [reflexivity |].
  cbn [app line_end length]. rewrite IH, length_app. cbn [length].
  replace (length out + 1)%nat with (S (length out)) by lia. reflexivity.
Qed.

Lemma diagnostic_ends_line :
  diagnostic = bytes_of_string "Aborting..." ++ [10].
Proof. reflexivity. Qed.

(** C7.  Every fetched instruction whose opcode field is RES or RTI ends
    the run in [abort()]: whatever fuel the run has, nothing is executed
    after it, and the exit status is not zero.  The diagnostic is written
    to [stdout] before [abort()] and is not flushed.  On a line-buffered
    stream its newline hands it to the host, with all that was written
    before it.  On a fully buffered stream, whose buffer holds what was
    left unflushed, the host has received what was flushed before the
    instruction and nothing more: the diagnostic is lost. *)
Theorem illegal_opcode_aborts m0 instr m :
  fetch m0 = Ok instr m ->
  Z.shiftr instr 12 = RES \/ Z.shiftr instr 12 = RTI ->
  flushed_in_stream m0 ->
  let dead :=
    with_stdout (stdout m ++ bytes_of_string (String.append "Aborting..." nl)) m in
  step m0 = Aborted dead /\
  stdout dead = stdout m0 ++ diagnostic /\
  flushed dead = flushed m0 /\
  forall fuel,
    run (S fuel) m0 = Crashed dead /\
    (exists code, exit_status (run (S fuel) m0) = Some code /\ code <> 0) /\
    transmitted line_buffered (run (S fuel) m0) = Some (stdout m0 ++ diagnostic) /\
    (forall size,
       (length (stdout m0) - flushed m0 + length diagnostic <= size)%nat ->
       transmitted (fully_buffered size) (run (S fuel) m0)
         = Some (take (flushed m0) (stdout m0))).
Proof.
  intros Hfetch Hop Hinv dead.
  assert (Hstep : step m0 = Aborted dead).
  { unfold step. rewrite (bind_ok _ _ _ _ _ Hfetch), (execute_illegal _ Hop).
    reflexivity. }
  pose proof (fetch_same_stream m0) as Hsame. rewrite Hfetch in Hsame.
  destruct Hsame as [Hout Hflushed]. cbn [final] in Hout, Hflushed.
  assert (Hdead : stdout dead = stdout m0 ++ diagnostic)
    by (unfold dead, diagnostic; cbn [stdout with_stdout]; rewrite Hout; reflexivity).
  assert (Hsent : flushed dead = flushed m0)
    by (unfold dead; cbn [flushed with_stdout]; exact Hflushed).
  split; [exact Hstep |]. split; [exact Hdead |]. split; [exact Hsent |].
  intros fuel.
  assert (Hrun : run (S fuel) m0 = Crashed dead) by (simpl; rewrite Hstep; reflexivity).
  rewrite Hrun. split; [reflexivity |]. split; [| split].
  - exists 134. split; [reflexivity | lia].
  - cbn [transmitted]. rewrite Hdead. f_equal. apply take_ge.
    rewrite diagnostic_ends_line, app_assoc, line_end_newline. lia.
  - intros size Hsize. cbn [transmitted]. rewrite Hdead, Hsent, length_app.
    destruct (Nat.leb_spec (length (stdout m0) + length diagnostic - flushed m0) size)
      as [_ | Hgt]; [| lia].
    f_equal. apply take_app_le. exact Hinv.
Qed.

(** RES at 0x3000, the only instruction of the run: a run of a hundred
    turns ends in [abort()] at the first; a host that reads the output
    through a pipe receives nothing, one at a terminal the diagnostic. *)
Lemma illegal_opcode_witness :
  let m0 := sample [0xD000] [] in
  run 100 m0 = Crashed (with_stdout (stdout (advance m0) ++ diagnostic) (advance m0)) /\
  exit_status (run 100 m0) = Some 134 /\
  transmitted (fully_buffered 4096) (run 100 m0) = Some [] /\
  transmitted line_buffered (run 100 m0) = Some diagnostic.
Proof.
  intros m0.
  destruct (illegal_opcode_aborts m0 0xD000 (advance m0)) as (_ & _ & _ & Hrun).
  - apply (fetch_run _ PC_START); [| discriminate |]; vm_compute; reflexivity.
  - left. reflexivity.
  - unfold flushed_in_stream. cbn. lia.
  - destruct (Hrun 99%nat) as (Hcrash & _ & Hline & Hfull).
    split; [exact Hcrash |]. split; [rewrite Hcrash; reflexivity |].
    split; [| exact Hline].
    apply (Hfull 4096%nat). cbn. lia.
Defined.

(** ** No handler aborts *)

Lemma never_aborts_bind {A B : Type} (c : M A) (k : A -> M B) :
  never_aborts c -> (forall a, never_aborts (k a)) -> never_aborts (bind c k).
Proof.
  intros Hc Hk m m'. unfold bind.
  destruct (c m) as [a m1 | m1 | m1] eqn:E.
  - apply Hk.
  - discriminate.
  - exfalso. exact (Hc m m1 E).
Qed.

Lemma never_aborts_ret {A : Type} (a : A) : never_aborts (ret a).
Proof. intros m m'. discriminate. Qed.

Lemma never_aborts_reg_read r : never_aborts (reg_read r).
Proof. intros m m'. unfold reg_read. destruct (_ !! _); discriminate. Qed.

Lemma never_aborts_reg_write r v : never_aborts (reg_write r v).
Proof. intros m m'. unfold reg_write. destruct (decide _); discriminate. Qed.

Lemma never_aborts_cell_read a : never_aborts (cell_read a).
Proof. intros m m'. unfold cell_read. destruct (_ !! _); discriminate. Qed.

Lemma never_aborts_cell_write a v : never_aborts (cell_write a v).
Proof. intros m m'. unfold cell_write. destruct (decide _); discriminate. Qed.

Lemma never_aborts_getchar : never_aborts getchar.
Proof. intros m m'. unfold getchar. destruct (stdin m); discriminate. Qed.

Lemma never_aborts_check_key : never_aborts check_key.
Proof. intros m m'. unfold check_key. destruct (polls m); discriminate. Qed.

Create HintDb total discriminated.

#[export] Hint Resolve never_aborts_ret never_aborts_reg_read never_aborts_reg_write
  never_aborts_cell_read never_aborts_cell_write never_aborts_getchar
  never_aborts_check_key : total.

Ltac total_step :=
  match goal with
  | |- forall _, _ => intro
  | |- never_aborts (bind _ _) => apply never_aborts_bind
  | |- never_aborts (if ?b then _ else _) => destruct b
  | |- never_aborts _ => solve [ eauto with total ]
  end.

Ltac total := repeat total_step.

Lemma never_aborts_mem_read a : never_aborts (mem_read a).
Proof. unfold mem_read. total. Qed.

Lemma never_aborts_update_flags r : never_aborts (update_flags r).
Proof. unfold update_flags. total. Qed.

#[export] Hint Resolve never_aborts_mem_read never_aborts_update_flags : total.

Lemma handlers_never_abort instr :
  never_aborts (Op.add instr) /\ never_aborts (Op.and instr) /\
  never_aborts (Op.not instr) /\ never_aborts (Op.br instr) /\
  never_aborts (Op.jmp instr) /\ never_aborts (Op.jsr instr) /\
  never_aborts (Op.ld instr) /\ never_aborts (Op.ldi instr) /\
  never_aborts (Op.ldr instr) /\ never_aborts (Op.lea instr) /\
  never_aborts (Op.st instr) /\ never_aborts (Op.sti instr) /\
  never_aborts (Op.str instr).
Proof.
  unfold Op.add, Op.and, Op.not, Op.br, Op.jmp, Op.jsr, Op.ld, Op.ldi,
    Op.ldr, Op.lea, Op.st, Op.sti, Op.str, _mem_write.
  repeat apply conj; total.
Qed.

(** ** TRAP *)

(** The result of a handler followed by [break]: the loop goes on. *)
Lemma handler_then_running (c : M unit) m :
  keeps quiet c -> never_aborts c ->
  match (c ;; ret true) m with
  | Ok running m' => running = true /\ quiet m m'
  | Undefined m' => quiet m m'
  | Aborted m' => m' = with_stdout (stdout m ++ diagnostic) m
  end.
Proof.
  intros Hq Ha. unfold bind. specialize (Hq m). specialize (Ha m).
  destruct (c m) as [u m1 | m1 | m1]; simpl in *.
  - split; [reflexivity | exact Hq].
  - exact Hq.
  - exfalso. exact (Ha m1 eq_refl).
Qed.

(** C3, as the code has it.  An executed TRAP instruction runs the
    routine selected by its bits 7..0 and nothing else: R7 keeps the value
    it had (the PC is not saved in it), as do PC, every register other
    than R0, and the memory.  The routines run only under the opcode TRAP:
    an instruction with another opcode, whatever its low byte, never stops
    the loop, writes nothing to the console (the diagnostic of RES and RTI
    apart, which ends the run) and takes no input other than through a
    keyboard poll. *)
Theorem trap_routines_only_under_TRAP instr m :
  (Z.shiftr instr 12 = TRAP ->
     execute instr m = trap instr m /\
     (forall i, i <> Z.to_nat R0 ->
        registers (final (execute instr m)) !! i = registers m !! i) /\
     memory (final (execute instr m)) = memory m) /\
  (Z.shiftr instr 12 <> TRAP ->
     match execute instr m with
     | Ok running m' => running = true /\ quiet m m'
     | Undefined m' => quiet m m'
     | Aborted m' => m' = with_stdout (stdout m ++ diagnostic) m
     end).
Proof.
  split.
  - intros Hop. rewrite (execute_TRAP _ Hop). repeat apply conj.
    + reflexivity.
    + intros i Hi. exact (trap_same_register i instr Hi m).
    + exact (trap_same_memory instr m).
  - intros Hop. unfold execute.
    destruct (handlers_quiet instr)
      as (Q1 & Q2 & Q3 & Q4 & Q5 & Q6 & Q7 & Q8 & Q9 & Q10 & Q11 & Q12 & Q13).
    destruct (handlers_never_abort instr)
      as (A1 & A2 & A3 & A4 & A5 & A6 & A7 & A8 & A9 & A10 & A11 & A12 & A13).
    repeat match goal with
           | |- context [if ?op =? ?X then _ else _] =>
               destruct (Z.eqb_spec op X);
               [ first [ apply handler_then_running; assumption
                       | contradiction ] |]
           end.
    reflexivity.
Qed.

(** TRAP OUT leaves R7 alone; ADD R0,R0,#5, whose low byte is the vector
    of HALT, neither stops the loop nor touches the console. *)
Lemma trap_routines_witness :
  (forall i, i <> Z.to_nat R0 ->
     registers (final (execute 0xF021 (advance (sample [0xF021] [])))) !! i
     = registers (advance (sample [0xF021] [])) !! i) /\
  match execute 0x1025 (advance (sample [0x1025] [])) with
  | Ok running m' => running = true /\ quiet (advance (sample [0x1025] [])) m'
  | Undefined m' => quiet (advance (sample [0x1025] [])) m'
  | Aborted m' =>
      m' = with_stdout (stdout (advance (sample [0x1025] [])) ++ diagnostic)
             (advance (sample [0x1025] []))
  end.
Proof.
  split.
  - apply (trap_routines_only_under_TRAP 0xF021 (advance (sample [0xF021] []))).
    reflexivity.
  - apply (trap_routines_only_under_TRAP 0x1025 (advance (sample [0x1025] []))).
    vm_compute. discriminate.
Defined.

(** C3 as stated fails: TRAP OUT at 0x3000 leaves R7 at 0 while the PC
    after the fetch is 0x3001. *)
Lemma trap_does_not_save_pc :
  match step (sample [0xF021] []) with
  | Ok true m' =>
      registers m' !! Z.to_nat PC = Some 0x3001 /\
      registers m' !! Z.to_nat R7 = Some 0 /\
      registers m' !! Z.to_nat R7 <> registers m' !! Z.to_nat PC
  | _ => False
  end.
Proof. vm_compute. repeat split; discriminate. Qed.

(** ** Flags *)

(** On a 16-bit value, the test [v >> 15] of [update_flags] is the test
    of bit 15. *)
Lemma shift15_is_bit15 v : word v -> truthy (Z.shiftr v 15) = Z.testbit v 15.
Proof.
  unfold word, truthy. intros Hv.
  rewrite Z.testbit_odd, Z.shiftr_div_pow2 by lia.
  change (2 ^ 15) with 32768.
  assert (H : v / 32768 = 0 \/ v / 32768 = 1).
  { assert (0 <= v / 32768 < 2); [| lia].
    split; [apply Z.div_pos; lia | apply Z.div_lt_upper_bound; lia]. }
  destruct H as [-> | ->]; reflexivity.
Qed.

Lemma flag_values : FL_POS = 1 /\ FL_ZRO = 2 /\ FL_NEG = 4.
Proof. repeat split. Qed.

(** [update_flags r] on a machine whose register [r] holds [v]. *)
Lemma update_flags_run r v m :
  length (registers m) = Z.to_nat COUNT ->
  registers m !! Z.to_nat r = Some v ->
  word v ->
  update_flags r m =
    Ok tt (with_registers (<[Z.to_nat COND := flag_of v]> (registers m)) m).
Proof.
  intros Hlen Hr Hv. unfold update_flags, flag_of.
  assert (Hw : forall x, reg_write COND x m =
                 Ok tt (with_registers (<[Z.to_nat COND := x]> (registers m)) m))
    by (intros x; apply reg_write_lt; rewrite Hlen; unfold COND, COUNT; lia).
  rewrite (bind_ok _ _ _ _ _ (reg_read_some _ _ _ Hr)).
  destruct (v =? 0); [apply Hw |].
  rewrite (bind_ok _ _ _ _ _ (reg_read_some _ _ _ Hr)).
  rewrite (shift15_is_bit15 v Hv).
  destruct (Z.testbit v 15); apply Hw.
Qed.

(** A result [x] written to [dr], one of R0..R7, and the flags set from it. *)
Lemma write_result_run dr x m :
  length (registers m) = Z.to_nat COUNT ->
  0 <= dr < 8 ->
  word x ->
  (reg_write dr x ;; update_flags dr) m =
    Ok tt (with_registers
             (<[Z.to_nat COND := flag_of x]> (<[Z.to_nat dr := x]> (registers m))) m).
Proof.
  intros Hlen Hdr Hx.
  assert (Hlt : (Z.to_nat dr < length (registers m))%nat)
    by (rewrite Hlen; unfold COUNT; lia).
  rewrite (bind_ok _ _ _ _ _ (reg_write_lt dr x m Hlt)).
  rewrite (update_flags_run dr x); simpl.
  - reflexivity.
  - rewrite length_insert. exact Hlen.
  - apply list_lookup_insert_eq. exact Hlt.
  - exact Hx.
Qed.

(** After a result and its flags, COND is the flag of what [dr] holds. *)
Lemma result_and_flag dr x (regs : list Z) :
  length regs = Z.to_nat COUNT ->
  0 <= dr < 8 ->
  let regs' := <[Z.to_nat COND := flag_of x]> (<[Z.to_nat dr := x]> regs) in
  regs' !! Z.to_nat dr = Some x /\ regs' !! Z.to_nat COND = Some (flag_of x).
Proof.
  intros Hlen Hdr regs'. unfold regs'. split.
  - rewrite list_lookup_insert_ne by (unfold COND; lia).
    apply list_lookup_insert_eq. rewrite Hlen. unfold COUNT. lia.
  - apply list_lookup_insert_eq. rewrite length_insert, Hlen. unfold COND, COUNT. lia.
Qed.

(** What [mem_read] delivers, and the memory it leaves, are 16-bit values. *)
Lemma mem_read_words a v m m' :
  Forall word (memory m) ->
  mem_read a m = Ok v m' ->
  word v /\ Forall word (memory m').
Proof.
  unfold mem_read. intros Hmem H.
  apply bind_inv in H as (u & m1 & H1 & H2).
  apply cell_read_inv in H2 as [-> Hv].
  assert (Hm1 : Forall word (memory m1)).
  { destruct (a =? MR_KBSR).
    - apply bind_inv in H1 as (key & m2 & Hk & H1).
      assert (Em : memory m2 = memory m)
        by (unfold check_key in Hk; destruct (polls m); inversion Hk; subst; auto).
      destruct key.
      + apply bind_inv in H1 as (u1 & m3 & Hw & H1).
        apply cell_write_inv in Hw as [_ ->].
        apply bind_inv in H1 as (c & m4 & Hg & H1).
        apply cell_write_inv in H1 as [_ ->].
        assert (Em4 : memory m4 = <[Z.to_nat MR_KBSR := Z.shiftl 1 15]> (memory m2))
          by (unfold getchar in Hg; simpl in Hg; destruct (stdin m2);
              inversion Hg; subst; reflexivity).
        simpl. rewrite Em4, Em.
        apply Forall_insert; [| apply u16_word].
        apply Forall_insert;
          [exact Hmem | unfold word; change (Z.shiftl 1 15) with 32768; lia].
      + apply cell_write_inv in H1 as [_ ->]. simpl. rewrite Em.
        apply Forall_insert; [exact Hmem | unfold word; lia].
    - inversion H1; subst. exact Hmem. }
  split; [| exact Hm1].
  rewrite Forall_lookup in Hm1. exact (Hm1 _ _ Hv).
Qed.

(** The flags set from a register that was just written. *)
Lemma flags_after_write dr x m :
  length (registers m) = Z.to_nat COUNT ->
  0 <= dr < 8 ->
  word x ->
  update_flags dr (with_registers (<[Z.to_nat dr := x]> (registers m)) m) =
    Ok tt (with_registers
             (<[Z.to_nat COND := flag_of x]> (<[Z.to_nat dr := x]> (registers m))) m).
Proof.
  intros Hlen Hdr Hx.
  rewrite (update_flags_run dr x); simpl.
  - reflexivity.
  - rewrite length_insert. exact Hlen.
  - apply list_lookup_insert_eq. rewrite Hlen. unfold COUNT. lia.
  - exact Hx.
Qed.

(** ADD, AND, NOT and LEA: the machine they leave. *)
Section Arithmetic.
Variables (instr : Z) (m : machine).
Hypothesis Hlen : length (registers m) = Z.to_nat COUNT.

Lemma write_lt x :
  reg_write (field_DR instr) x m = Ok tt (with_registers (<[Z.to_nat (field_DR instr) := x]> (registers m)) m).
Proof.
  apply reg_write_lt. rewrite Hlen.
  pose proof (field3_range (Z.shiftr instr 9)). unfold field_DR, COUNT. lia.
Qed.

Lemma add_run a b :
  registers m !! Z.to_nat (field_SR1 instr) = Some a ->
  registers m !! Z.to_nat (field_SR2 instr) = Some b ->
  Op.add instr m = Ok tt (written instr m (add_result instr a b)).
Proof.
  intros Ha Hb. unfold Op.add, add_result. fold (field_DR instr) (field_SR1 instr) (field_SR2 instr).
  destruct (truthy (Z.land (Z.shiftr instr 5) 0x1)).
  - erewrite bind_ok.
    2: { rewrite (bind_ok _ _ _ _ _ (reg_read_some _ _ _ Ha)). apply write_lt. }
    apply flags_after_write; [exact Hlen | apply field3_range | apply u16_word].
  - erewrite bind_ok.
    2: { rewrite (bind_ok _ _ _ _ _ (reg_read_some _ _ _ Ha)).
         rewrite (bind_ok _ _ _ _ _ (reg_read_some _ _ _ Hb)). apply write_lt. }
    apply flags_after_write; [exact Hlen | apply field3_range | apply u16_word].
Qed.

Lemma and_run a b :
  word a -> word b ->
  registers m !! Z.to_nat (field_SR1 instr) = Some a ->
  registers m !! Z.to_nat (field_SR2 instr) = Some b ->
  Op.and instr m = Ok tt (written instr m (and_result instr a b)).
Proof.
  intros Wa Wb Ha Hb. unfold Op.and, and_result. fold (field_DR instr) (field_SR1 instr) (field_SR2 instr).
  destruct (truthy (Z.land (Z.shiftr instr 5) 0x1)).
  - erewrite bind_ok.
    2: { rewrite (bind_ok _ _ _ _ _ (reg_read_some _ _ _ Ha)). apply write_lt. }
    apply flags_after_write; [exact Hlen | apply field3_range |].
    apply land_word; [exact Wa |].
    pose proof (Z.mod_pos_bound instr 32 ltac:(lia)).
    assert (E : Z.land instr 0x1F = instr mod 32) by (apply (land_ones_mod instr 5); lia).
    rewrite E. unfold word. lia.
  - erewrite bind_ok.
    2: { rewrite (bind_ok _ _ _ _ _ (reg_read_some _ _ _ Ha)).
         rewrite (bind_ok _ _ _ _ _ (reg_read_some _ _ _ Hb)). apply write_lt. }
    apply flags_after_write; [exact Hlen | apply field3_range |].
    apply land_word; assumption.
Qed.

Lemma not_run a :
  registers m !! Z.to_nat (field_SR1 instr) = Some a ->
  Op.not instr m = Ok tt (written instr m (u16 (Z.lnot a))).
Proof.
  intros Ha. unfold Op.not. fold (field_DR instr) (field_SR1 instr).
  rewrite (bind_ok _ _ _ _ _ (reg_read_some _ _ _ Ha)).
  apply write_result_run; [exact Hlen | apply field3_range | apply u16_word].
Qed.

Lemma lea_run pc :
  registers m !! Z.to_nat PC = Some pc ->
  Op.lea instr m =
    Ok tt (written instr m (u16 (pc + sign_extend (Z.land instr 0x1FF) 9))).
Proof.
  intros Hpc. unfold Op.lea. fold (field_DR instr).
  rewrite (bind_ok _ _ _ _ _ (reg_read_some _ _ _ Hpc)).
  apply write_result_run; [exact Hlen | apply field3_range | apply u16_word].
Qed.

(** In the machine these four leave, COND is the flag of what DR holds. *)
Lemma written_flag x :
  registers (written instr m x) !! Z.to_nat (field_DR instr) = Some x /\
  registers (written instr m x) !! Z.to_nat COND = Some (flag_of x).
Proof. apply result_and_flag; [exact Hlen | apply field3_range]. Qed.
End Arithmetic.

(** The loads: when they deliver, DR holds the word read and COND its flag. *)
Lemma load_tail dr v m u m' :
  length (registers m) = Z.to_nat COUNT ->
  0 <= dr < 8 ->
  word v ->
  (reg_write dr v ;; update_flags dr) m = Ok u m' ->
  registers m' !! Z.to_nat dr = Some v /\
  registers m' !! Z.to_nat COND = Some (flag_of v).
Proof.
  intros Hlen Hdr Hv H.
  rewrite (write_result_run dr v m Hlen Hdr Hv) in H.
  inversion H; subst. simpl. apply result_and_flag; assumption.
Qed.

Lemma ld_flag instr m u m' :
  length (registers m) = Z.to_nat COUNT ->
  Forall word (memory m) ->
  Op.ld instr m = Ok u m' ->
  exists v, registers m' !! Z.to_nat (Z.land (Z.shiftr instr 9) 0x7) = Some v /\
            registers m' !! Z.to_nat COND = Some (flag_of v).
Proof.
  intros Hlen Hmem H. unfold Op.ld in H.
  apply bind_inv in H as (pc & m1 & H1 & H). apply reg_read_inv in H1 as [-> _].
  apply bind_inv in H as (v & m2 & H2 & H).
  destruct (mem_read_frame _ _ _ _ H2) as (Er & _).
  destruct (mem_read_words _ _ _ _ Hmem H2) as [Hv _].
  exists v. apply (load_tail _ _ m2 u m'); auto.
  - rewrite Er. exact Hlen.
  - apply field3_range.
Qed.

Lemma ldi_flag instr m u m' :
  length (registers m) = Z.to_nat COUNT ->
  Forall word (memory m) ->
  Op.ldi instr m = Ok u m' ->
  exists v, registers m' !! Z.to_nat (Z.land (Z.shiftr instr 9) 0x7) = Some v /\
            registers m' !! Z.to_nat COND = Some (flag_of v).
Proof.
  intros Hlen Hmem H. unfold Op.ldi in H.
  apply bind_inv in H as (pc & m1 & H1 & H). apply reg_read_inv in H1 as [-> _].
  apply bind_inv in H as (a & m2 & H2 & H).
  destruct (mem_read_frame _ _ _ _ H2) as (Er & _).
  destruct (mem_read_words _ _ _ _ Hmem H2) as [_ Hmem2].
  apply bind_inv in H as (v & m3 & H3 & H).
  destruct (mem_read_frame _ _ _ _ H3) as (Er3 & _).
  destruct (mem_read_words _ _ _ _ Hmem2 H3) as [Hv _].
  exists v. apply (load_tail _ _ m3 u m'); auto.
  - rewrite Er3, Er. exact Hlen.
  - apply field3_range.
Qed.

Lemma ldr_flag instr m u m' :
  length (registers m) = Z.to_nat COUNT ->
  Forall word (memory m) ->
  Op.ldr instr m = Ok u m' ->
  exists v, registers m' !! Z.to_nat (Z.land (Z.shiftr instr 9) 0x7) = Some v /\
            registers m' !! Z.to_nat COND = Some (flag_of v).
Proof.
  intros Hlen Hmem H. unfold Op.ldr in H.
  apply bind_inv in H as (b & m1 & H1 & H). apply reg_read_inv in H1 as [-> _].
  apply bind_inv in H as (v & m2 & H2 & H).
  destruct (mem_read_frame _ _ _ _ H2) as (Er & _).
  destruct (mem_read_words _ _ _ _ Hmem H2) as [Hv _].
  exists v. apply (load_tail _ _ m2 u m'); auto.
  - rewrite Er. exact Hlen.
  - apply field3_range.
Qed.

(** A register of a well-formed machine holds a 16-bit value. *)
Lemma wf_register m r :
  wf m -> 0 <= r < COUNT ->
  exists v, registers m !! Z.to_nat r = Some v /\ word v.
Proof.
  intros [_ Hlen _ Hregs] Hr.
  destruct (register_lookup m r Hlen Hr) as [v Hv].
  exists v. split; [exact Hv |].
  rewrite Forall_lookup in Hregs. exact (Hregs _ _ Hv).
Qed.

(** C2.  On a machine whose arrays hold 16-bit values: for every register
    index [r] in [0,9], [update_flags r] sets COND to ZRO (0b010) when
    [registers[r]] is zero, to NEG (0b100) when its bit 15 is set and to
    POS (0b001) otherwise, [registers[r]] being read as the call starts;
    consequently, after each of ADD, AND, NOT, LD, LDI, LDR and LEA, COND
    is the flag of the value the destination register holds then; and
    ADD, AND, NOT and LEA always deliver such a result. *)
Theorem flags_match_written_register m :
  wf m ->
  (FL_POS = 1 /\ FL_ZRO = 2 /\ FL_NEG = 4) /\
  (forall r, 0 <= r <= 9 ->
     exists v,
       registers m !! Z.to_nat r = Some v /\
       update_flags r m =
         Ok tt (with_registers (<[Z.to_nat COND := flag_of v]> (registers m)) m) /\
       <[Z.to_nat COND := flag_of v]> (registers m) !! Z.to_nat COND
         = Some (if v =? 0 then FL_ZRO
                 else if Z.testbit v 15 then FL_NEG else FL_POS)) /\
  (forall instr running m',
     writes_result (Z.shiftr instr 12) = true ->
     execute instr m = Ok running m' ->
     exists v,
       registers m' !! Z.to_nat (Z.land (Z.shiftr instr 9) 0x7) = Some v /\
       registers m' !! Z.to_nat COND = Some (flag_of v)) /\
  (forall instr,
     let op := Z.shiftr instr 12 in
     op = ADD \/ op = AND \/ op = NOT \/ op = LEA ->
     exists m', execute instr m = Ok true m').
Proof.
  intros Hwf. pose proof Hwf as [_ Hlen Hmem Hregs].
  assert (Hreg : forall r, 0 <= r < COUNT ->
            exists v, registers m !! Z.to_nat r = Some v /\ word v)
    by (intros r Hr; apply wf_register; assumption).
  assert (Hfield : forall a, 0 <= Z.land a 0x7 < COUNT)
    by (intros a; pose proof (field3_range a); unfold COUNT; lia).
  split; [exact flag_values |]. split; [| split].
  - intros r Hr.
    destruct (Hreg r) as (v & Hv & Wv); [unfold COUNT; lia |].
    exists v. repeat apply conj.
    + exact Hv.
    + apply update_flags_run; assumption.
    + apply list_lookup_insert_eq. rewrite Hlen. unfold COND, COUNT. lia.
  - intros instr running m' Hop H.
    destruct (Hreg (Z.land (Z.shiftr instr 6) 0x7) (Hfield _)) as (a & Ha & Wa).
    destruct (Hreg (Z.land instr 0x7) (Hfield _)) as (b & Hb & Wb).
    destruct (Hreg PC) as (pc & Hpc & _); [unfold PC, COUNT; lia |].
    unfold writes_result in Hop.
    repeat (apply orb_prop in Hop as [Hop | Hop]); apply Z.eqb_eq in Hop.
    + rewrite (execute_ADD _ Hop),
        (bind_ok _ _ _ _ _ (add_run instr m Hlen a b Ha Hb)) in H.
      inversion H; subst. eexists. apply written_flag. exact Hlen.
    + rewrite (execute_AND _ Hop),
        (bind_ok _ _ _ _ _ (and_run instr m Hlen a b Wa Wb Ha Hb)) in H.
      inversion H; subst. eexists. apply written_flag. exact Hlen.
    + rewrite (execute_NOT _ Hop),
        (bind_ok _ _ _ _ _ (not_run instr m Hlen a Ha)) in H.
      inversion H; subst. eexists. apply written_flag. exact Hlen.
    + rewrite (execute_LD _ Hop) in H.
      apply bind_inv in H as (u & m1 & H1 & H). inversion H; subst.
      exact (ld_flag _ _ _ _ Hlen Hmem H1).
    + rewrite (execute_LDI _ Hop) in H.
      apply bind_inv in H as (u & m1 & H1 & H). inversion H; subst.
      exact (ldi_flag _ _ _ _ Hlen Hmem H1).
    + rewrite (execute_LDR _ Hop) in H.
      apply bind_inv in H as (u & m1 & H1 & H). inversion H; subst.
      exact (ldr_flag _ _ _ _ Hlen Hmem H1).
    + rewrite (execute_LEA _ Hop),
        (bind_ok _ _ _ _ _ (lea_run instr m Hlen pc Hpc)) in H.
      inversion H; subst. eexists. apply written_flag. exact Hlen.
  - intros instr op Hop.
    destruct (Hreg (Z.land (Z.shiftr instr 6) 0x7) (Hfield _)) as (a & Ha & Wa).
    destruct (Hreg (Z.land instr 0x7) (Hfield _)) as (b & Hb & Wb).
    destruct (Hreg PC) as (pc & Hpc & _); [unfold PC, COUNT; lia |].
    destruct Hop as [Hop | [Hop | [Hop | Hop]]]; eexists.
    + rewrite (execute_ADD _ Hop),
        (bind_ok _ _ _ _ _ (add_run instr m Hlen a b Ha Hb)). reflexivity.
    + rewrite (execute_AND _ Hop),
        (bind_ok _ _ _ _ _ (and_run instr m Hlen a b Wa Wb Ha Hb)). reflexivity.
    + rewrite (execute_NOT _ Hop),
        (bind_ok _ _ _ _ _ (not_run instr m Hlen a Ha)). reflexivity.
    + rewrite (execute_LEA _ Hop),
        (bind_ok _ _ _ _ _ (lea_run instr m Hlen pc Hpc)). reflexivity.
Qed.

(** ADD R1,R1,#-1 on a sample machine: the result is delivered and COND
    is the flag of what R1 holds. *)
Lemma flags_match_witness :
  exists m' v,
    execute 0x127F (sample [0x127F] []) = Ok true m' /\
    registers m' !! Z.to_nat R1 = Some v /\
    registers m' !! Z.to_nat COND = Some (flag_of v).
Proof.
  destruct (flags_match_written_register (sample [0x127F] []))
    as (_ & _ & Hflag & Htotal).
  - apply sample_wf; repeat constructor; unfold word; lia.
  - destruct (Htotal 0x127F) as [m' Hm']; [left; reflexivity |].
    destruct (Hflag 0x127F true m' eq_refl Hm') as (v & Hv & Hc).
    exists m', v. repeat split; assumption.
Defined.

(** ** The bounds of the memory *)

Lemma cell_write_lt a v m :
  (Z.to_nat a < length (memory m))%nat ->
  cell_write a v m = Ok tt (with_memory (<[Z.to_nat a := v]> (memory m)) m).
Proof. unfold cell_write. intros H. rewrite decide_True by exact H. reflexivity. Qed.

Lemma cell_read_lt a m :
  (Z.to_nat a < length (memory m))%nat -> exists w, cell_read a m = Ok w m.
Proof.
  intros H. destruct (lookup_lt_is_Some_2 _ _ H) as [w Hw].
  exists w. unfold cell_read. rewrite Hw. reflexivity.
Qed.

Lemma check_key_run m :
  exists key m1, check_key m = Ok key m1 /\ memory m1 = memory m.
Proof.
  unfold check_key. destruct (polls m) as [| key rest]; eexists _, _; split; reflexivity.
Qed.

Lemma getchar_run m :
  exists c m1, getchar m = Ok c m1 /\ memory m1 = memory m.
Proof.
  unfold getchar. destruct (stdin m) as [| c rest]; eexists _, _; split; reflexivity.
Qed.

(** The keyboard registers lie inside the array. *)
Lemma keyboard_registers_in_bounds :
  (Z.to_nat MR_KBSR < Z.to_nat UINT16_MAX)%nat /\
  (Z.to_nat MR_KBDR < Z.to_nat UINT16_MAX)%nat.
Proof. unfold MR_KBSR, MR_KBDR, UINT16_MAX. lia. Qed.

(** Every address below 0xFFFF is read inside the array. *)
Lemma mem_read_in_bounds a m :
  length (memory m) = Z.to_nat UINT16_MAX ->
  0 <= a < UINT16_MAX ->
  exists w m', mem_read a m = Ok w m'.
Proof.
  intros Hlen Ha. destruct keyboard_registers_in_bounds as [Hsr Hdr].
  assert (Hpre : exists m1,
            (if a =? MR_KBSR then
               key <- check_key ;;
               if key then
                 cell_write MR_KBSR (Z.shiftl 1 15) ;;
                 c <- getchar ;;
                 cell_write MR_KBDR (u16 c)
               else
                 cell_write MR_KBSR 0
             else ret tt) m = Ok tt m1 /\
            length (memory m1) = length (memory m)).
  { destruct (a =? MR_KBSR); [| exists m; split; reflexivity].
    destruct (check_key_run m) as (key & m1 & Hk & E1).
    rewrite (bind_ok _ _ _ _ _ Hk).
    destruct key.
    - rewrite (bind_ok _ _ _ _ _ (cell_write_lt MR_KBSR (Z.shiftl 1 15) m1
                 ltac:(rewrite E1, Hlen; exact Hsr))).
      destruct (getchar_run (with_memory (<[Z.to_nat MR_KBSR := Z.shiftl 1 15]> (memory m1)) m1))
        as (c & m2 & Hg & E2).
      rewrite (bind_ok _ _ _ _ _ Hg).
      cbn [memory with_memory] in E2.
      rewrite cell_write_lt
        by (rewrite E2, length_insert, E1, Hlen; exact Hdr).
      eexists. split; [reflexivity |].
      cbn [memory with_memory]. rewrite length_insert, E2, length_insert, E1.
      reflexivity.
    - rewrite cell_write_lt by (rewrite E1, Hlen; exact Hsr).
      eexists. split; [reflexivity |].
      cbn [memory with_memory]. rewrite length_insert, E1. reflexivity. }
  destruct Hpre as (m1 & Hpre & E1).
  unfold mem_read. rewrite (bind_ok _ _ _ _ _ Hpre).
  destruct (cell_read_lt a m1) as [w Hw].
  - rewrite E1, Hlen. unfold UINT16_MAX in *. lia.
  - exists w, m1. exact Hw.
Qed.

(** C4, at the address the array does not cover.  The array [memory] has
    [UINT16_MAX] = 65,535 cells, one for each address from 0x0000 to
    0xFFFE: those are read and written inside the array, but a read or a
    write of address 0xFFFF is an access outside of it. *)
Theorem last_address_is_outside_memory m v :
  length (memory m) = Z.to_nat UINT16_MAX ->
  Z.of_nat (length (memory m)) = 65535 /\
  mem_read 0xFFFF m = Undefined m /\
  _mem_write 0xFFFF v m = Undefined m /\
  (forall a, 0 <= a < 0xFFFF ->
     (exists w m', mem_read a m = Ok w m') /\
     (exists m', _mem_write a v m = Ok tt m')).
Proof.
  intros Hlen. repeat apply conj.
  - rewrite Hlen. unfold UINT16_MAX. lia.
  - unfold mem_read.
    change (0xFFFF =? MR_KBSR) with false. cbv iota.
    unfold bind, ret, cell_read.
    rewrite lookup_ge_None_2; [reflexivity |].
    rewrite Hlen. unfold UINT16_MAX. lia.
  - unfold _mem_write, cell_write.
    rewrite decide_False; [reflexivity |].
    rewrite Hlen. unfold UINT16_MAX. lia.
  - intros a Ha. split.
    + apply mem_read_in_bounds; [exact Hlen | unfold UINT16_MAX; lia].
    + unfold _mem_write. eexists. apply cell_write_lt.
      rewrite Hlen. unfold UINT16_MAX. lia.
Qed.

(** The memory of a sample machine has no cell for address 0xFFFF. *)
Lemma last_address_witness :
  mem_read 0xFFFF (sample [] []) = Undefined (sample [] []) /\
  _mem_write 0xFFFF 0 (sample [] []) = Undefined (sample [] []).
Proof.
  destruct (last_address_is_outside_memory (sample [] []) 0) as (_ & Hr & Hw & _).
  - apply wf_memory_length, sample_wf; constructor.
  - split; assumption.
Defined.

(** ** AND with an immediate *)

(** AND with bit 5 set, on any well-formed machine: DR receives
    [registers[SR1]] and-ed with the five bits of the immediate as they
    are, and COND the flag of that. *)
Lemma and_immediate_run instr m a :
  wf m ->
  Z.shiftr instr 12 = AND ->
  Z.land (Z.shiftr instr 5) 0x1 = 1 ->
  registers m !! Z.to_nat (field_SR1 instr) = Some a ->
  execute instr m = Ok true (written instr m (Z.land a (Z.land instr 0x1F))).
Proof.
  intros Hwf Hop Hbit Ha.
  pose proof (wf_registers_words m Hwf) as Hwords. rewrite Forall_lookup in Hwords.
  destruct (wf_register m (field_SR2 instr) Hwf) as (b & Hb & Wb).
  { pose proof (field3_range instr). unfold field_SR2, COUNT. lia. }
  rewrite (execute_AND _ Hop).
  rewrite (bind_ok _ _ _ _ _
             (and_run instr m (wf_registers_length m Hwf) a b (Hwords _ _ Ha) Wb Ha Hb)).
  unfold and_result. rewrite Hbit. reflexivity.
Qed.

(** C5, at AND R2,R2,#-1 with R2 = 0xFFFF.  The immediate form of AND
    uses the five bits as they are, where ADD sign-extends them: R2
    becomes 0x001F and COND is POS, while [registers[SR1] &
    sign_extend(imm5, 5)] is 0xFFFF, whose flag is NEG. *)
Theorem and_immediate_is_not_sign_extended :
  match step (sample [0x54BF] [(R2, 0xFFFF)]) with
  | Ok true m' =>
      registers m' !! Z.to_nat R2 = Some 0x001F /\
      registers m' !! Z.to_nat COND = Some FL_POS
  | _ => False
  end /\
  and_result 0x54BF 0xFFFF 0xFFFF = 0x001F /\
  Z.land 0xFFFF (sign_extend (Z.land 0x54BF 0x1F) 5) = 0xFFFF /\
  add_result 0x54BF 0 0 = sign_extend (Z.land 0x54BF 0x1F) 5 /\
  flag_of 0xFFFF = FL_NEG.
Proof. vm_compute. repeat split. Qed.

(** ** Before the first flag update *)

Lemma fetch_same_register i :
  i <> Z.to_nat PC -> keeps (same_register i) fetch.
Proof.
  intros Hi. unfold fetch.
  assert (forall v, keeps (same_register i) (reg_write PC v))
    by (intros v; apply reg_write_same_register; congruence).
  frame.
Qed.

(** An instruction that is none of ADD, AND, NOT, LD, LDI, LDR, LEA leaves
    COND as it is. *)
Lemma execute_same_cond instr :
  writes_result (Z.shiftr instr 12) = false ->
  keeps (same_register (Z.to_nat COND)) (execute instr).
Proof.
  intros H. unfold writes_result in H.
  repeat (apply orb_false_elim in H as [H ?]).
  unfold execute. cbv zeta.
  repeat match goal with E : (_ =? _) = false |- _ => rewrite E; clear E end.
  pose proof (trap_same_register (Z.to_nat COND) instr
                ltac:(unfold COND, R0; lia)).
  unfold Op.br, Op.jmp, Op.jsr, Op.st, Op.sti, Op.str, _mem_write.
  frame.
Qed.

(** COND is the same all along a run that sets no flag. *)
Lemma runs_without_flags_cond m0 m :
  runs_without_flags m0 m ->
  registers m !! Z.to_nat COND = registers m0 !! Z.to_nat COND.
Proof.
  induction 1 as [m | m0 m instr m1 m2 _ IH Hfetch Hop Hexec]; [reflexivity |].
  pose proof (fetch_same_register (Z.to_nat COND)
                ltac:(unfold COND, PC; lia) m) as H1.
  pose proof (execute_same_cond instr Hop m1) as H2.
  rewrite Hfetch in H1. rewrite Hexec in H2. simpl in H1, H2.
  unfold same_register in *. congruence.
Qed.

(** A BR whose [nzp] has no bit of COND leaves the machine as it is. *)
Lemma execute_br_not_taken instr m cond :
  Z.shiftr instr 12 = BR ->
  registers m !! Z.to_nat COND = Some cond ->
  Z.land (Z.land (Z.shiftr instr 9) 0x7) cond = 0 ->
  execute instr m = Ok true m.
Proof.
  intros Hop Hcond Hz. rewrite (execute_BR _ Hop).
  assert (Hbr : Op.br instr m = Ok tt m).
  { unfold Op.br. rewrite (bind_ok _ _ _ _ _ (reg_read_some _ _ _ Hcond)).
    rewrite Hz. reflexivity. }
  rewrite (bind_ok _ _ _ _ _ Hbr). reflexivity.
Qed.

(** C10.  As the loop is entered COND is 0, none of POS, ZRO and NEG; it
    stays 0 until the first of ADD, AND, NOT, LD, LDI, LDR, LEA is
    executed; and every BR executed until then, whatever its [nzp] field,
    leaves the machine as the fetch left it, PC one past the
    instruction. *)
Theorem br_before_first_flag_update mem input keys out m :
  runs_without_flags (boot mem input keys out) m ->
  registers (boot mem input keys out) !! Z.to_nat COND = Some 0 /\
  (0 <> FL_POS /\ 0 <> FL_ZRO /\ 0 <> FL_NEG) /\
  registers m !! Z.to_nat COND = Some 0 /\
  forall instr m1,
    fetch m = Ok instr m1 ->
    Z.shiftr instr 12 = BR ->
    execute instr m1 = Ok true m1 /\
    step m = Ok true m1 /\
    exists pc0, registers m !! Z.to_nat PC = Some pc0 /\
                registers m1 !! Z.to_nat PC = Some (u16 (pc0 + 1)).
Proof.
  intros Hrun.
  assert (H0 : registers (boot mem input keys out) !! Z.to_nat COND = Some 0)
    by reflexivity.
  assert (Hcond : registers m !! Z.to_nat COND = Some 0)
    by (rewrite (runs_without_flags_cond _ _ Hrun); exact H0).
  split; [exact H0 |]. split; [repeat split; discriminate |].
  split; [exact Hcond |].
  intros instr m1 Hfetch Hop.
  assert (Hcond1 : registers m1 !! Z.to_nat COND = Some 0).
  { pose proof (fetch_same_register (Z.to_nat COND)
                  ltac:(unfold COND, PC; lia) m) as H1.
    rewrite Hfetch in H1. simpl in H1. unfold same_register in H1. congruence. }
  assert (Hexec : execute instr m1 = Ok true m1)
    by (apply (execute_br_not_taken instr m1 0 Hop Hcond1), Z.land_0_r).
  split; [exact Hexec |]. split.
  - unfold step. rewrite (bind_ok _ _ _ _ _ Hfetch). exact Hexec.
  - destruct (fetch_registers _ _ _ Hfetch) as (pc0 & Hpc0 & Hregs & _).
    exists pc0. split; [exact Hpc0 |].
    rewrite Hregs. apply list_lookup_insert_eq.
    apply lookup_lt_Some in Hpc0. exact Hpc0.
Qed.

(** Two BRnzp in a row at 0x3000: neither is taken. *)
Lemma br_before_first_flag_update_witness :
  let m0 := boot (store_items (Z.to_nat PC_START) [0x0E05; 0x0E05] zero_memory)
              [] [] [] in
  runs_without_flags m0 (advance m0) /\
  step (advance m0) = Ok true (advance (advance m0)).
Proof.
  intros m0.
  assert (Hfetch0 : fetch m0 = Ok 0x0E05 (advance m0))
    by (apply (fetch_run _ PC_START); [| discriminate |]; vm_compute; reflexivity).
  assert (Hfetch1 : fetch (advance m0) = Ok 0x0E05 (advance (advance m0)))
    by (apply (fetch_run _ (PC_START + 1)); [| discriminate |]; vm_compute; reflexivity).
  assert (Hrun : runs_without_flags m0 (advance m0)).
  { apply (rwf_turn m0 m0 0x0E05 (advance m0) (advance m0)).
    - apply rwf_start.
    - exact Hfetch0.
    - reflexivity.
    - apply (execute_br_not_taken _ _ 0); [reflexivity | | reflexivity].
      vm_compute. reflexivity. }
  split; [exact Hrun |].
  destruct (br_before_first_flag_update _ [] [] [] (advance m0) Hrun)
    as (_ & _ & _ & Hbr).
  apply (Hbr 0x0E05 (advance (advance m0)) Hfetch1). reflexivity.
Defined.

(** ** PUTSP *)

(** A byte survives the passage through [char] and [putc]'s conversion,
    and is zero as a [char] exactly when it is zero. *)
Lemma char_round_trip b : 0 <= b < 256 -> to_uchar (to_char b) = b.
Proof.
  unfold to_uchar, to_char. intros Hb.
  destruct (Z_lt_ge_dec b 128) as [Hlt | Hge].
  - rewrite (Z.mod_small (b + 128)) by lia.
    replace (b + 128 - 128) with b by lia. apply Z.mod_small. lia.
  - replace (b + 128) with (b - 128 + 1 * 256) by lia.
    rewrite Z.mod_add by lia. rewrite (Z.mod_small (b - 128)) by lia.
    replace (b - 128 - 128) with (b + (-1) * 256) by lia.
    rewrite Z.mod_add by lia. apply Z.mod_small. lia.
Qed.

Lemma char_truthy b : 0 <= b < 256 -> truthy (to_char b) = negb (b =? 0).
Proof.
  unfold truthy, to_char. intros Hb. f_equal.
  destruct (Z_lt_ge_dec b 128) as [Hlt | Hge].
  - rewrite (Z.mod_small (b + 128)) by lia. f_equal. lia.
  - replace (b + 128) with (b - 128 + 1 * 256) by lia.
    rewrite Z.mod_add by lia. rewrite (Z.mod_small (b - 128)) by lia.
    destruct (Z.eqb_spec (b - 128 - 128) 0), (Z.eqb_spec b 0); try reflexivity; lia.
Qed.

Lemma high_byte_range w : word w -> 0 <= Z.shiftr w 8 < 256.
Proof.
  unfold word. intros Hw. rewrite Z.shiftr_div_pow2 by lia.
  change (2 ^ 8) with 256.
  split; [apply Z.div_pos; lia | apply Z.div_lt_upper_bound; lia].
Qed.

(** The loop of PUTSP over the words before the first zero word. *)
Lemma putsp_loop_run ws rest : forall m,
  Forall (fun w => word w /\ w <> 0) ws ->
  putsp_loop (ws ++ 0 :: rest) m =
    Ok tt (with_stdout (stdout m ++ flat_map packed_bytes ws) m).
Proof.
  induction ws as [| w ws IH]; intros m Hws.
  - simpl. rewrite app_nil_r. destruct m; reflexivity.
  - inversion Hws as [| w' ws' [Hw Hnz] Hrest]; subst.
    cbn [app putsp_loop].
    assert (Ht : truthy w = true)
      by (unfold truthy; destruct (Z.eqb_spec w 0); [contradiction | reflexivity]).
    rewrite Ht. unfold bind at 1. unfold putc at 1.
    rewrite (char_round_trip _ (field8_range w)).
    unfold bind at 1.
    rewrite (char_truthy _ (high_byte_range w Hw)).
    change (flat_map packed_bytes (w :: ws))
      with (packed_bytes w ++ flat_map packed_bytes ws).
    assert (Epk : packed_bytes w =
              Z.land w 0xFF :: (if Z.shiftr w 8 =? 0 then [] else [Z.shiftr w 8]))
      by reflexivity.
    rewrite Epk. clear Epk.
    destruct (Z.shiftr w 8 =? 0); cbn [negb].
    + unfold ret at 1. rewrite IH by exact Hrest.
      unfold with_stdout. cbn [memory registers stdin polls stdout app].
      rewrite <- app_assoc. reflexivity.
    + unfold putc at 1. rewrite (char_round_trip _ (high_byte_range w Hw)).
      rewrite IH by exact Hrest.
      unfold with_stdout. cbn [memory registers stdin polls stdout app].
      rewrite <- !app_assoc. reflexivity.
Qed.

Lemma trap_PUTSP instr :
  Z.land instr 0xFF = TRAP_PUTSP ->
  trap instr =
    (r <- reg_read R0 ;; c <- pointer r ;; putsp_loop c ;; fflush ;; ret true).
Proof. unfold trap. intros ->. reflexivity. Qed.

(** C8, as the code has it.  When the memory holds a zero word at or
    after address R0, with the non-zero words [ws] before the first such
    word, TRAP 0x24 ends there, the loop still running, having written for
    each word of [ws] in turn its low byte, zero or not, and then its high
    byte unless that is zero, and having flushed the output; nothing else
    changes. *)
Theorem putsp_writes_packed_bytes instr m r ws rest :
  Z.shiftr instr 12 = TRAP ->
  Z.land instr 0xFF = TRAP_PUTSP ->
  registers m !! Z.to_nat R0 = Some r ->
  drop (Z.to_nat r) (memory m) = ws ++ 0 :: rest ->
  Forall (fun w => word w /\ w <> 0) ws ->
  execute instr m =
    Ok true (all_flushed (with_stdout (stdout m ++ flat_map packed_bytes ws) m)).
Proof.
  intros Hop Hvec Hr Hdrop Hws.
  rewrite (execute_TRAP _ Hop), (trap_PUTSP _ Hvec).
  rewrite (bind_ok _ _ _ _ _ (reg_read_some _ _ _ Hr)).
  unfold bind at 1. unfold pointer at 1. rewrite Hdrop.
  rewrite (bind_ok _ _ _ _ _ (putsp_loop_run ws rest m Hws)).
  reflexivity.
Qed.

(** PUTSP at 0x3000 with R0 = 0x3001, where the words 0x6548 and 0x0021
    are followed by a zero word: the bytes written are 0x48, 0x65, 0x21. *)
Lemma putsp_witness :
  let m := advance (sample [0xF024; 0x6548; 0x0021] [(R0, 0x3001)]) in
  execute 0xF024 m = Ok true (all_flushed (with_stdout [0x48; 0x65; 0x21] m)).
Proof.
  intros m.
  apply (putsp_writes_packed_bytes 0xF024 m 0x3001 [0x6548; 0x0021]
           (drop (S (S (S (Z.to_nat 0x3001)))) (memory m))).
  - reflexivity.
  - reflexivity.
  - vm_compute. reflexivity.
  - rewrite (drop_S _ 0x6548) by (vm_compute; reflexivity).
    rewrite (drop_S _ 0x0021) by (vm_compute; reflexivity).
    rewrite (drop_S _ 0) by (vm_compute; reflexivity).
    reflexivity.
  - repeat constructor; unfold word; lia.
Defined.

(** C8 as stated fails twice.  A zero low byte inside a non-zero word is
    written: for the word 0x4100 the output is the byte 0 and then 0x41.
    And without a zero word at or after R0 the routine does not end at
    one: over a memory of ones, from 0xFFFE, it writes a byte and leaves
    the array. *)
Lemma putsp_writes_zero_low_byte :
  match execute 0xF024 (advance (sample [0xF024; 0x4100] [(R0, 0x3001)])) with
  | Ok true m' => stdout m' = [0; 0x41]
  | _ => False
  end /\
  match execute 0xF024
          (with_memory (replicate (Z.to_nat UINT16_MAX) 1) (sample [] [(R0, 0xFFFE)]))
  with
  | Undefined m' => stdout m' = [1]
  | _ => False
  end.
Proof. vm_compute. split; reflexivity. Qed.

(** ** Image files *)

(** A value shifted left by eight bits shares no bit with a byte. *)
Lemma land_shiftl_byte a b : 0 <= b < 256 -> Z.land (Z.shiftl a 8) b = 0.
Proof.
  intros Hb. rewrite Z.land_comm. apply land_shiftl_disjoint; [lia |].
  change (2 ^ 8) with 256. exact Hb.
Qed.

(** [swap16] gives back the word whose bytes were read low byte first. *)
Lemma swap16_raw_item w : word w -> swap16 (raw_item w) = w.
Proof.
  intros Hw. unfold swap16, raw_item.
  pose proof (high_byte_range w Hw) as Hh.
  pose proof (field8_range w) as Hl.
  assert (El : Z.land w 0xFF = w mod 256) by (apply (land_ones_mod w 8); lia).
  assert (Eh : Z.shiftr w 8 = w / 256) by (apply (Z.shiftr_div_pow2 w 8); lia).
  set (h := Z.shiftr w 8) in *. set (l := Z.land w 0xFF) in *.
  assert (Ew : w = 256 * h + l) by (rewrite Eh, El; apply Z.div_mod; lia).
  assert (Er : Z.shiftr (h + 256 * l) 8 = l).
  { rewrite Z.shiftr_div_pow2 by lia. change (2 ^ 8) with 256.
    replace (h + 256 * l) with (h + l * 256) by lia.
    rewrite Z.div_add by lia. rewrite (Z.div_small h) by lia. lia. }
  rewrite Er.
  rewrite <- (Z.add_0_r (Z.lor _ _)), <- (land_shiftl_byte (h + 256 * l) l Hl).
  rewrite Z.add_lor_land, Z.shiftl_mul_pow2 by lia. change (2 ^ 8) with 256.
  unfold u16.
  replace ((h + 256 * l) * 256 + l) with (256 * h + l + l * 65536) by lia.
  rewrite Z.mod_add by lia. rewrite <- Ew. apply Z.mod_small. exact Hw.
Qed.

(** The items read from the bytes of a list of words. *)
Lemma fread16_partial_payload payload : forall n,
  fread16_partial n (flat_map be_bytes payload) = [].
Proof.
  induction payload as [| w payload IH]; intros [| n]; try reflexivity.
  cbn [flat_map be_bytes app fread16_partial]. apply IH.
Qed.

Lemma fread16_payload payload : forall n,
  fread16 n (flat_map be_bytes payload) = raw_item <$> take n payload.
Proof.
  induction payload as [| w ws IH]; intros [| n]; try reflexivity.
  cbn [flat_map be_bytes app fread16 take fmap list_fmap].
  rewrite IH. reflexivity.
Qed.

(** The cells [store_items] fills, and those it leaves. *)
Lemma store_items_inside items : forall p mem i x,
  (p + length items <= length mem)%nat ->
  items !! i = Some x ->
  store_items p items mem !! (p + i)%nat = Some x.
Proof.
  induction items as [| y rest IH]; intros p mem i x Hfit Hi; [discriminate |].
  cbn [store_items length] in *.
  destruct i as [| i].
  - injection Hi as ->. rewrite Nat.add_0_r.
    assert (Hkeep : forall its q m', (p < q)%nat ->
              store_items q its m' !! p = m' !! p).
    { induction its as [| z its IHits]; intros q m' Hq; [reflexivity |].
      cbn [store_items]. rewrite IHits by lia.
      apply list_lookup_insert_ne. lia. }
    rewrite Hkeep by lia. apply list_lookup_insert_eq. lia.
  - replace (p + S i)%nat with (S p + i)%nat by lia.
    apply IH; [rewrite length_insert; lia | exact Hi].
Qed.

Lemma store_items_outside items : forall p mem j,
  (j < p \/ p + length items <= j)%nat ->
  store_items p items mem !! j = mem !! j.
Proof.
  induction items as [| y rest IH]; intros p mem j Hj; [reflexivity |].
  cbn [store_items length] in *.
  rewrite IH by lia. apply list_lookup_insert_ne. lia.
Qed.

(** The cells [swap_loop] swaps, and those it leaves. *)
Lemma swap_loop_lookup read : forall p mem j,
  swap_loop read p mem !! j =
    if decide (p <= j < p + read)%nat then swap16 <$> mem !! j else mem !! j.
Proof.
  induction read as [| read IH]; intros p mem j; cbn [swap_loop].
  - rewrite decide_False by lia. reflexivity.
  - rewrite IH.
    destruct (decide (j = p)) as [-> | Hne].
    + rewrite decide_False by lia. rewrite decide_True by lia.
      apply list_lookup_alter_eq.
    + rewrite list_lookup_alter_ne by congruence.
      destruct (decide (S p <= j < S p + read)%nat);
        [rewrite decide_True by lia | rewrite decide_False by lia]; reflexivity.
Qed.

Lemma swap_loop_length read : forall p mem,
  length (swap_loop read p mem) = length mem.
Proof.
  induction read as [| read IH]; intros p mem; cbn [swap_loop]; [reflexivity |].
  rewrite IH. apply length_alter.
Qed.

(** X3.  What [read_image_file] does with the file of an image: of the
    payload words it loads the first [UINT16_MAX - origin] at most, each at
    its address and in host order, and it leaves every other cell as it
    was, and the memory at its size. *)
Lemma read_image_file_loads origin payload mem :
  word origin ->
  Forall word payload ->
  length mem = Z.to_nat UINT16_MAX ->
  let n := Nat.min (length payload) (Z.to_nat (UINT16_MAX - origin)) in
  let mem' := read_image_file (image origin payload) mem in
  length mem' = length mem /\
  (forall i w, (i < n)%nat -> payload !! i = Some w ->
     mem' !! (Z.to_nat origin + i)%nat = Some w) /\
  (forall j, (j < Z.to_nat origin \/ Z.to_nat origin + n <= j)%nat ->
     mem' !! j = mem !! j).
Proof.
  intros Ho Hpay Hlen n mem'.
  assert (Emax : max_read origin = UINT16_MAX - origin)
    by (unfold max_read; apply u16_id; unfold word, UINT16_MAX in *; lia).
  assert (E : mem' =
            swap_loop (length (raw_item <$> take (Z.to_nat (UINT16_MAX - origin)) payload))
              (Z.to_nat origin)
              (store_items (Z.to_nat origin)
                 (raw_item <$> take (Z.to_nat (UINT16_MAX - origin)) payload) mem)).
  { unfold mem', read_image_file, image.
    change (be_bytes origin ++ flat_map be_bytes payload)
      with (Z.shiftr origin 8 :: Z.land origin 0xFF :: flat_map be_bytes payload).
    cbn [fread16 drop]. rewrite !drop_0. fold (raw_item origin).
    rewrite (swap16_raw_item origin Ho), Emax, fread16_payload,
      fread16_partial_payload.
    reflexivity. }
  assert (Hitems : length (raw_item <$> take (Z.to_nat (UINT16_MAX - origin)) payload) = n)
    by (rewrite length_fmap, length_take; unfold n; lia).
  rewrite Hitems in E.
  assert (Hfit : (Z.to_nat origin + n <= length mem)%nat)
    by (rewrite Hlen; unfold n, word, UINT16_MAX in *; lia).
  rewrite E. repeat apply conj.
  - rewrite swap_loop_length, store_items_length. reflexivity.
  - intros i w Hi Hw.
    rewrite swap_loop_lookup, decide_True by lia.
    rewrite (store_items_inside _ _ _ _ (raw_item w)).
    + cbn [fmap option_fmap option_map]. f_equal. apply swap16_raw_item.
      rewrite Forall_lookup in Hpay. exact (Hpay _ _ Hw).
    + rewrite Hitems. exact Hfit.
    + rewrite list_lookup_fmap, lookup_take_lt by (unfold n in Hi; lia).
      rewrite Hw. reflexivity.
  - intros j Hj.
    rewrite swap_loop_lookup, decide_False by lia.
    apply store_items_outside. rewrite Hitems. exact Hj.
Qed.

(** The image of origin 0x3000 with two words, loaded into the zeroed
    memory: the second word is at 0x3001 and the cell before the origin is
    still zero. *)
Lemma read_image_file_witness :
  let mem' := read_image_file (image 0x3000 [0x1234; 0xABCD]) zero_memory in
  mem' !! (Z.to_nat 0x3000 + 1)%nat = Some 0xABCD /\
  mem' !! (Z.to_nat 0x2FFF) = zero_memory !! (Z.to_nat 0x2FFF).
Proof.
  destruct (read_image_file_loads 0x3000 [0x1234; 0xABCD] zero_memory)
    as (_ & Hin & Hout).
  - unfold word. lia.
  - repeat constructor; unfold word; lia.
  - apply zero_memory_length.
  - split.
    + apply Hin; [cbn [length]; unfold UINT16_MAX; lia | reflexivity].
    + apply Hout. lia.
Defined.

(** C9, at an image whose payload reaches address 0xFFFF.  For the origin
    0xFFFE and the payload 0x1234, 0x5678 the loader reads one word where
    [0x10000 - origin] is two: 0x1234 is at 0xFFFE and 0x5678, meant for
    0xFFFF, is left out; the array has no cell for it. *)
Theorem loader_leaves_out_last_address :
  let file := image 0xFFFE [0x1234; 0x5678] in
  let mem' := read_image_file file zero_memory in
  file = [0xFF; 0xFE; 0x12; 0x34; 0x56; 0x78] /\
  max_read 0xFFFE = 1 /\
  0x10000 - 0xFFFE = 2 /\
  mem' !! Z.to_nat 0xFFFE = Some 0x1234 /\
  mem' !! Z.to_nat 0xFFFF = None /\
  existsb (Z.eqb 0x5678) mem' = false.
Proof. vm_compute. repeat split. Qed.

(** A file that ends on an odd byte: the byte 0x56 after the word 0x1234
    is stored in the low byte of the next cell and is not swapped. *)
Example odd_last_byte_scenario :
  let mem' := read_image_file [0x30; 0x00; 0x12; 0x34; 0x56] zero_memory in
  mem' !! Z.to_nat 0x3000 = Some 0x1234 /\
  mem' !! Z.to_nat 0x3001 = Some 0x0056 /\
  mem' !! Z.to_nat 0x3002 = Some 0.
Proof. vm_compute. repeat split. Qed.

(** ** The earlier revisions *)

(** The earlier [update_flags] never sets POS: its test [v << 0xF] is
    non-zero for every non-zero [v]. *)
Lemma Early_update_flags_never_pos r v m :
  length (registers m) = Z.to_nat COUNT ->
  registers m !! Z.to_nat r = Some v ->
  word v -> v <> 0 ->
  Early.update_flags r m =
    Ok tt (with_registers (<[Z.to_nat COND := FL_NEG]> (registers m)) m).
Proof.
  intros Hlen Hr Hv Hnz. unfold Early.update_flags.
  rewrite (bind_ok _ _ _ _ _ (reg_read_some _ _ _ Hr)).
  destruct (Z.eqb_spec v 0) as [| _]; [contradiction |].
  rewrite (bind_ok _ _ _ _ _ (reg_read_some _ _ _ Hr)).
  assert (Ht : truthy (Z.shiftl v 0xF) = true).
  { unfold truthy. rewrite Z.shiftl_mul_pow2 by lia.
    destruct (Z.eqb_spec (v * 2 ^ 15) 0) as [E |]; [| reflexivity].
    unfold word in Hv. change (2 ^ 15) with 32768 in E. lia. }
  rewrite Ht. apply reg_write_lt. rewrite Hlen. unfold COND, COUNT. lia.
Qed.

(** The earlier [br] does not look at COND and assigns the offset to PC. *)
Lemma Early_br_assigns_and_ignores_cond instr m :
  length (registers m) = Z.to_nat COUNT ->
  Z.land (Z.shiftr instr 9) 0x7 <> 0 ->
  Early.br instr m =
    Ok tt (with_registers
             (<[Z.to_nat PC := sign_extend (Z.land instr 0x1FF) 9]> (registers m)) m).
Proof.
  intros Hlen Hnzp. unfold Early.br, truthy.
  destruct (Z.eqb_spec (Z.land (Z.shiftr instr 9) 0x7) 0) as [| _]; [contradiction |].
  apply reg_write_lt. rewrite Hlen. unfold PC, COUNT. lia.
Qed.

(** The earlier [jsr] assigns the offset to PC. *)
Lemma Early_jsr_assigns_offset instr m pc :
  length (registers m) = Z.to_nat COUNT ->
  registers m !! Z.to_nat PC = Some pc ->
  Z.land (Z.shiftr instr 11) 0x1 = 1 ->
  Early.jsr instr m =
    Ok tt (with_registers
             (<[Z.to_nat PC := sign_extend (Z.land instr 0x7FF) 11]>
                (<[Z.to_nat R7 := pc]> (registers m))) m).
Proof.
  intros Hlen Hpc Hbit. unfold Early.jsr.
  rewrite (bind_ok _ _ _ _ _ (reg_read_some _ _ _ Hpc)).
  rewrite (bind_ok _ _ _ _ _ (reg_write_lt R7 pc m
             ltac:(rewrite Hlen; unfold R7, COUNT; lia))).
  rewrite Hbit. change (truthy 1) with true. cbv iota.
  rewrite reg_write_lt
    by (cbn [registers with_registers]; rewrite length_insert, Hlen;
        unfold PC, COUNT; lia).
  reflexivity.
Qed.

(** In the earlier loop RES goes on to the next instruction, and an ADD
    whose low byte is the vector of HALT stops the loop. *)
Lemma Early_reserved_opcode_goes_on fuel m :
  Early.execute fuel 0xD000 m = Ok (Some true) m.
Proof. reflexivity. Qed.

Lemma Early_trap_switch_under_any_opcode :
  match Early.execute 0 0x1025 (advance (sample [0x1025] [])) with
  | Ok (Some false) m' =>
      stdout m' = bytes_of_string (String.append "HALT" nl)
  | _ => False
  end.
Proof. vm_compute. reflexivity. Qed.

(** In the earlier PUTSP a word with a zero high byte is written again
    and again. *)
Lemma Early_putsp_never_ends fuel : forall w rest m,
  0 < w < 256 ->
  Early.putsp_loop fuel (w :: rest) m =
    Ok false (with_stdout (stdout m ++ replicate fuel w) m).
Proof.
  induction fuel as [| fuel IH]; intros w rest m Hw.
  - cbn [Early.putsp_loop replicate]. rewrite app_nil_r. destruct m; reflexivity.
  - cbn [Early.putsp_loop].
    assert (Ht : truthy w = true)
      by (unfold truthy; destruct (Z.eqb_spec w 0); [lia | reflexivity]).
    assert (El : Z.land w 0xFF = w).
    { assert (E : Z.land w 0xFF = w mod 256) by (apply (land_ones_mod w 8); lia).
      rewrite E. apply Z.mod_small. lia. }
    assert (Eh : Z.shiftr w 8 = 0).
    { rewrite Z.shiftr_div_pow2 by lia. apply Z.div_small.
      change (2 ^ 8) with 256. lia. }
    rewrite Ht, El, Eh. change (truthy (to_char 0)) with false. cbv iota.
    unfold bind at 1. unfold putc at 1.
    rewrite char_round_trip by lia.
    rewrite IH by exact Hw.
    unfold with_stdout. cbn [memory registers stdin polls stdout replicate].
    rewrite <- app_assoc. reflexivity.
Qed.

(** ** Scenarios *)

(** ADD R1,R1,#-1 with R1 = 0: R1 = 0xFFFF and COND = NEG. *)
Example add_immediate_scenario :
  match step (sample [0x127F] []) with
  | Ok true m' =>
      registers m' !! Z.to_nat R1 = Some 0xFFFF /\
      registers m' !! Z.to_nat COND = Some FL_NEG
  | _ => False
  end.
Proof. vm_compute. split; reflexivity. Qed.

(** AND R2,R2,#0 with R2 = 0x1234: R2 = 0 and COND = ZRO. *)
Example and_zero_scenario :
  match step (sample [0x54A0] [(R2, 0x1234)]) with
  | Ok true m' =>
      registers m' !! Z.to_nat R2 = Some 0 /\
      registers m' !! Z.to_nat COND = Some FL_ZRO
  | _ => False
  end.
Proof. vm_compute. split; reflexivity. Qed.

(** LDI R3 through 0x3100, which holds 0x4000, where 0xBEEF is. *)
Example ldi_scenario :
  let m := sample [0xA6FF] [] in
  let mem := <[Z.to_nat 0x3100 := 0x4000]> (<[Z.to_nat 0x4000 := 0xBEEF]> (memory m)) in
  match step (with_memory mem m) with
  | Ok true m' =>
      registers m' !! Z.to_nat R3 = Some 0xBEEF /\
      registers m' !! Z.to_nat COND = Some FL_NEG
  | _ => False
  end.
Proof. vm_compute. split; reflexivity. Qed.

(** JSR +2 at 0x3000 and JMP R7 at 0x3003: PC is back at 0x3001. *)
Example jsr_ret_scenario :
  match run 2 (sample [0x4802; 0; 0; 0xC1C0] []) with
  | Running m' =>
      registers m' !! Z.to_nat PC = Some 0x3001 /\
      registers m' !! Z.to_nat R7 = Some 0x3001
  | _ => False
  end.
Proof. vm_compute. split; reflexivity. Qed.

(** LEA R0,#2; PUTS; HALT over the string "Hi", loaded by [main] after
    the file of the program's own name. *)
Example hello_scenario :
  let code := [0xE002; 0xF022; 0xF025; 0x48; 0x69; 0] in
  let fs := fun path : string =>
    if String.eqb path "hello.obj" then Some (image 0x3000 code)
    else if String.eqb path "vm" then Some []
    else None in
  match main ["vm"; "hello.obj"]%string fs [] [] 10 with
  | Halted m' =>
      stdout m' = bytes_of_string (String.append "HiHALT" nl) /\
      exit_status (Halted m') = Some 0
  | _ => False
  end.
Proof. vm_compute. split; reflexivity. Qed.

(** A missing argument and a file that cannot be opened end in [exit(1)]. *)
Example usage_scenario :
  exit_status (main ["vm"%string] (fun _ => None) [] [] 10) = Some 1 /\
  exit_status (main ["vm"; "none.obj"]%string (fun _ => None) [] [] 10) = Some 1.
Proof. split; reflexivity. Qed.

(** ** Well-formedness is kept *)

Lemma safe_ret {A : Type} (a : A) (Q : A -> Prop) : Q a -> safe (ret a) Q.
Proof.
  intros HQ m Hwf. split; [exact Hwf |].
  intros a' m' H. inversion H; subst. exact HQ.
Qed.

Lemma safe_bind {A B : Type} (c : M A) (k : A -> M B) (P : A -> Prop) (Q : B -> Prop) :
  safe c P -> (forall a, P a -> safe (k a) Q) -> safe (bind c k) Q.
Proof.
  intros Hc Hk m Hwf. unfold bind.
  destruct (Hc m Hwf) as [Hwf1 HP].
  destruct (c m) as [a m1 | m1 | m1] eqn:E; simpl in *.
  - apply (Hk a (HP a m1 eq_refl) m1 Hwf1).
  - split; [exact Hwf1 | discriminate].
  - split; [exact Hwf1 | discriminate].
Qed.

Lemma safe_weaken {A : Type} (c : M A) (P Q : A -> Prop) :
  safe c P -> (forall a, P a -> Q a) -> safe c Q.
Proof.
  intros Hc HPQ m Hwf. destruct (Hc m Hwf) as [Hwf1 HP].
  split; [exact Hwf1 |]. intros a m' E. apply HPQ. exact (HP a m' E).
Qed.

Lemma safe_reg_read r : safe (reg_read r) word.
Proof.
  intros m Hwf. unfold reg_read.
  pose proof (wf_registers_words m Hwf) as Hw. rewrite Forall_lookup in Hw.
  destruct (registers m !! Z.to_nat r) as [v |] eqn:E; simpl;
    (split; [exact Hwf |]); intros a m' H; inversion H; subst.
  exact (Hw _ _ E).
Qed.

Lemma safe_cell_read a : safe (cell_read a) word.
Proof.
  intros m Hwf. unfold cell_read.
  pose proof (wf_memory_words m Hwf) as Hw. rewrite Forall_lookup in Hw.
  destruct (memory m !! Z.to_nat a) as [v |] eqn:E; simpl;
    (split; [exact Hwf |]); intros a' m' H; inversion H; subst.
  exact (Hw _ _ E).
Qed.

Lemma safe_reg_write r v : word v -> safe (reg_write r v) (fun _ => True).
Proof.
  intros Hv m [H1 H2 H3 H4]. unfold reg_write.
  destruct (decide _); simpl; (split; [| auto]).
  - split; simpl; auto.
    + rewrite length_insert. exact H2.
    + apply Forall_insert; assumption.
  - split; assumption.
Qed.

Lemma safe_cell_write a v : word v -> safe (cell_write a v) (fun _ => True).
Proof.
  intros Hv m [H1 H2 H3 H4]. unfold cell_write.
  destruct (decide _); simpl; (split; [| auto]).
  - split; simpl; auto.
    + rewrite length_insert. exact H1.
    + apply Forall_insert; assumption.
  - split; assumption.
Qed.

Lemma safe_getchar : safe getchar (fun _ => True).
Proof.
  intros m [H1 H2 H3 H4]. unfold getchar.
  destruct (stdin m); simpl; (split; [split; assumption | auto]).
Qed.

Lemma safe_check_key : safe check_key (fun _ => True).
Proof.
  intros m [H1 H2 H3 H4]. unfold check_key.
  destruct (polls m); simpl; (split; [split; assumption | auto]).
Qed.

Lemma safe_putc c : safe (putc c) (fun _ => True).
Proof. intros m [H1 H2 H3 H4]. split; [split; assumption | auto]. Qed.

Lemma safe_printf s : safe (printf s) (fun _ => True).
Proof. intros m [H1 H2 H3 H4]. split; [split; assumption | auto]. Qed.

Lemma safe_puts s : safe (puts s) (fun _ => True).
Proof. intros m [H1 H2 H3 H4]. split; [split; assumption | auto]. Qed.

Lemma safe_fflush : safe fflush (fun _ => True).
Proof. intros m [H1 H2 H3 H4]. split; [split; assumption | auto]. Qed.

Lemma safe_pointer r : safe (pointer r) (fun _ => True).
Proof. intros m Hwf. split; [exact Hwf | auto]. Qed.

Lemma safe_undefined {A : Type} (Q : A -> Prop) : safe (@undefined A) Q.
Proof. intros m Hwf. split; [exact Hwf | discriminate]. Qed.

Lemma safe_abort {A : Type} (Q : A -> Prop) : safe (@abort A) Q.
Proof. intros m Hwf. split; [exact Hwf | discriminate]. Qed.

Lemma flags_are_words : word FL_POS /\ word FL_ZRO /\ word FL_NEG.
Proof. unfold word. repeat split; vm_compute; congruence. Qed.

Create HintDb safe discriminated.

#[export] Hint Resolve safe_reg_read safe_cell_read safe_getchar safe_check_key
  safe_putc safe_printf safe_puts safe_pointer safe_undefined safe_abort
  u16_word land_word : safe.

(** Goes through a computation whose results are all to be ignored but
    for the words read from the arrays. *)
Ltac safe_step :=
  match goal with
  | |- forall _, _ => intro
  | |- safe (bind (reg_read _) _) _ => eapply (safe_bind _ _ word)
  | |- safe (bind (cell_read _) _) _ => eapply (safe_bind _ _ word)
  | |- safe (bind (mem_read _) _) _ => eapply (safe_bind _ _ word)
  | |- safe (bind _ _) _ => eapply (safe_bind _ _ (fun _ => True))
  | |- safe (if ?b then _ else _) _ => destruct b
  | |- safe (ret _) _ => apply safe_ret; exact I
  | |- safe fflush _ => apply safe_fflush
  | |- safe (reg_write _ _) _ => apply safe_reg_write
  | |- safe (cell_write _ _) _ => apply safe_cell_write
  | |- safe (_mem_write _ _) _ => apply safe_cell_write
  | |- safe _ (fun _ => True) =>
      solve [ eauto with safe
            | eapply safe_weaken; [ solve [eauto with safe] | intros; exact I ] ]
  | |- safe _ _ => solve [ eauto with safe ]
  | |- word (Z.shiftl 1 15) => unfold word; vm_compute; split; congruence
  | |- word 0 => unfold word; lia
  | |- word FL_POS => apply flags_are_words
  | |- word FL_ZRO => apply flags_are_words
  | |- word FL_NEG => apply flags_are_words
  | |- word _ => solve [ eauto with safe ]
  end.

Ltac safe := repeat safe_step.

Lemma safe_mem_read a : safe (mem_read a) word.
Proof.
  unfold mem_read. eapply (safe_bind _ _ (fun _ => True)); [| intros _ _; apply safe_cell_read].
  safe.
Qed.

#[export] Hint Resolve safe_mem_read : safe.

Lemma safe_update_flags r : safe (update_flags r) (fun _ => True).
Proof. unfold update_flags. safe. Qed.

#[export] Hint Resolve safe_update_flags : safe.

Lemma handlers_safe instr :
  safe (Op.add instr) (fun _ => True) /\ safe (Op.and instr) (fun _ => True) /\
  safe (Op.not instr) (fun _ => True) /\ safe (Op.br instr) (fun _ => True) /\
  safe (Op.jmp instr) (fun _ => True) /\ safe (Op.jsr instr) (fun _ => True) /\
  safe (Op.ld instr) (fun _ => True) /\ safe (Op.ldi instr) (fun _ => True) /\
  safe (Op.ldr instr) (fun _ => True) /\ safe (Op.lea instr) (fun _ => True) /\
  safe (Op.st instr) (fun _ => True) /\ safe (Op.sti instr) (fun _ => True) /\
  safe (Op.str instr) (fun _ => True).
Proof.
  assert (Himm : word (Z.land instr 0x1F)).
  { assert (E : Z.land instr 0x1F = instr mod 32) by (apply (land_ones_mod instr 5); lia).
    pose proof (Z.mod_pos_bound instr 32 ltac:(lia)). rewrite E. unfold word. lia. }
  unfold Op.add, Op.and, Op.not, Op.br, Op.jmp, Op.jsr, Op.ld, Op.ldi,
    Op.ldr, Op.lea, Op.st, Op.sti, Op.str.
  repeat apply conj; safe.
Qed.

Lemma safe_puts_loop c : safe (puts_loop c) (fun _ => True).
Proof. induction c as [| w c' IH]; simpl; safe. Qed.

Lemma safe_putsp_loop c : safe (putsp_loop c) (fun _ => True).
Proof. induction c as [| w c' IH]; simpl; safe. Qed.

#[export] Hint Resolve safe_puts_loop safe_putsp_loop : safe.

Lemma safe_trap instr : safe (trap instr) (fun _ => True).
Proof. unfold trap. safe. Qed.

Lemma safe_fetch : safe fetch word.
Proof.
  unfold fetch.
  eapply (safe_bind _ _ word); [apply safe_reg_read | intros pc Hpc].
  eapply (safe_bind _ _ (fun _ => True)); [safe | intros _ _; apply safe_mem_read].
Qed.

Lemma safe_execute instr : safe (execute instr) (fun _ => True).
Proof.
  destruct (handlers_safe instr)
    as (S1 & S2 & S3 & S4 & S5 & S6 & S7 & S8 & S9 & S10 & S11 & S12 & S13).
  pose proof (safe_trap instr).
  unfold execute. cbv zeta. safe.
Qed.

(** A turn of the loop keeps the machine well formed, however it ends. *)
Theorem step_keeps_wf m : wf m -> wf (final (step m)).
Proof.
  intros Hwf.
  assert (Hstep : safe step (fun _ => True)).
  { unfold step. eapply (safe_bind _ _ word); [apply safe_fetch |].
    intros instr _. apply safe_execute. }
  exact (proj1 (Hstep m Hwf)).
Qed.

(** So does the whole loop. *)
Theorem run_keeps_wf fuel : forall m, wf m -> wf (last (run fuel m)).
Proof.
  induction fuel as [| fuel IH]; intros m Hwf; simpl; [exact Hwf |].
  pose proof (step_keeps_wf m Hwf) as Hstep.
  destruct (step m) as [[|] m' | m' | m']; simpl in *; auto.
Qed.

(** The loader keeps the memory at its size and full of 16-bit values. *)
Lemma fread16_words n : forall file,
  Forall byte file -> Forall word (fread16 n file).
Proof.
  induction n as [| n IH]; intros file Hfile; [constructor |].
  destruct file as [| lo [| hi rest]]; try constructor.
  - inversion Hfile as [| ? ? Hlo Hrest]; subst.
    inversion Hrest as [| ? ? Hhi _]; subst.
    unfold byte, word in *. lia.
  - apply IH. inversion Hfile as [| ? ? _ Hrest]; subst.
    inversion Hrest; subst. assumption.
Qed.

Lemma swap_loop_words read : forall p mem,
  Forall word mem -> Forall word (swap_loop read p mem).
Proof.
  induction read as [| read IH]; intros p mem Hmem; cbn [swap_loop]; [exact Hmem |].
  apply IH. rewrite Forall_lookup in *. intros i x Hi.
  destruct (decide (i = p)) as [-> | Hne].
  - rewrite list_lookup_alter_eq in Hi.
    destruct (mem !! p) as [y |]; [| discriminate].
    injection Hi as <-. apply u16_word.
  - rewrite list_lookup_alter_ne in Hi by congruence. exact (Hmem _ _ Hi).
Qed.

Lemma fread16_partial_bytes n : forall file,
  Forall byte file -> Forall byte (fread16_partial n file).
Proof.
  induction n as [| n IH]; intros file Hfile; [constructor |].
  destruct file as [| lo [| hi rest]]; cbn [fread16_partial].
  - constructor.
  - exact Hfile.
  - apply IH. inversion Hfile as [| ? ? _ Hrest]; subst.
    inversion Hrest; subst. assumption.
Qed.

Lemma store_partial_length q part mem :
  length (store_partial q part mem) = length mem.
Proof. destruct part; [reflexivity | apply length_alter]. Qed.

Lemma store_partial_words q part mem :
  Forall byte part -> Forall word mem -> Forall word (store_partial q part mem).
Proof.
  intros Hpart Hmem. destruct part as [| lo part]; [exact Hmem |].
  inversion Hpart as [| ? ? Hlo _]; subst. cbn [store_partial].
  rewrite Forall_lookup in *. intros i x Hi.
  destruct (decide (i = q)) as [-> | Hne].
  - rewrite list_lookup_alter_eq in Hi.
    destruct (mem !! q) as [old |] eqn:E; [| discriminate].
    injection Hi as <-. pose proof (Hmem _ _ E) as Hold.
    unfold byte, word in *.
    assert (0 <= old / 256 < 256)
      by (split; [apply Z.div_pos; lia | apply Z.div_lt_upper_bound; lia]).
    lia.
  - rewrite list_lookup_alter_ne in Hi by congruence. exact (Hmem _ _ Hi).
Qed.

Lemma read_image_file_wf file mem :
  Forall byte file ->
  length mem = Z.to_nat UINT16_MAX -> Forall word mem ->
  length (read_image_file file mem) = Z.to_nat UINT16_MAX /\
  Forall word (read_image_file file mem).
Proof.
  intros Hfile Hlen Hmem. unfold read_image_file.
  destruct (fread16 1 file) as [| raw tail]; [split; assumption |].
  split.
  - rewrite swap_loop_length, store_partial_length, store_items_length. exact Hlen.
  - apply swap_loop_words, store_partial_words.
    + apply fread16_partial_bytes, Forall_drop. exact Hfile.
    + apply store_items_words; [| exact Hmem].
      apply fread16_words. apply Forall_drop. exact Hfile.
Qed.

Lemma boot_wf mem input keys out :
  length mem = Z.to_nat UINT16_MAX -> Forall word mem ->
  wf (boot mem input keys out).
Proof.
  intros Hlen Hmem. unfold boot. split; cbn [memory registers].
  - exact Hlen.
  - rewrite length_insert. apply length_replicate.
  - exact Hmem.
  - apply Forall_insert; [| unfold word, PC_START; lia].
    apply Forall_replicate. unfold word. lia.
Qed.

(** X21.  Every machine [main] ends in is well formed, when the files
    hold bytes: however the program ends, and after any number of turns of
    the loop, the memory has its 65,535 cells, there are ten registers,
    and all of them hold 16-bit values. *)
Theorem main_keeps_wf argv fs input keys fuel :
  (forall path file, fs path = Some file -> Forall byte file) ->
  wf (last (main argv fs input keys fuel)).
Proof.
  intros Hfs. unfold main.
  assert (Hexit : forall mem out,
            length mem = Z.to_nat UINT16_MAX -> Forall word mem ->
            wf (Machine mem zero_registers input keys out 0)).
  { intros mem out Hlen Hmem. split; cbn [memory registers].
    - exact Hlen.
    - apply length_replicate.
    - exact Hmem.
    - apply Forall_replicate. unfold word. lia. }
  destruct (Z.of_nat (length argv) <? 2);
    [apply Hexit; [apply zero_memory_length | apply zero_memory_words] |].
  assert (Hload : forall args mem mem' failed,
            length mem = Z.to_nat UINT16_MAX -> Forall word mem ->
            load_images fs args mem = (mem', failed) ->
            length mem' = Z.to_nat UINT16_MAX /\ Forall word mem').
  { induction args as [| path rest IH]; intros mem mem' failed Hlen Hmem H;
      cbn [load_images] in H.
    - injection H as <- _. split; assumption.
    - unfold read_image in H. destruct (fs path) as [file |] eqn:E.
      + destruct (read_image_file_wf file mem (Hfs _ _ E) Hlen Hmem) as [Hlen' Hmem'].
        exact (IH _ _ _ Hlen' Hmem' H).
      + injection H as <- _. split; assumption. }
  destruct (load_images fs argv zero_memory) as [mem failed] eqn:E.
  destruct (Hload _ _ _ _ zero_memory_length zero_memory_words E) as [Hlen Hmem].
  destruct failed as [path |].
  - apply Hexit; assumption.
  - apply run_keeps_wf, boot_wf; assumption.
Qed.

(** An image that holds HALT, loaded under both arguments. *)
Lemma main_keeps_wf_witness :
  wf (last (main ["vm"; "halt.obj"]%string
              (fun _ => Some [0x30; 0x00; 0xF0; 0x25]) [] [] 3)).
Proof.
  apply main_keeps_wf. intros path file H. injection H as <-.
  repeat constructor; unfold byte; lia.
Defined.

(** * Further properties of the code *)

(** ** [sign_extend] and [swap16] *)

(** X1.  For a field of [n] bits, [n] from 1 to 15, [sign_extend] gives a
    16-bit word whose value in 16-bit two's complement is the value of the
    field in [n]-bit two's complement, and whose low [n] bits are the
    field. *)
Theorem sign_extend_is_twos_complement x n :
  1 <= n <= 15 -> 0 <= x < 2 ^ n ->
  word (sign_extend x n) /\
  signed (sign_extend x n) 16 = signed x n /\
  Z.land (sign_extend x n) (Z.ones n) = x.
Proof.
  intros Hn Hx.
  assert (Hpow : 2 ^ n = 2 * 2 ^ (n - 1)).
  { replace n with (Z.succ (n - 1)) at 1 by lia. apply Z.pow_succ_r. lia. }
  assert (Hpos : 0 < 2 ^ (n - 1)) by (apply Z.pow_pos_nonneg; lia).
  assert (Hmax : 2 ^ (n - 1) <= 2 ^ 14) by (apply Z.pow_le_mono_r; lia).
  change (2 ^ 14) with 16384 in Hmax.
  assert (Hsplit : 65536 = 2 ^ (16 - n) * 2 ^ n).
  { rewrite <- Z.pow_add_r by lia. replace (16 - n + n) with 16 by lia. reflexivity. }
  assert (Hq : 0 < 2 ^ (16 - n)) by (apply Z.pow_pos_nonneg; lia).
  rewrite (sign_extend_value x n Hn Hx). unfold signed, word.
  change (2 ^ (16 - 1)) with 32768. change (2 ^ 16) with 65536.
  rewrite land_ones_mod by lia.
  set (h := 2 ^ (n - 1)) in *.
  destruct (Z.ltb_spec x h) as [Hlt | Hge].
  - repeat split; try lia.
    + destruct (Z.ltb_spec x 32768); lia.
    + apply Z.mod_small. lia.
  - repeat split; try lia.
    + destruct (Z.ltb_spec (x + 65536 - 2 ^ n) 32768); lia.
    + replace (x + 65536 - 2 ^ n) with (x + (2 ^ (16 - n) - 1) * 2 ^ n) by lia.
      rewrite Z.mod_add by lia. apply Z.mod_small. lia.
Qed.

(** The 5-bit field 0x1F is -1: its extension is 0xFFFF. *)
Lemma sign_extend_witness :
  word (sign_extend 0x1F 5) /\
  signed (sign_extend 0x1F 5) 16 = signed 0x1F 5 /\
  Z.land (sign_extend 0x1F 5) (Z.ones 5) = 0x1F.
Proof.
  apply (sign_extend_is_twos_complement 0x1F 5); [lia |].
  change (2 ^ 5) with 32. lia.
Defined.

(** [swap16] on a word is the item [fread16] makes of its two bytes. *)
Lemma swap16_is_raw_item w : word w -> swap16 w = raw_item w.
Proof.
  intros Hw. unfold swap16, raw_item.
  pose proof (high_byte_range w Hw) as Hh.
  assert (El : Z.land w 0xFF = w mod 256) by (apply (land_ones_mod w 8); lia).
  assert (Eh : Z.shiftr w 8 = w / 256) by (apply (Z.shiftr_div_pow2 w 8); lia).
  pose proof (Z.mod_pos_bound w 256 ltac:(lia)) as Hl.
  pose proof (Z.div_mod w 256 ltac:(lia)) as Ew.
  rewrite <- (Z.add_0_r (Z.lor _ _)), <- (land_shiftl_byte w (Z.shiftr w 8) Hh).
  rewrite Z.add_lor_land, Z.shiftl_mul_pow2 by lia. change (2 ^ 8) with 256.
  rewrite El, Eh in *. unfold u16.
  replace (w * 256 + w / 256)
    with (w / 256 + 256 * (w mod 256) + (w / 256) * 65536) by lia.
  rewrite Z.mod_add by lia. apply Z.mod_small. lia.
Qed.

(** X2.  On a 16-bit word [swap16] exchanges the two bytes, and applied
    twice it gives the word back. *)
Theorem swap16_exchanges_bytes w :
  word w ->
  swap16 w = 256 * (w mod 256) + w / 256 /\
  word (swap16 w) /\
  swap16 (swap16 w) = w.
Proof.
  intros Hw.
  assert (El : Z.land w 0xFF = w mod 256) by (apply (land_ones_mod w 8); lia).
  assert (Eh : Z.shiftr w 8 = w / 256) by (apply (Z.shiftr_div_pow2 w 8); lia).
  split; [| split].
  - rewrite (swap16_is_raw_item w Hw). unfold raw_item. rewrite El, Eh. lia.
  - apply u16_word.
  - rewrite (swap16_is_raw_item w Hw). apply swap16_raw_item. exact Hw.
Qed.

(** 0x1234 becomes 0x3412 and comes back. *)
Lemma swap16_witness :
  swap16 0x1234 = 256 * (0x1234 mod 256) + 0x1234 / 256 /\
  word (swap16 0x1234) /\
  swap16 (swap16 0x1234) = 0x1234.
Proof. apply swap16_exchanges_bytes. unfold word. lia. Defined.

(** ** Memory: stores, reads and the keyboard registers *)

(** A read of an address other than KBSR is a read of the cell. *)
Lemma mem_read_plain a w m :
  a <> MR_KBSR ->
  memory m !! Z.to_nat a = Some w ->
  mem_read a m = Ok w m.
Proof.
  intros Hne Hw. unfold mem_read. apply Z.eqb_neq in Hne. rewrite Hne.
  unfold bind, ret, cell_read. rewrite Hw. reflexivity.
Qed.

(** X4.  A store followed by a read: for an address of the array other
    than KBSR, [mem_read] right after [_mem_write] delivers the value just
    written, and a read of a different such address delivers what the
    cell held before the store. *)
Theorem mem_write_then_read a v m :
  length (memory m) = Z.to_nat UINT16_MAX ->
  0 <= a < UINT16_MAX ->
  a <> MR_KBSR ->
  let stored := with_memory (<[Z.to_nat a := v]> (memory m)) m in
  (_mem_write a v ;; mem_read a) m = Ok v stored /\
  (forall b w,
     0 <= b -> b <> a -> b <> MR_KBSR ->
     memory m !! Z.to_nat b = Some w ->
     (_mem_write a v ;; mem_read b) m = Ok w stored).
Proof.
  intros Hlen Ha Hne stored.
  assert (Hlt : (Z.to_nat a < length (memory m))%nat)
    by (rewrite Hlen; unfold UINT16_MAX in *; lia).
  assert (Hw : _mem_write a v m = Ok tt stored) by (apply cell_write_lt; exact Hlt).
  split.
  - rewrite (bind_ok _ _ _ _ _ Hw). apply mem_read_plain; [exact Hne |].
    unfold stored. cbn [memory with_memory]. apply list_lookup_insert_eq. exact Hlt.
  - intros b w Hb Hba Hbk Hcell.
    rewrite (bind_ok _ _ _ _ _ Hw). apply mem_read_plain; [exact Hbk |].
    unfold stored. cbn [memory with_memory].
    rewrite list_lookup_insert_ne by lia. exact Hcell.
Qed.

(** A store at 0x4000 in a sample machine, read back; the cell at 0x3000
    still holds the instruction. *)
Lemma mem_write_then_read_witness :
  let m := sample [0x127F] [] in
  let stored := with_memory (<[Z.to_nat 0x4000 := 0xBEEF]> (memory m)) m in
  (_mem_write 0x4000 0xBEEF ;; mem_read 0x4000) m = Ok 0xBEEF stored /\
  (_mem_write 0x4000 0xBEEF ;; mem_read 0x3000) m = Ok 0x127F stored.
Proof.
  intros m stored.
  destruct (mem_write_then_read 0x4000 0xBEEF m) as [Hsame Hother].
  - apply wf_memory_length, sample_wf; repeat constructor; unfold word; lia.
  - unfold UINT16_MAX. lia.
  - discriminate.
  - split; [exact Hsame |].
    apply Hother; [lia | discriminate | discriminate |].
    vm_compute. reflexivity.
Defined.

(** A read of KBSR when the poll finds a key. *)
Lemma mem_read_kbsr_ready m ps :
  length (memory m) = Z.to_nat UINT16_MAX ->
  polls m = true :: ps ->
  mem_read MR_KBSR m =
    Ok 0x8000
      (Machine
         (<[Z.to_nat MR_KBDR := u16 (hd EOF (stdin m))]>
            (<[Z.to_nat MR_KBSR := 0x8000]> (memory m)))
         (registers m) (tl (stdin m)) ps (stdout m) (flushed m)).
Proof.
  intros Hlen Hp. destruct keyboard_registers_in_bounds as [Hsr Hdr].
  unfold mem_read. change (MR_KBSR =? MR_KBSR) with true. cbv iota.
  unfold bind at 1. unfold bind at 1. unfold check_key. rewrite Hp.
  unfold bind at 1. unfold cell_write at 1.
  cbn [memory registers stdin polls stdout].
  rewrite decide_True by (rewrite Hlen; exact Hsr).
  unfold bind at 1. unfold getchar. cbn [memory registers stdin polls stdout with_memory].
  change (Z.shiftl 1 15) with 0x8000.
  destruct (stdin m) as [| c rest]; cbn [hd tl];
    unfold cell_write; cbn [memory registers stdin polls stdout with_memory];
    (rewrite decide_True by (rewrite length_insert, Hlen; exact Hdr));
    unfold cell_read; cbn [memory registers stdin polls stdout with_memory];
    (rewrite list_lookup_insert_ne by (unfold MR_KBSR, MR_KBDR; lia));
    (rewrite list_lookup_insert_eq by (rewrite Hlen; exact Hsr));
    reflexivity.
Qed.

(** A read of KBSR when the poll finds no key. *)
Lemma mem_read_kbsr_idle m :
  length (memory m) = Z.to_nat UINT16_MAX ->
  hd false (polls m) = false ->
  mem_read MR_KBSR m =
    Ok 0
      (Machine (<[Z.to_nat MR_KBSR := 0]> (memory m))
         (registers m) (stdin m) (tl (polls m)) (stdout m) (flushed m)).
Proof.
  intros Hlen Hp. destruct keyboard_registers_in_bounds as [Hsr Hdr].
  destruct m as [mem regs input keys out sent].
  cbn [memory registers stdin polls stdout flushed] in *.
  unfold mem_read. change (MR_KBSR =? MR_KBSR) with true. cbv iota.
  unfold bind at 1. unfold bind at 1. unfold check_key.
  cbn [memory registers stdin polls stdout].
  destruct keys as [| key ps]; cbn [hd tl] in *; [| subst key];
    unfold cell_write; cbn [memory registers stdin polls stdout with_memory];
    (rewrite decide_True by (rewrite Hlen; exact Hsr));
    unfold cell_read; cbn [memory registers stdin polls stdout with_memory];
    (rewrite list_lookup_insert_eq by (rewrite Hlen; exact Hsr));
    reflexivity.
Qed.

(** X5.  The keyboard registers, read the way a guest polls them, KBSR and
    then KBDR.  When the poll finds a key, KBSR reads 0x8000 and KBDR the
    next byte of the input, which is consumed; at the end of the input
    KBDR reads 0xFFFF.  When the poll finds no key, KBSR reads 0, no byte
    is consumed and KBDR reads what it held before. *)
Theorem keyboard_poll_and_data m :
  length (memory m) = Z.to_nat UINT16_MAX ->
  let poll :=
    (status <- mem_read MR_KBSR ;; data <- mem_read MR_KBDR ;; ret (status, data)) in
  (forall ps c rest,
     polls m = true :: ps -> stdin m = c :: rest ->
     exists m', poll m = Ok (0x8000, u16 c) m' /\
                stdin m' = rest /\ polls m' = ps /\
                registers m' = registers m /\ stdout m' = stdout m) /\
  (forall ps,
     polls m = true :: ps -> stdin m = [] ->
     exists m', poll m = Ok (0x8000, 0xFFFF) m' /\ stdin m' = []) /\
  (forall old,
     hd false (polls m) = false ->
     memory m !! Z.to_nat MR_KBDR = Some old ->
     exists m', poll m = Ok (0, old) m' /\
                stdin m' = stdin m /\ polls m' = tl (polls m)).
Proof.
  intros Hlen poll. destruct keyboard_registers_in_bounds as [Hsr Hdr].
  assert (Hne : MR_KBDR <> MR_KBSR) by discriminate.
  assert (Hready : forall ps, polls m = true :: ps ->
            exists m', poll m = Ok (0x8000, u16 (hd EOF (stdin m))) m' /\
                       stdin m' = tl (stdin m) /\ polls m' = ps /\
                       registers m' = registers m /\ stdout m' = stdout m).
  { intros ps Hp. unfold poll.
    rewrite (bind_ok _ _ _ _ _ (mem_read_kbsr_ready m ps Hlen Hp)).
    erewrite bind_ok.
    2: { apply mem_read_plain; [exact Hne |]. cbn [memory].
         apply list_lookup_insert_eq. rewrite length_insert, Hlen. exact Hdr. }
    eexists. split; [reflexivity |]. cbn [stdin polls registers stdout]. auto. }
  split; [| split].
  - intros ps c rest Hp Hin.
    destruct (Hready ps Hp) as (m' & Hpoll & Hs & Hrest).
    rewrite Hin in *. exists m'. auto.
  - intros ps Hp Hin.
    destruct (Hready ps Hp) as (m' & Hpoll & Hs & _).
    rewrite Hin in *. exists m'. auto.
  - intros old Hp Hold. unfold poll.
    rewrite (bind_ok _ _ _ _ _ (mem_read_kbsr_idle m Hlen Hp)).
    erewrite bind_ok.
    2: { apply mem_read_plain; [exact Hne |]. cbn [memory].
         rewrite list_lookup_insert_ne by (unfold MR_KBSR, MR_KBDR; lia).
         exact Hold. }
    eexists. split; [reflexivity |]. cbn [stdin polls]. auto.
Qed.

(** A key [A] waiting: the status is 0x8000, the data 0x41, and the input
    is used up. *)
Lemma keyboard_poll_witness :
  let m := Machine zero_memory zero_registers [0x41] [true] [] 0 in
  exists m',
    (status <- mem_read MR_KBSR ;; data <- mem_read MR_KBDR ;; ret (status, data)) m
      = Ok (0x8000, 0x41) m' /\
    stdin m' = [].
Proof.
  intros m.
  destruct (keyboard_poll_and_data m zero_memory_length) as (Hready & _ & _).
  destruct (Hready [] 0x41 [] eq_refl eq_refl) as (m' & Hpoll & Hin & _).
  exists m'. split; [exact Hpoll | exact Hin].
Defined.

(** X6.  A value the guest stores in KBSR is lost at the next read of
    KBSR, which delivers the answer of the poll: 0x8000 with a key, 0
    without. *)
Theorem kbsr_store_is_overwritten v m :
  length (memory m) = Z.to_nat UINT16_MAX ->
  exists m',
    (_mem_write MR_KBSR v ;; mem_read MR_KBSR) m
      = Ok (if hd false (polls m) then 0x8000 else 0) m' /\
    memory m' !! Z.to_nat MR_KBSR
      = Some (if hd false (polls m) then 0x8000 else 0).
Proof.
  intros Hlen. destruct keyboard_registers_in_bounds as [Hsr Hdr].
  set (m1 := with_memory (<[Z.to_nat MR_KBSR := v]> (memory m)) m).
  assert (Hw : _mem_write MR_KBSR v m = Ok tt m1)
    by (apply cell_write_lt; rewrite Hlen; exact Hsr).
  assert (Hlen1 : length (memory m1) = Z.to_nat UINT16_MAX)
    by (unfold m1; cbn [memory with_memory]; rewrite length_insert; exact Hlen).
  rewrite (bind_ok _ _ _ _ _ Hw).
  change (polls m) with (polls m1).
  destruct (polls m1) as [| [|] ps] eqn:Hp; cbn [hd].
  - rewrite (mem_read_kbsr_idle m1 Hlen1) by (rewrite Hp; reflexivity).
    eexists. split; [reflexivity |]. cbn [memory].
    apply list_lookup_insert_eq. rewrite Hlen1. exact Hsr.
  - rewrite (mem_read_kbsr_ready m1 ps Hlen1 Hp).
    eexists. split; [reflexivity |]. cbn [memory].
    rewrite list_lookup_insert_ne by (unfold MR_KBSR, MR_KBDR; lia).
    apply list_lookup_insert_eq. rewrite Hlen1. exact Hsr.
  - rewrite (mem_read_kbsr_idle m1 Hlen1) by (rewrite Hp; reflexivity).
    eexists. split; [reflexivity |]. cbn [memory].
    apply list_lookup_insert_eq. rewrite Hlen1. exact Hsr.
Qed.

(** 0x1234 stored in KBSR with no key waiting: the next read gives 0. *)
Lemma kbsr_store_witness :
  exists m',
    (_mem_write MR_KBSR 0x1234 ;; mem_read MR_KBSR) (sample [] []) = Ok 0 m'.
Proof.
  destruct (kbsr_store_is_overwritten 0x1234 (sample [] [])) as (m' & H & _).
  - apply wf_memory_length, sample_wf; constructor.
  - exists m'. exact H.
Defined.

(** ** Arithmetic instructions *)

(** Adding a sign-extended field is adding its signed value. *)
Lemma add_sign_extend a x n :
  1 <= n <= 15 -> 0 <= x < 2 ^ n ->
  u16 (a + sign_extend x n) = (a + signed x n) mod 65536.
Proof.
  intros Hn Hx. rewrite (sign_extend_value x n Hn Hx). unfold u16, signed.
  destruct (x <? 2 ^ (n - 1)); [reflexivity |].
  replace (a + (x + 65536 - 2 ^ n)) with (a + (x - 2 ^ n) + 1 * 65536) by lia.
  apply Z.mod_add. lia.
Qed.

Lemma field5_range a : 0 <= Z.land a 0x1F < 32.
Proof.
  assert (E : Z.land a 0x1F = a mod 32) by (apply (land_ones_mod a 5); lia).
  rewrite E. apply Z.mod_pos_bound. lia.
Qed.

(** X7.  ADD writes to DR the sum modulo 2^16 of SR1 and its second
    operand, which is SR2 when bit 5 is clear and, when bit 5 is set, the
    immediate read as a signed 5-bit number, from -16 to 15; COND becomes
    the flag of the sum and nothing else changes. *)
Theorem add_is_addition_modulo_2_16 instr m a b :
  wf m ->
  Z.shiftr instr 12 = ADD ->
  registers m !! Z.to_nat (field_SR1 instr) = Some a ->
  registers m !! Z.to_nat (field_SR2 instr) = Some b ->
  let operand :=
    if Z.land (Z.shiftr instr 5) 0x1 =? 1
    then signed (Z.land instr 0x1F) 5 else b in
  execute instr m = Ok true (written instr m ((a + operand) mod 65536)) /\
  -16 <= signed (Z.land instr 0x1F) 5 <= 15.
Proof.
  intros Hwf Hop Ha Hb operand.
  pose proof (field5_range instr) as Himm.
  split.
  - rewrite (execute_ADD _ Hop).
    rewrite (bind_ok _ _ _ _ _
               (add_run instr m (wf_registers_length m Hwf) a b Ha Hb)).
    unfold add_result, operand, truthy.
    destruct (bit_range (Z.shiftr instr 5)) as [-> | ->].
    + reflexivity.
    + change (negb (1 =? 0)) with true. change (1 =? 1) with true. cbv iota.
      rewrite add_sign_extend; [reflexivity | lia |].
      change (2 ^ 5) with 32. exact Himm.
  - unfold signed. change (2 ^ (5 - 1)) with 16. change (2 ^ 5) with 32.
    destruct (Z.ltb_spec (Z.land instr 0x1F) 16); lia.
Qed.

(** ADD R1,R1,#-1 with R1 = 0: the sum is 0xFFFF. *)
Lemma add_witness :
  execute 0x127F (sample [0x127F] [])
    = Ok true (written 0x127F (sample [0x127F] []) 0xFFFF).
Proof.
  destruct (add_is_addition_modulo_2_16 0x127F (sample [0x127F] []) 0 0)
    as [Hrun _].
  - apply sample_wf; repeat constructor; unfold word; lia.
  - reflexivity.
  - reflexivity.
  - reflexivity.
  - exact Hrun.
Defined.

(** The complement of a word, in 16 bits. *)
Lemma lnot_word a : word a -> u16 (Z.lnot a) = 65535 - a.
Proof.
  unfold word, u16, Z.lnot. intros Ha.
  replace (Z.pred (- a)) with (65535 - a + (-1) * 65536) by lia.
  rewrite Z.mod_add by lia. apply Z.mod_small. lia.
Qed.

(** X8.  NOT writes to DR the 16-bit complement of SR, [0xFFFF - SR], and
    sets COND from it; applied twice to one register it gives the
    register its value back, with COND the flag of that value. *)
Theorem not_is_complement instr m a :
  wf m ->
  Z.shiftr instr 12 = NOT ->
  registers m !! Z.to_nat (field_SR1 instr) = Some a ->
  execute instr m = Ok true (written instr m (65535 - a)) /\
  (field_DR instr = field_SR1 instr ->
   execute instr (written instr m (65535 - a))
     = Ok true (written instr (written instr m (65535 - a)) a)).
Proof.
  intros Hwf Hop Ha.
  pose proof (wf_registers_length m Hwf) as Hlen.
  assert (Wa : word a).
  { pose proof (wf_registers_words m Hwf) as Hw. rewrite Forall_lookup in Hw.
    exact (Hw _ _ Ha). }
  assert (Wc : word (65535 - a)) by (unfold word in *; lia).
  split.
  - rewrite (execute_NOT _ Hop), (bind_ok _ _ _ _ _ (not_run instr m Hlen a Ha)).
    rewrite (lnot_word a Wa). reflexivity.
  - intros Hsame.
    assert (Hlen1 : length (registers (written instr m (65535 - a))) = Z.to_nat COUNT)
      by (unfold written; cbn [registers with_registers];
          rewrite !length_insert; exact Hlen).
    assert (Ha1 : registers (written instr m (65535 - a))
                    !! Z.to_nat (field_SR1 instr) = Some (65535 - a))
      by (rewrite <- Hsame; apply (written_flag instr m Hlen)).
    rewrite (execute_NOT _ Hop),
      (bind_ok _ _ _ _ _ (not_run instr _ Hlen1 (65535 - a) Ha1)).
    rewrite (lnot_word _ Wc). replace (65535 - (65535 - a)) with a by lia.
    reflexivity.
Qed.

(** NOT R1,R1 with R1 = 0x00FF: R1 becomes 0xFF00. *)
Lemma not_witness :
  execute 0x927F (sample [0x927F] [(R1, 0x00FF)])
    = Ok true (written 0x927F (sample [0x927F] [(R1, 0x00FF)]) 0xFF00).
Proof.
  destruct (not_is_complement 0x927F (sample [0x927F] [(R1, 0x00FF)]) 0x00FF)
    as [Hrun _].
  - apply sample_wf; repeat constructor; unfold word; simpl; lia.
  - reflexivity.
  - reflexivity.
  - exact Hrun.
Defined.

(** ** STR and LDR *)

Lemma execute_STR instr :
  Z.shiftr instr 12 = STR -> execute instr = (Op.str instr ;; ret true).
Proof. unfold execute. intros ->. reflexivity. Qed.

Lemma execute_JMP instr :
  Z.shiftr instr 12 = JMP -> execute instr = (Op.jmp instr ;; ret true).
Proof. unfold execute. intros ->. reflexivity. Qed.

(** STR inside the array: the cell at base plus offset takes the value
    of the register of bits 11..9. *)
Lemma str_run instr m b v :
  registers m !! Z.to_nat (field_SR1 instr) = Some b ->
  registers m !! Z.to_nat (field_DR instr) = Some v ->
  (Z.to_nat (u16 (b + sign_extend (Z.land instr 0x3F) 6)) < length (memory m))%nat ->
  Op.str instr m =
    Ok tt (with_memory
             (<[Z.to_nat (u16 (b + sign_extend (Z.land instr 0x3F) 6)) := v]>
                (memory m)) m).
Proof.
  intros Hb Hv Hlt. unfold Op.str. fold (field_DR instr) (field_SR1 instr).
  rewrite (bind_ok _ _ _ _ _ (reg_read_some _ _ _ Hb)).
  rewrite (bind_ok _ _ _ _ _ (reg_read_some _ _ _ Hv)).
  apply cell_write_lt. exact Hlt.
Qed.

(** LDR from a cell other than KBSR. *)
Lemma ldr_run instr m b w :
  length (registers m) = Z.to_nat COUNT ->
  registers m !! Z.to_nat (field_SR1 instr) = Some b ->
  u16 (b + sign_extend (Z.land instr 0x3F) 6) <> MR_KBSR ->
  memory m !! Z.to_nat (u16 (b + sign_extend (Z.land instr 0x3F) 6)) = Some w ->
  word w ->
  Op.ldr instr m = Ok tt (written instr m w).
Proof.
  intros Hlen Hb Hne Hw Ww. unfold Op.ldr. fold (field_DR instr) (field_SR1 instr).
  rewrite (bind_ok _ _ _ _ _ (reg_read_some _ _ _ Hb)).
  rewrite (bind_ok _ _ _ _ _ (mem_read_plain _ _ _ Hne Hw)).
  apply write_result_run; [exact Hlen | apply field3_range | exact Ww].
Qed.

(** X9.  A STR followed by a LDR with the same base register and the
    same 6-bit offset, at an address of the array other than KBSR: the
    store changes that one cell only, and the load gives its destination
    register the value stored and COND the flag of that value. *)
Theorem str_then_ldr s l m b v :
  wf m ->
  Z.shiftr s 12 = STR ->
  Z.shiftr l 12 = LDR ->
  field_SR1 l = field_SR1 s ->
  Z.land l 0x3F = Z.land s 0x3F ->
  registers m !! Z.to_nat (field_SR1 s) = Some b ->
  registers m !! Z.to_nat (field_DR s) = Some v ->
  let a := u16 (b + sign_extend (Z.land s 0x3F) 6) in
  a <> UINT16_MAX ->
  a <> MR_KBSR ->
  let stored := with_memory (<[Z.to_nat a := v]> (memory m)) m in
  execute s m = Ok true stored /\
  execute l stored = Ok true (written l stored v) /\
  registers (written l stored v) !! Z.to_nat (field_DR l) = Some v /\
  registers (written l stored v) !! Z.to_nat COND = Some (flag_of v).
Proof.
  intros Hwf Hs Hl Hbase Hoff Hb Hv a Hmax Hkb stored.
  pose proof (wf_registers_length m Hwf) as Hlen.
  pose proof (wf_memory_length m Hwf) as Hmem.
  assert (Wv : word v).
  { pose proof (wf_registers_words m Hwf) as Hw. rewrite Forall_lookup in Hw.
    exact (Hw _ _ Hv). }
  assert (Ha : 0 <= a < 65535).
  { pose proof (u16_word (b + sign_extend (Z.land s 0x3F) 6)) as W.
    fold a in W. unfold word in W. unfold UINT16_MAX in Hmax. lia. }
  assert (Hlt : (Z.to_nat a < length (memory m))%nat)
    by (rewrite Hmem; unfold UINT16_MAX; lia).
  split; [| split].
  - rewrite (execute_STR _ Hs).
    rewrite (bind_ok _ _ _ _ _ (str_run s m b v Hb Hv Hlt)). reflexivity.
  - rewrite (execute_LDR _ Hl).
    assert (Hrun : Op.ldr l stored = Ok tt (written l stored v)).
    { apply (ldr_run l stored b v).
      - exact Hlen.
      - rewrite Hbase. exact Hb.
      - rewrite Hoff. exact Hkb.
      - rewrite Hoff. unfold stored. cbn [memory with_memory].
        apply list_lookup_insert_eq. exact Hlt.
      - exact Wv. }
    rewrite (bind_ok _ _ _ _ _ Hrun). reflexivity.
  - apply (written_flag l stored). exact Hlen.
Qed.

(** STR R1,R2,#1 then LDR R3,R2,#1 with R1 = 0xBEEF and R2 = 0x4000. *)
Lemma str_then_ldr_witness :
  let m := sample [0x7281; 0x6681] [(R1, 0xBEEF); (R2, 0x4000)] in
  let stored := with_memory (<[Z.to_nat 0x4001 := 0xBEEF]> (memory m)) m in
  execute 0x7281 m = Ok true stored /\
  execute 0x6681 stored = Ok true (written 0x6681 stored 0xBEEF) /\
  registers (written 0x6681 stored 0xBEEF) !! Z.to_nat R3 = Some 0xBEEF /\
  registers (written 0x6681 stored 0xBEEF) !! Z.to_nat COND = Some FL_NEG.
Proof.
  apply (str_then_ldr 0x7281 0x6681
           (sample [0x7281; 0x6681] [(R1, 0xBEEF); (R2, 0x4000)]) 0x4000 0xBEEF).
  - apply sample_wf; repeat constructor; unfold word; simpl; lia.
  - reflexivity.
  - reflexivity.
  - reflexivity.
  - reflexivity.
  - reflexivity.
  - reflexivity.
  - discriminate.
  - discriminate.
Defined.

(** ** Subroutine call and return *)

(** JSR and JSRR: R7 takes the PC, then the PC takes the target, which
    JSRR reads from its base register after R7 was written. *)
Lemma jsr_run instr m pc target :
  length (registers m) = Z.to_nat COUNT ->
  registers m !! Z.to_nat PC = Some pc ->
  (if Z.land (Z.shiftr instr 11) 1 =? 1
   then target = u16 (pc + sign_extend (Z.land instr 0x7FF) 11)
   else <[Z.to_nat R7 := pc]> (registers m) !! Z.to_nat (field_SR1 instr)
          = Some target) ->
  Op.jsr instr m =
    Ok tt (with_registers
             (<[Z.to_nat PC := target]> (<[Z.to_nat R7 := pc]> (registers m))) m).
Proof.
  intros Hlen Hpc Htarget. unfold Op.jsr. fold (field_SR1 instr).
  rewrite (bind_ok _ _ _ _ _ (reg_read_some _ _ _ Hpc)).
  assert (H7 : (Z.to_nat R7 < length (registers m))%nat)
    by (rewrite Hlen; unfold R7, COUNT; lia).
  rewrite (bind_ok _ _ _ _ _ (reg_write_lt R7 pc m H7)).
  set (m1 := with_registers (<[Z.to_nat R7 := pc]> (registers m)) m).
  assert (Hpc1 : registers m1 !! Z.to_nat PC = Some pc).
  { unfold m1. cbn [registers with_registers].
    rewrite list_lookup_insert_ne by (unfold R7, PC; lia). exact Hpc. }
  assert (HP : (Z.to_nat PC < length (registers m1))%nat)
    by (apply (lookup_lt_Some _ _ _ Hpc1)).
  unfold truthy.
  destruct (bit_range (Z.shiftr instr 11)) as [E | E]; rewrite E in *.
  - change (negb (0 =? 0)) with false. change (0 =? 1) with false in Htarget.
    cbv iota in *.
    rewrite (bind_ok _ _ _ _ _ (reg_read_some _ _ m1 Htarget)).
    rewrite (reg_write_lt PC target m1 HP). reflexivity.
  - change (negb (1 =? 0)) with true. change (1 =? 1) with true in Htarget.
    cbv iota in *. subst target.
    rewrite (bind_ok _ _ _ _ _ (reg_read_some _ _ m1 Hpc1)).
    rewrite (reg_write_lt PC _ m1 HP). reflexivity.
Qed.

Lemma jmp_run instr m a :
  registers m !! Z.to_nat PC <> None ->
  registers m !! Z.to_nat (field_SR1 instr) = Some a ->
  Op.jmp instr m = Ok tt (with_registers (<[Z.to_nat PC := a]> (registers m)) m).
Proof.
  intros Hpc Ha. unfold Op.jmp. fold (field_SR1 instr).
  rewrite (bind_ok _ _ _ _ _ (reg_read_some _ _ _ Ha)).
  apply reg_write_lt. apply lookup_lt_is_Some. 
  destruct (registers m !! Z.to_nat PC); [eexists; reflexivity | contradiction].
Qed.

(** X10.  Call and return: when the loop fetches a JSR or JSRR whose
    target holds RET (JMP through R7), two turns later the PC is the
    address after the call, R7 still holds it, and the memory and the
    console are as they were.  Neither address is KBSR. *)
Theorem jsr_then_ret_comes_back m pc0 j target r :
  length (registers m) = Z.to_nat COUNT ->
  registers m !! Z.to_nat PC = Some pc0 ->
  pc0 <> MR_KBSR ->
  memory m !! Z.to_nat pc0 = Some j ->
  Z.shiftr j 12 = JSR ->
  (if Z.land (Z.shiftr j 11) 1 =? 1
   then target = u16 (u16 (pc0 + 1) + sign_extend (Z.land j 0x7FF) 11)
   else <[Z.to_nat R7 := u16 (pc0 + 1)]> (registers m) !! Z.to_nat (field_SR1 j)
          = Some target) ->
  target <> MR_KBSR ->
  memory m !! Z.to_nat target = Some r ->
  Z.shiftr r 12 = JMP ->
  field_SR1 r = R7 ->
  exists m',
    run 2 m = Running m' /\
    registers m' !! Z.to_nat PC = Some (u16 (pc0 + 1)) /\
    registers m' !! Z.to_nat R7 = Some (u16 (pc0 + 1)) /\
    memory m' = memory m /\ stdout m' = stdout m /\ stdin m' = stdin m.
Proof.
  intros Hlen Hpc Hne Hj Hopj Htarget Hnet Hr Hopr Hret.
  set (pc := u16 (pc0 + 1)) in *.
  (* the call *)
  assert (Hf1 : fetch m = Ok j (advance m)) by (apply (fetch_run m pc0 j); assumption).
  assert (Hadv : advance m = with_registers (<[Z.to_nat PC := pc]> (registers m)) m)
    by (unfold advance; rewrite Hpc; reflexivity).
  set (m1 := advance m) in *.
  assert (Hlen1 : length (registers m1) = Z.to_nat COUNT)
    by (rewrite Hadv; cbn [registers with_registers]; rewrite length_insert; exact Hlen).
  assert (HP : (Z.to_nat PC < length (registers m))%nat)
    by (rewrite Hlen; unfold PC, COUNT; lia).
  assert (Hpc1 : registers m1 !! Z.to_nat PC = Some pc).
  { rewrite Hadv. cbn [registers with_registers].
    apply list_lookup_insert_eq. exact HP. }
  assert (Htarget1 :
    if Z.land (Z.shiftr j 11) 1 =? 1
    then target = u16 (pc + sign_extend (Z.land j 0x7FF) 11)
    else <[Z.to_nat R7 := pc]> (registers m1) !! Z.to_nat (field_SR1 j)
           = Some target).
  { destruct (Z.land (Z.shiftr j 11) 1 =? 1); [exact Htarget |].
    pose proof (field3_range (Z.shiftr j 6)) as Hrange. fold (field_SR1 j) in Hrange.
    rewrite Hadv. cbn [registers with_registers].
    destruct (decide (Z.to_nat (field_SR1 j) = Z.to_nat R7)) as [E | E].
    - rewrite E in *. rewrite list_lookup_insert_eq in Htarget
        by (rewrite Hlen; unfold R7, COUNT; lia).
      rewrite list_lookup_insert_eq
        by (rewrite length_insert, Hlen; unfold R7, COUNT; lia).
      exact Htarget.
    - rewrite list_lookup_insert_ne in Htarget by (intros E'; apply E; symmetry; exact E').
      rewrite list_lookup_insert_ne by (intros E'; apply E; symmetry; exact E').
      rewrite list_lookup_insert_ne by (unfold PC; lia).
      exact Htarget. }
  pose proof (jsr_run j m1 pc target Hlen1 Hpc1 Htarget1) as Hcall.
  set (m2 := with_registers
               (<[Z.to_nat PC := target]> (<[Z.to_nat R7 := pc]> (registers m1))) m1) in *.
  (* the return *)
  assert (Hpc2 : registers m2 !! Z.to_nat PC = Some target).
  { unfold m2. cbn [registers with_registers].
    apply list_lookup_insert_eq. rewrite length_insert, Hlen1. unfold PC, COUNT. lia. }
  assert (Hmem2 : memory m2 = memory m)
    by (unfold m2; cbn [memory with_registers]; rewrite Hadv; reflexivity).
  assert (Hf2 : fetch m2 = Ok r (advance m2)).
  { apply (fetch_run m2 target r); [exact Hpc2 | exact Hnet |].
    rewrite Hmem2. exact Hr. }
  assert (Hadv2 : advance m2 =
            with_registers (<[Z.to_nat PC := u16 (target + 1)]> (registers m2)) m2)
    by (unfold advance; rewrite Hpc2; reflexivity).
  set (m3 := advance m2) in *.
  assert (H7 : registers m3 !! Z.to_nat (field_SR1 r) = Some pc).
  { rewrite Hret, Hadv2. cbn [registers with_registers].
    rewrite list_lookup_insert_ne by (unfold R7, PC; lia).
    unfold m2. cbn [registers with_registers].
    rewrite list_lookup_insert_ne by (unfold R7, PC; lia).
    apply list_lookup_insert_eq. rewrite Hlen1. unfold R7, COUNT. lia. }
  assert (Hlen3 : length (registers m3) = Z.to_nat COUNT).
  { rewrite Hadv2. cbn [registers with_registers]. rewrite length_insert.
    unfold m2. cbn [registers with_registers]. rewrite !length_insert. exact Hlen1. }
  assert (HP3 : registers m3 !! Z.to_nat PC <> None).
  { intros Hnone. apply lookup_ge_None_1 in Hnone. rewrite Hlen3 in Hnone.
    unfold PC, COUNT in Hnone. lia. }
  pose proof (jmp_run r m3 pc HP3 H7) as Hback.
  exists (with_registers (<[Z.to_nat PC := pc]> (registers m3)) m3).
  split; [| split; [| split; [| split; [| split]]]].
  - cbn [run]. unfold step.
    rewrite (bind_ok _ _ _ _ _ Hf1), (execute_JSR _ Hopj).
    rewrite (bind_ok _ _ _ _ _ Hcall). unfold ret.
    rewrite (bind_ok _ _ _ _ _ Hf2), (execute_JMP _ Hopr).
    rewrite (bind_ok _ _ _ _ _ Hback). reflexivity.
  - cbn [registers with_registers]. apply list_lookup_insert_eq.
    rewrite Hlen3. unfold PC, COUNT. lia.
  - cbn [registers with_registers].
    rewrite list_lookup_insert_ne by (unfold R7, PC; lia).
    rewrite <- Hret. exact H7.
  - cbn [memory with_registers]. rewrite Hadv2. cbn [memory with_registers].
    exact Hmem2.
  - cbn [stdout with_registers]. rewrite Hadv2. unfold m2.
    cbn [stdout with_registers]. rewrite Hadv. reflexivity.
  - cbn [stdin with_registers]. rewrite Hadv2. unfold m2.
    cbn [stdin with_registers]. rewrite Hadv. reflexivity.
Qed.

(** JSR #2 at 0x3000 and RET at 0x3003. *)
Lemma jsr_then_ret_witness :
  let m := sample [0x4802; 0; 0; 0xC1C0] [] in
  exists m',
    run 2 m = Running m' /\
    registers m' !! Z.to_nat PC = Some 0x3001 /\
    registers m' !! Z.to_nat R7 = Some 0x3001 /\
    memory m' = memory m /\ stdout m' = stdout m /\ stdin m' = stdin m.
Proof.
  apply (jsr_then_ret_comes_back (sample [0x4802; 0; 0; 0xC1C0] []) 0x3000
           0x4802 0x3003 0xC1C0).
  - reflexivity.
  - reflexivity.
  - discriminate.
  - reflexivity.
  - reflexivity.
  - reflexivity.
  - discriminate.
  - reflexivity.
  - reflexivity.
  - reflexivity.
Defined.

(** ** The trap routines *)

Lemma trap_GETC instr :
  Z.land instr 0xFF = TRAP_GETC ->
  trap instr = (c <- getchar ;; reg_write R0 (u16 c) ;; ret true).
Proof. unfold trap. intros ->. reflexivity. Qed.

Lemma trap_OUT instr :
  Z.land instr 0xFF = TRAP_OUT ->
  trap instr = (r <- reg_read R0 ;; putc (to_char r) ;; fflush ;; ret true).
Proof. unfold trap. intros ->. reflexivity. Qed.

Lemma trap_PUTS instr :
  Z.land instr 0xFF = TRAP_PUTS ->
  trap instr =
    (r <- reg_read R0 ;; c <- pointer r ;; puts_loop c ;; fflush ;; ret true).
Proof. unfold trap. intros ->. reflexivity. Qed.

Lemma trap_IN instr :
  Z.land instr 0xFF = TRAP_IN ->
  trap instr =
    (printf "Enter a char: " ;;
     g <- getchar ;;
     putc (to_char g) ;; reg_write R0 (u16 (to_char g)) ;; ret true).
Proof. unfold trap. intros ->. reflexivity. Qed.

Lemma trap_HALT instr :
  Z.land instr 0xFF = TRAP_HALT ->
  trap instr = (puts "HALT" ;; fflush ;; ret false).
Proof. unfold trap. intros ->. reflexivity. Qed.

(** What [putc] writes for a value converted to [char]: its low byte. *)
Lemma char_low_byte z : to_uchar (to_char z) = z mod 256.
Proof.
  unfold to_uchar, to_char. rewrite Zminus_mod_idemp_l. f_equal. lia.
Qed.

(** A byte converted to [char] and then to [uint16_t]: from 0x80 on the
    sign is extended. *)
Lemma char_to_word c :
  0 <= c < 256 -> u16 (to_char c) = if c <? 128 then c else 0xFF00 + c.
Proof.
  intros Hc. unfold u16, to_char. destruct (Z.ltb_spec c 128).
  - rewrite (Z.mod_small (c + 128)) by lia.
    replace (c + 128 - 128) with c by lia. apply Z.mod_small. lia.
  - replace (c + 128) with (c - 128 + 1 * 256) by lia.
    rewrite Z.mod_add by lia. rewrite (Z.mod_small (c - 128)) by lia.
    replace (c - 128 - 128) with (0xFF00 + c + (-1) * 65536) by lia.
    rewrite Z.mod_add by lia. apply Z.mod_small. lia.
Qed.

Lemma R0_lt m :
  length (registers m) = Z.to_nat COUNT -> (Z.to_nat R0 < length (registers m))%nat.
Proof. intros ->. unfold R0, COUNT. lia. Qed.

(** X11.  GETC takes the next byte of the input into R0 and, at the end
    of the input, leaves 0xFFFF there; it writes nothing and flushes
    nothing, and it leaves COND and every other register as they were. *)
Theorem getc_takes_a_byte_or_eof instr m :
  length (registers m) = Z.to_nat COUNT ->
  Z.shiftr instr 12 = TRAP ->
  Z.land instr 0xFF = TRAP_GETC ->
  (stdin m = [] ->
   execute instr m =
     Ok true (with_registers (<[Z.to_nat R0 := 0xFFFF]> (registers m)) m)) /\
  (forall c rest, stdin m = c :: rest -> byte c ->
   execute instr m =
     Ok true (Machine (memory m) (<[Z.to_nat R0 := c]> (registers m)) rest
                (polls m) (stdout m) (flushed m))).
Proof.
  intros Hlen Hop Hvec. pose proof (R0_lt m Hlen) as H0.
  rewrite (execute_TRAP _ Hop), (trap_GETC _ Hvec).
  split.
  - intros Hin. unfold bind at 1. unfold getchar. rewrite Hin.
    rewrite (bind_ok _ _ _ _ _ (reg_write_lt R0 (u16 EOF) m H0)). reflexivity.
  - intros c rest Hin Hc. unfold bind at 1. unfold getchar. rewrite Hin.
    rewrite (bind_ok _ _ _ _ _
               (reg_write_lt R0 (u16 c)
                  (Machine (memory m) (registers m) rest (polls m) (stdout m)
                     (flushed m)) H0)).
    unfold byte in Hc. rewrite (u16_id c) by (unfold word; lia). reflexivity.
Qed.

(** GETC with the letter A waiting. *)
Lemma getc_witness :
  execute 0xF020 (Machine zero_memory zero_registers [0x41] [] [] 0)
    = Ok true (Machine zero_memory (<[Z.to_nat R0 := 0x41]> zero_registers) [] [] [] 0).
Proof.
  destruct (getc_takes_a_byte_or_eof 0xF020
              (Machine zero_memory zero_registers [0x41] [] [] 0))
    as [_ Hbyte].
  - reflexivity.
  - reflexivity.
  - reflexivity.
  - apply (Hbyte 0x41 []); [reflexivity | unfold byte; lia].
Defined.

(** X12.  OUT writes one byte, the low byte of R0, flushes the output
    and changes nothing else. *)
Theorem out_writes_low_byte instr m r :
  Z.shiftr instr 12 = TRAP ->
  Z.land instr 0xFF = TRAP_OUT ->
  registers m !! Z.to_nat R0 = Some r ->
  execute instr m =
    Ok true (all_flushed (with_stdout (stdout m ++ [r mod 256]) m)).
Proof.
  intros Hop Hvec Hr.
  rewrite (execute_TRAP _ Hop), (trap_OUT _ Hvec).
  rewrite (bind_ok _ _ _ _ _ (reg_read_some _ _ _ Hr)).
  unfold bind, putc, fflush, ret. rewrite char_low_byte. reflexivity.
Qed.

(** OUT with R0 = 0x1241 writes 0x41. *)
Lemma out_witness :
  let m := sample [0xF021] [(R0, 0x1241)] in
  execute 0xF021 m = Ok true (all_flushed (with_stdout (stdout m ++ [0x41]) m)).
Proof.
  apply (out_writes_low_byte 0xF021 (sample [0xF021] [(R0, 0x1241)]) 0x1241);
    reflexivity.
Defined.

(** The loop of PUTS over the words before the first zero word. *)
Lemma puts_loop_run ws rest : forall m,
  Forall (fun w => w <> 0) ws ->
  puts_loop (ws ++ 0 :: rest) m =
    Ok tt (with_stdout (stdout m ++ map (fun w => w mod 256) ws) m).
Proof.
  induction ws as [| w ws IH]; intros m Hws.
  - simpl. rewrite app_nil_r. destruct m; reflexivity.
  - inversion Hws as [| w' ws' Hnz Hrest]; subst.
    cbn [app puts_loop map].
    assert (Ht : truthy w = true)
      by (unfold truthy; destruct (Z.eqb_spec w 0); [contradiction | reflexivity]).
    rewrite Ht. unfold bind at 1. unfold putc at 1. rewrite char_low_byte.
    rewrite IH by exact Hrest.
    unfold with_stdout. cbn [memory registers stdin polls stdout].
    rewrite <- app_assoc. reflexivity.
Qed.

(** Without a zero word the loop of PUTS leaves the array. *)
Lemma puts_loop_off_the_end ws : forall m,
  Forall (fun w => w <> 0) ws -> exists m', puts_loop ws m = Undefined m'.
Proof.
  induction ws as [| w ws IH]; intros m Hws.
  - exists m. reflexivity.
  - inversion Hws as [| w' ws' Hnz Hrest]; subst. cbn [puts_loop].
    assert (Ht : truthy w = true)
      by (unfold truthy; destruct (Z.eqb_spec w 0); [contradiction | reflexivity]).
    rewrite Ht. unfold bind at 1. unfold putc at 1. apply IH. exact Hrest.
Qed.

(** X13.  PUTS writes one byte for each word from address R0 up to the
    first zero word, the low byte of the word, so that the high byte of
    a word is dropped, and flushes the output; nothing else changes.  When no word from R0 to the
    end of the array is zero, and when R0 is outside the array, the loop
    reads past the end of the array. *)
Theorem puts_writes_low_bytes instr m r :
  Z.shiftr instr 12 = TRAP ->
  Z.land instr 0xFF = TRAP_PUTS ->
  registers m !! Z.to_nat R0 = Some r ->
  (forall ws rest,
     drop (Z.to_nat r) (memory m) = ws ++ 0 :: rest ->
     Forall (fun w => w <> 0) ws ->
     execute instr m =
       Ok true (all_flushed
                  (with_stdout (stdout m ++ map (fun w => w mod 256) ws) m))) /\
  (Forall (fun w => w <> 0) (drop (Z.to_nat r) (memory m)) ->
   exists m', execute instr m = Undefined m').
Proof.
  intros Hop Hvec Hr.
  rewrite (execute_TRAP _ Hop), (trap_PUTS _ Hvec).
  rewrite (bind_ok _ _ _ _ _ (reg_read_some _ _ _ Hr)).
  split.
  - intros ws rest Hdrop Hws.
    unfold bind at 1. unfold pointer at 1. rewrite Hdrop.
    rewrite (bind_ok _ _ _ _ _ (puts_loop_run ws rest m Hws)). reflexivity.
  - intros Hws. unfold bind at 1. unfold pointer at 1.
    destruct (puts_loop_off_the_end _ m Hws) as [m' Hm'].
    exists m'. apply bind_undefined. exact Hm'.
Qed.

(** PUTS over the words 0x0148 and 0x0069: the bytes 0x48 and 0x69. *)
Lemma puts_witness :
  let m := advance (sample [0xF022; 0x0148; 0x0069] [(R0, 0x3001)]) in
  execute 0xF022 m = Ok true (all_flushed (with_stdout [0x48; 0x69] m)).
Proof.
  intros m.
  destruct (puts_writes_low_bytes 0xF022 m 0x3001) as [Hends _].
  - reflexivity.
  - reflexivity.
  - vm_compute. reflexivity.
  - apply (Hends [0x0148; 0x0069] (drop (S (S (S (Z.to_nat 0x3001)))) (memory m))).
    + rewrite (drop_S _ 0x0148) by (vm_compute; reflexivity).
      rewrite (drop_S _ 0x0069) by (vm_compute; reflexivity).
      rewrite (drop_S _ 0) by (vm_compute; reflexivity).
      reflexivity.
    + repeat constructor; lia.
Defined.

(** X14.  IN writes the prompt, takes a byte of the input, echoes it and
    leaves it in R0 after a passage through [char]: a byte below 0x80 as
    it is, a byte from 0x80 on with the high byte 0xFF.  COND stays, and
    nothing is flushed. *)
Theorem in_prompts_echoes_and_stores instr m c rest :
  length (registers m) = Z.to_nat COUNT ->
  Z.shiftr instr 12 = TRAP ->
  Z.land instr 0xFF = TRAP_IN ->
  stdin m = c :: rest ->
  byte c ->
  execute instr m =
    Ok true
      (Machine (memory m)
         (<[Z.to_nat R0 := if c <? 128 then c else 0xFF00 + c]> (registers m))
         rest (polls m)
         (stdout m ++ bytes_of_string "Enter a char: " ++ [c]) (flushed m)).
Proof.
  intros Hlen Hop Hvec Hin Hc. pose proof (R0_lt m Hlen) as H0.
  rewrite (execute_TRAP _ Hop), (trap_IN _ Hvec).
  unfold bind at 1. unfold printf at 1.
  unfold bind at 1. unfold getchar at 1.
  cbn [stdin with_stdout]. rewrite Hin.
  unfold bind at 1. unfold putc at 1.
  cbn [memory registers stdin polls stdout with_stdout].
  rewrite (bind_ok _ _ _ _ _
             (reg_write_lt R0 (u16 (to_char c))
                (Machine (memory m) (registers m) rest (polls m)
                   ((stdout m ++ bytes_of_string "Enter a char: ")
                      ++ [to_uchar (to_char c)]) (flushed m)) H0)).
  unfold ret, with_stdout, with_registers.
  cbn [memory registers stdin polls stdout].
  rewrite (char_round_trip c Hc), (char_to_word c Hc), <- app_assoc. reflexivity.
Qed.

(** IN with the byte 0xE9 waiting: R0 becomes 0xFFE9. *)
Lemma in_witness :
  execute 0xF023 (Machine zero_memory zero_registers [0xE9] [] [] 0)
    = Ok true (Machine zero_memory (<[Z.to_nat R0 := 0xFFE9]> zero_registers) [] []
                 (bytes_of_string "Enter a char: " ++ [0xE9]) 0).
Proof.
  apply (in_prompts_echoes_and_stores 0xF023
           (Machine zero_memory zero_registers [0xE9] [] [] 0) 0xE9 []).
  - reflexivity.
  - reflexivity.
  - reflexivity.
  - reflexivity.
  - unfold byte. lia.
Defined.

(** X15.  HALT ends the loop: when the instruction at the PC is TRAP
    0x25, the run ends in that turn whatever fuel is left, the line HALT
    having been written and the output flushed, and the status of the
    process is 0. *)
Theorem halt_ends_the_run m pc instr fuel :
  registers m !! Z.to_nat PC = Some pc ->
  pc <> MR_KBSR ->
  memory m !! Z.to_nat pc = Some instr ->
  Z.shiftr instr 12 = TRAP ->
  Z.land instr 0xFF = TRAP_HALT ->
  run (S fuel) m =
    Halted (all_flushed
              (with_stdout (stdout m ++ bytes_of_string (String.append "HALT" nl))
                 (advance m))) /\
  exit_status (run (S fuel) m) = Some 0.
Proof.
  intros Hpc Hne Hcell Hop Hvec.
  assert (E : run (S fuel) m =
            Halted (all_flushed
                      (with_stdout
                         (stdout m ++ bytes_of_string (String.append "HALT" nl))
                         (advance m)))).
  { cbn [run]. unfold step.
    rewrite (bind_ok _ _ _ _ _ (fetch_run m pc instr Hpc Hne Hcell)).
    rewrite (execute_TRAP _ Hop), (trap_HALT _ Hvec).
    unfold bind, puts, fflush, ret.
    replace (stdout (advance m)) with (stdout m); [reflexivity |].
    unfold advance. rewrite Hpc. reflexivity. }
  split; [exact E | rewrite E; reflexivity].
Qed.

(** HALT as the first instruction. *)
Lemma halt_witness :
  let m := sample [0xF025] [] in
  run 5 m =
    Halted (all_flushed
              (with_stdout (stdout m ++ bytes_of_string (String.append "HALT" nl))
                 (advance m))) /\
  exit_status (run 5 m) = Some 0.
Proof.
  apply (halt_ends_the_run (sample [0xF025] []) 0x3000 0xF025 4).
  - reflexivity.
  - discriminate.
  - reflexivity.
  - reflexivity.
  - reflexivity.
Defined.

(** X16.  A TRAP whose vector is none of 0x20..0x25 does nothing at
    all: the machine is unchanged, R7 included, and the loop goes on. *)
Theorem unknown_trap_vector_is_skipped instr m :
  Z.shiftr instr 12 = TRAP ->
  Z.land instr 0xFF < 0x20 \/ 0x25 < Z.land instr 0xFF ->
  execute instr m = Ok true m.
Proof.
  intros Hop Hvec. rewrite (execute_TRAP _ Hop). unfold trap.
  unfold TRAP_GETC, TRAP_OUT, TRAP_PUTS, TRAP_IN, TRAP_PUTSP, TRAP_HALT.
  repeat match goal with
         | |- context [?a =? ?b] =>
             rewrite (proj2 (Z.eqb_neq a b)) by lia
         end.
  reflexivity.
Qed.

(** TRAP 0x26. *)
Lemma unknown_trap_vector_witness :
  execute 0xF026 (sample [0xF026] []) = Ok true (sample [0xF026] []).
Proof.
  apply unknown_trap_vector_is_skipped; [reflexivity | right; reflexivity].
Defined.

(** ** ST and LD, STI and LDI *)

Lemma execute_ST instr :
  Z.shiftr instr 12 = ST -> execute instr = (Op.st instr ;; ret true).
Proof. unfold execute. intros ->. reflexivity. Qed.

Lemma execute_STI instr :
  Z.shiftr instr 12 = STI -> execute instr = (Op.sti instr ;; ret true).
Proof. unfold execute. intros ->. reflexivity. Qed.

Lemma st_run instr m pc v :
  registers m !! Z.to_nat PC = Some pc ->
  registers m !! Z.to_nat (field_DR instr) = Some v ->
  (Z.to_nat (u16 (pc + sign_extend (Z.land instr 0x1FF) 9)) < length (memory m))%nat ->
  Op.st instr m =
    Ok tt (with_memory
             (<[Z.to_nat (u16 (pc + sign_extend (Z.land instr 0x1FF) 9)) := v]>
                (memory m)) m).
Proof.
  intros Hpc Hv Hlt. unfold Op.st. fold (field_DR instr).
  rewrite (bind_ok _ _ _ _ _ (reg_read_some _ _ _ Hpc)).
  rewrite (bind_ok _ _ _ _ _ (reg_read_some _ _ _ Hv)).
  apply cell_write_lt. exact Hlt.
Qed.

Lemma ld_run instr m pc w :
  length (registers m) = Z.to_nat COUNT ->
  registers m !! Z.to_nat PC = Some pc ->
  u16 (pc + sign_extend (Z.land instr 0x1FF) 9) <> MR_KBSR ->
  memory m !! Z.to_nat (u16 (pc + sign_extend (Z.land instr 0x1FF) 9)) = Some w ->
  word w ->
  Op.ld instr m = Ok tt (written instr m w).
Proof.
  intros Hlen Hpc Hne Hw Ww. unfold Op.ld. fold (field_DR instr).
  rewrite (bind_ok _ _ _ _ _ (reg_read_some _ _ _ Hpc)).
  rewrite (bind_ok _ _ _ _ _ (mem_read_plain _ _ _ Hne Hw)).
  apply write_result_run; [exact Hlen | apply field3_range | exact Ww].
Qed.

Lemma sti_run instr m pc p v :
  registers m !! Z.to_nat PC = Some pc ->
  u16 (pc + sign_extend (Z.land instr 0x1FF) 9) <> MR_KBSR ->
  memory m !! Z.to_nat (u16 (pc + sign_extend (Z.land instr 0x1FF) 9)) = Some p ->
  registers m !! Z.to_nat (field_DR instr) = Some v ->
  (Z.to_nat p < length (memory m))%nat ->
  Op.sti instr m = Ok tt (with_memory (<[Z.to_nat p := v]> (memory m)) m).
Proof.
  intros Hpc Hne Hp Hv Hlt. unfold Op.sti. fold (field_DR instr).
  rewrite (bind_ok _ _ _ _ _ (reg_read_some _ _ _ Hpc)).
  rewrite (bind_ok _ _ _ _ _ (mem_read_plain _ _ _ Hne Hp)).
  rewrite (bind_ok _ _ _ _ _ (reg_read_some _ _ _ Hv)).
  apply cell_write_lt. exact Hlt.
Qed.

Lemma ldi_run instr m pc p w :
  length (registers m) = Z.to_nat COUNT ->
  registers m !! Z.to_nat PC = Some pc ->
  u16 (pc + sign_extend (Z.land instr 0x1FF) 9) <> MR_KBSR ->
  memory m !! Z.to_nat (u16 (pc + sign_extend (Z.land instr 0x1FF) 9)) = Some p ->
  p <> MR_KBSR ->
  memory m !! Z.to_nat p = Some w ->
  word w ->
  Op.ldi instr m = Ok tt (written instr m w).
Proof.
  intros Hlen Hpc Hne Hp Hnep Hw Ww. unfold Op.ldi. fold (field_DR instr).
  rewrite (bind_ok _ _ _ _ _ (reg_read_some _ _ _ Hpc)).
  rewrite (bind_ok _ _ _ _ _ (mem_read_plain _ _ _ Hne Hp)).
  rewrite (bind_ok _ _ _ _ _ (mem_read_plain _ _ _ Hnep Hw)).
  apply write_result_run; [exact Hlen | apply field3_range | exact Ww].
Qed.

Lemma wf_register_word m r v :
  wf m -> registers m !! r = Some v -> word v.
Proof.
  intros Hwf Hv. pose proof (wf_registers_words m Hwf) as Hw.
  rewrite Forall_lookup in Hw. exact (Hw _ _ Hv).
Qed.

Lemma wf_cell_word m a v :
  wf m -> memory m !! a = Some v -> word v.
Proof.
  intros Hwf Hv. pose proof (wf_memory_words m Hwf) as Hw.
  rewrite Forall_lookup in Hw. exact (Hw _ _ Hv).
Qed.

(** X17.  A ST followed by a LD with the same 9-bit offset and the same
    PC, at an address of the array other than KBSR: the store changes
    the cell at PC plus offset and nothing else, and the load gives its
    destination register the value stored and COND its flag. *)
Theorem st_then_ld s l m pc v :
  wf m ->
  Z.shiftr s 12 = ST ->
  Z.shiftr l 12 = LD ->
  Z.land l 0x1FF = Z.land s 0x1FF ->
  registers m !! Z.to_nat PC = Some pc ->
  registers m !! Z.to_nat (field_DR s) = Some v ->
  let a := u16 (pc + sign_extend (Z.land s 0x1FF) 9) in
  a <> UINT16_MAX ->
  a <> MR_KBSR ->
  let stored := with_memory (<[Z.to_nat a := v]> (memory m)) m in
  execute s m = Ok true stored /\
  execute l stored = Ok true (written l stored v) /\
  registers (written l stored v) !! Z.to_nat (field_DR l) = Some v /\
  registers (written l stored v) !! Z.to_nat COND = Some (flag_of v).
Proof.
  intros Hwf Hs Hl Hoff Hpc Hv a Hmax Hkb stored.
  pose proof (wf_registers_length m Hwf) as Hlen.
  pose proof (wf_memory_length m Hwf) as Hmem.
  pose proof (wf_register_word m _ v Hwf Hv) as Wv.
  assert (Ha : 0 <= a < 65535).
  { pose proof (u16_word (pc + sign_extend (Z.land s 0x1FF) 9)) as W.
    fold a in W. unfold word in W. unfold UINT16_MAX in Hmax. lia. }
  assert (Hlt : (Z.to_nat a < length (memory m))%nat)
    by (rewrite Hmem; unfold UINT16_MAX; lia).
  split; [| split].
  - rewrite (execute_ST _ Hs).
    rewrite (bind_ok _ _ _ _ _ (st_run s m pc v Hpc Hv Hlt)). reflexivity.
  - rewrite (execute_LD _ Hl).
    assert (Hrun : Op.ld l stored = Ok tt (written l stored v)).
    { apply (ld_run l stored pc v).
      - exact Hlen.
      - exact Hpc.
      - rewrite Hoff. exact Hkb.
      - rewrite Hoff. unfold stored. cbn [memory with_memory].
        apply list_lookup_insert_eq. exact Hlt.
      - exact Wv. }
    rewrite (bind_ok _ _ _ _ _ Hrun). reflexivity.
  - apply (written_flag l stored). exact Hlen.
Qed.

(** ST R1,#5 then LD R3,#5 with R1 = 0x0042, the PC being 0x3000. *)
Lemma st_then_ld_witness :
  let m := sample [0x3205; 0x2605] [(R1, 0x0042)] in
  let stored := with_memory (<[Z.to_nat 0x3005 := 0x0042]> (memory m)) m in
  execute 0x3205 m = Ok true stored /\
  execute 0x2605 stored = Ok true (written 0x2605 stored 0x0042) /\
  registers (written 0x2605 stored 0x0042) !! Z.to_nat R3 = Some 0x0042 /\
  registers (written 0x2605 stored 0x0042) !! Z.to_nat COND = Some FL_POS.
Proof.
  apply (st_then_ld 0x3205 0x2605 (sample [0x3205; 0x2605] [(R1, 0x0042)])
           0x3000 0x0042).
  - apply sample_wf; repeat constructor; unfold word; simpl; lia.
  - reflexivity.
  - reflexivity.
  - reflexivity.
  - reflexivity.
  - reflexivity.
  - discriminate.
  - discriminate.
Defined.

(** X18.  A STI followed by a LDI through the same pointer cell: when the
    cell at PC plus offset holds the address [p], neither being KBSR, [p]
    being inside the array and not the pointer cell itself, the store
    changes cell [p] and nothing else, and the load finds the pointer
    unchanged and gives its destination register the value stored. *)
Theorem sti_then_ldi s l m pc p v :
  wf m ->
  Z.shiftr s 12 = STI ->
  Z.shiftr l 12 = LDI ->
  Z.land l 0x1FF = Z.land s 0x1FF ->
  registers m !! Z.to_nat PC = Some pc ->
  registers m !! Z.to_nat (field_DR s) = Some v ->
  let a := u16 (pc + sign_extend (Z.land s 0x1FF) 9) in
  a <> MR_KBSR ->
  memory m !! Z.to_nat a = Some p ->
  p <> a -> p <> UINT16_MAX -> p <> MR_KBSR ->
  let stored := with_memory (<[Z.to_nat p := v]> (memory m)) m in
  execute s m = Ok true stored /\
  execute l stored = Ok true (written l stored v) /\
  registers (written l stored v) !! Z.to_nat (field_DR l) = Some v /\
  registers (written l stored v) !! Z.to_nat COND = Some (flag_of v).
Proof.
  intros Hwf Hs Hl Hoff Hpc Hv a Hkb Hp Hself Hmax Hkbp stored.
  pose proof (wf_registers_length m Hwf) as Hlen.
  pose proof (wf_memory_length m Hwf) as Hmem.
  pose proof (wf_register_word m _ v Hwf Hv) as Wv.
  pose proof (wf_cell_word m _ p Hwf Hp) as Wp.
  pose proof (u16_word (pc + sign_extend (Z.land s 0x1FF) 9)) as Wa. fold a in Wa.
  assert (Hlt : (Z.to_nat p < length (memory m))%nat)
    by (rewrite Hmem; unfold UINT16_MAX, word in *; lia).
  split; [| split].
  - rewrite (execute_STI _ Hs).
    rewrite (bind_ok _ _ _ _ _ (sti_run s m pc p v Hpc Hkb Hp Hv Hlt)). reflexivity.
  - rewrite (execute_LDI _ Hl).
    assert (Hrun : Op.ldi l stored = Ok tt (written l stored v)).
    { apply (ldi_run l stored pc p v).
      - exact Hlen.
      - exact Hpc.
      - rewrite Hoff. exact Hkb.
      - rewrite Hoff. unfold stored. cbn [memory with_memory].
        rewrite list_lookup_insert_ne by (unfold word in *; lia). exact Hp.
      - exact Hkbp.
      - unfold stored. cbn [memory with_memory].
        apply list_lookup_insert_eq. exact Hlt.
      - exact Wv. }
    rewrite (bind_ok _ _ _ _ _ Hrun). reflexivity.
  - apply (written_flag l stored). exact Hlen.
Qed.

(** STI R1,#1 then LDI R3,#1 where 0x3001 holds the address 0x3003. *)
Lemma sti_then_ldi_witness :
  let m := sample [0xB201; 0x3003; 0xA601] [(R1, 0x8001)] in
  let stored := with_memory (<[Z.to_nat 0x3003 := 0x8001]> (memory m)) m in
  execute 0xB201 m = Ok true stored /\
  execute 0xA601 stored = Ok true (written 0xA601 stored 0x8001) /\
  registers (written 0xA601 stored 0x8001) !! Z.to_nat R3 = Some 0x8001 /\
  registers (written 0xA601 stored 0x8001) !! Z.to_nat COND = Some FL_NEG.
Proof.
  apply (sti_then_ldi 0xB201 0xA601
           (sample [0xB201; 0x3003; 0xA601] [(R1, 0x8001)]) 0x3000 0x3003 0x8001).
  - apply sample_wf; repeat constructor; unfold word; simpl; lia.
  - reflexivity.
  - reflexivity.
  - reflexivity.
  - reflexivity.
  - reflexivity.
  - discriminate.
  - reflexivity.
  - discriminate.
  - discriminate.
  - discriminate.
Defined.

(** ** [main] before the loop *)

(** Every argument opens: the images are loaded one after the other. *)
Lemma load_images_all fs : forall argv files mem,
  Forall2 (fun path file => fs path = Some file) argv files ->
  load_images fs argv mem =
    (foldl (fun mem file => read_image_file file mem) mem files, None).
Proof.
  induction argv as [| path rest IH]; intros files mem Hall;
    inversion Hall as [| path' file rest' files' Hopen Hrest]; subst.
  - reflexivity.
  - cbn [load_images foldl]. unfold read_image. rewrite Hopen. apply IH. exact Hrest.
Qed.

(** An argument does not open: the loading stops at the first such one. *)
Lemma load_images_fails fs : forall argv mem path,
  In path argv -> fs path = None ->
  exists mem' failed,
    load_images fs argv mem = (mem', Some failed) /\
    In failed argv /\ fs failed = None.
Proof.
  induction argv as [| first rest IH]; intros mem path Hin Hnone; [destruct Hin |].
  cbn [load_images]. unfold read_image.
  destruct (fs first) as [file |] eqn:E.
  - destruct Hin as [-> | Hin]; [congruence |].
    destruct (IH (read_image_file file mem) path Hin Hnone)
      as (mem' & failed & Hload & Hfailed & Hclosed).
    exists mem', failed. repeat split; [exact Hload | right; exact Hfailed | exact Hclosed].
  - exists mem, first. repeat split; [left; reflexivity | exact E].
Qed.

(** X19.  [main] ends with status 1 before the loop is entered, the
    registers still zero and no input taken, in two cases: with fewer
    than two arguments, after the usage line; and when one of the
    arguments, the name of the program included, cannot be opened, after
    a line that names an argument that cannot be opened. *)
Theorem main_exits_before_the_loop argv fs input keys fuel :
  ((length argv < 2)%nat ->
   main argv fs input keys fuel =
     Exited 1 (Machine zero_memory zero_registers input keys
                 (bytes_of_string (String.append "Usage: ...." nl)) 0)) /\
  ((2 <= length argv)%nat ->
   forall path, In path argv -> fs path = None ->
   exists mem failed,
     In failed argv /\ fs failed = None /\
     main argv fs input keys fuel =
       Exited 1 (Machine mem zero_registers input keys
                   (bytes_of_string
                      (String.append "Failed to load image: "
                         (String.append failed nl))) 0)).
Proof.
  unfold main. split.
  - intros Hargc. destruct (Z.ltb_spec (Z.of_nat (length argv)) 2); [reflexivity | lia].
  - intros Hargc path Hin Hnone.
    destruct (Z.ltb_spec (Z.of_nat (length argv)) 2); [lia |].
    destruct (load_images_fails fs argv zero_memory path Hin Hnone)
      as (mem & failed & Hload & Hfailed & Hclosed).
    exists mem, failed. rewrite Hload. repeat split; assumption.
Qed.

(** No file can be opened: the first argument is the one reported. *)
Lemma main_exits_witness :
  exists mem failed,
    In failed ["vm"; "2048.obj"]%string /\
    (fun _ : string => @None (list Z)) failed = None /\
    main ["vm"; "2048.obj"]%string (fun _ => None) [] [] 1 =
      Exited 1 (Machine mem zero_registers [] []
                  (bytes_of_string
                     (String.append "Failed to load image: "
                        (String.append failed nl))) 0).
Proof.
  destruct (main_exits_before_the_loop ["vm"; "2048.obj"]%string
              (fun _ => None) [] [] 1) as [_ Hfail].
  apply (Hfail ltac:(simpl; lia) "2048.obj"%string).
  - right. left. reflexivity.
  - reflexivity.
Defined.

(** X20.  When every argument can be opened, on files made of whole
    16-bit items, the loop is entered on the memory in which the files of
    all the arguments have been loaded in order, the file named by
    [argv[0]] first, each over what the earlier ones left; the registers
    are zero but for the PC, which is 0x3000, and nothing has been
    written. *)
Theorem main_loads_every_argument argv files fs input keys fuel :
  (2 <= length argv)%nat ->
  Forall2 (fun path file => fs path = Some file) argv files ->
  Forall (fun file => Nat.even (length file) = true) files ->
  main argv fs input keys fuel =
    run fuel
      (Machine (foldl (fun mem file => read_image_file file mem) zero_memory files)
         (<[Z.to_nat PC := PC_START]> zero_registers) input keys [] 0).
Proof.
  intros Hargc Hall _. unfold main.
  destruct (Z.ltb_spec (Z.of_nat (length argv)) 2); [lia |].
  rewrite (load_images_all fs argv files zero_memory Hall). reflexivity.
Qed.

(** Two arguments that name the same file. *)
Lemma main_loads_witness :
  let file := [0x30; 0x00; 0xF0; 0x25] in
  main ["vm"; "halt.obj"]%string (fun _ => Some file) [] [] 0 =
    run 0
      (Machine (foldl (fun mem file => read_image_file file mem) zero_memory
                  [file; file])
         (<[Z.to_nat PC := PC_START]> zero_registers) [] [] [] 0).
Proof.
  intros file.
  apply (main_loads_every_argument ["vm"; "halt.obj"]%string [file; file]
           (fun _ => Some file) [] [] 0).
  - simpl. lia.
  - repeat constructor.
  - repeat constructor.
Defined.

(** ** What an instruction leaves alone *)

Lemma keeps_weaken {A : Type} (R R' : machine -> machine -> Prop) (c : M A) :
  (forall m m', R m m' -> R' m m') -> keeps R c -> keeps R' c.
Proof. intros Himp Hc m. apply Himp, Hc. Qed.

#[export] Instance same_cells_but_keyboard_preorder :
  PreOrder same_cells_but_keyboard.
Proof.
  split.
  - intros m i _ _. reflexivity.
  - intros m1 m2 m3 H12 H23 i Hs Hd.
    rewrite (H23 i Hs Hd). apply (H12 i Hs Hd).
Qed.

Lemma same_memory_cells {A : Type} (c : M A) :
  keeps same_memory c -> keeps same_cells_but_keyboard c.
Proof.
  apply keeps_weaken. intros m m' E i _ _. unfold same_memory in E.
  rewrite E. reflexivity.
Qed.

Lemma check_key_same_memory : keeps same_memory check_key.
Proof. intros m. unfold check_key. destruct (polls m); reflexivity. Qed.

Lemma cell_write_keyboard a v :
  a = MR_KBSR \/ a = MR_KBDR -> keeps same_cells_but_keyboard (cell_write a v).
Proof.
  intros Ha m. unfold cell_write.
  destruct (decide _); simpl; intros i Hs Hd; [| reflexivity].
  apply list_lookup_insert_ne. destruct Ha as [-> | ->]; congruence.
Qed.

Lemma mem_read_same_cells a : keeps same_cells_but_keyboard (mem_read a).
Proof.
  pose proof (same_memory_cells _ check_key_same_memory).
  pose proof (same_memory_cells _ getchar_same_memory).
  assert (forall v, keeps same_cells_but_keyboard (cell_write MR_KBSR v))
    by (intros v; apply cell_write_keyboard; left; reflexivity).
  assert (forall v, keeps same_cells_but_keyboard (cell_write MR_KBDR v))
    by (intros v; apply cell_write_keyboard; right; reflexivity).
  unfold mem_read. frame.
Qed.

Lemma fetch_same_cells : keeps same_cells_but_keyboard fetch.
Proof.
  pose proof mem_read_same_cells.
  assert (forall r v, keeps same_cells_but_keyboard (reg_write r v))
    by (intros r v; apply same_memory_cells, reg_write_same_memory).
  unfold fetch. frame.
Qed.

Lemma execute_same_cells instr :
  Z.shiftr instr 12 <> ST ->
  Z.shiftr instr 12 <> STI ->
  Z.shiftr instr 12 <> STR ->
  keeps same_cells_but_keyboard (execute instr).
Proof.
  intros H1 H2 H3.
  pose proof mem_read_same_cells.
  assert (forall r v, keeps same_cells_but_keyboard (reg_write r v))
    by (intros r v; apply same_memory_cells, reg_write_same_memory).
  assert (forall s, keeps same_cells_but_keyboard (printf s))
    by (intros s; apply same_memory_cells, printf_same_memory).
  pose proof (same_memory_cells _ (trap_same_memory instr)).
  unfold execute. cbv zeta.
  rewrite (proj2 (Z.eqb_neq _ _) H1), (proj2 (Z.eqb_neq _ _) H2),
    (proj2 (Z.eqb_neq _ _) H3).
  unfold Op.add, Op.and, Op.not, Op.br, Op.jmp, Op.jsr, Op.ld, Op.ldi,
    Op.ldr, Op.lea, update_flags.
  frame.
Qed.

(** X22.  Only ST, STI and STR write to the memory: a turn of the loop
    whose instruction is none of the three leaves every cell as it was,
    the keyboard registers KBSR and KBDR apart, however the turn ends. *)
Theorem only_stores_write_memory m :
  (forall instr m1, fetch m = Ok instr m1 ->
     Z.shiftr instr 12 <> ST /\ Z.shiftr instr 12 <> STI /\
     Z.shiftr instr 12 <> STR) ->
  forall i, i <> Z.to_nat MR_KBSR -> i <> Z.to_nat MR_KBDR ->
    memory (final (step m)) !! i = memory m !! i.
Proof.
  intros Hop. change (same_cells_but_keyboard m (final (step m))).
  unfold step, bind. pose proof (fetch_same_cells m) as Hfetch.
  destruct (fetch m) as [instr m1 | m1 | m1] eqn:E; simpl in Hfetch |- *;
    try exact Hfetch.
  destruct (Hop instr m1 eq_refl) as (H1 & H2 & H3).
  etransitivity; [exact Hfetch | apply (execute_same_cells instr H1 H2 H3)].
Qed.

(** A turn that executes ADD R1,R1,#-1: the cell of the instruction is
    still there. *)
Lemma only_stores_witness :
  memory (final (step (sample [0x127F] []))) !! Z.to_nat 0x3000
    = memory (sample [0x127F] []) !! Z.to_nat 0x3000.
Proof.
  apply only_stores_write_memory.
  - intros instr m1 H.
    rewrite (fetch_run (sample [0x127F] []) 0x3000 0x127F) in H;
      [| reflexivity | discriminate | reflexivity].
    injection H as <- _. repeat split; discriminate.
  - unfold MR_KBSR. lia.
  - unfold MR_KBDR. lia.
Defined.

(** X23.  The registers an instruction can change: the stores none; BR
    and JMP the PC only; JSR and JSRR only R7 and the PC; ADD, AND, NOT,
    LD, LDI, LDR and LEA only their destination register and COND; a
    trap only R0.  Every other register holds after the instruction what
    it held before, however the instruction ends. *)
Theorem execute_register_footprint instr i :
  let op := Z.shiftr instr 12 in
  (op = ST \/ op = STI \/ op = STR ->
   keeps (same_register i) (execute instr)) /\
  (op = BR \/ op = JMP -> i <> Z.to_nat PC ->
   keeps (same_register i) (execute instr)) /\
  (op = JSR -> i <> Z.to_nat R7 -> i <> Z.to_nat PC ->
   keeps (same_register i) (execute instr)) /\
  (writes_result op = true ->
   i <> Z.to_nat (field_DR instr) -> i <> Z.to_nat COND ->
   keeps (same_register i) (execute instr)) /\
  (op = TRAP -> i <> Z.to_nat R0 ->
   keeps (same_register i) (execute instr)).
Proof.
  intros op. unfold op. repeat apply conj.
  - intros [H | [H | H]];
      [rewrite (execute_ST _ H) | rewrite (execute_STI _ H)
       | rewrite (execute_STR _ H)];
      unfold Op.st, Op.sti, Op.str, _mem_write; frame.
  - intros [H | H] Hpc;
      [rewrite (execute_BR _ H) | rewrite (execute_JMP _ H)];
      assert (forall v, keeps (same_register i) (reg_write PC v))
        by (intros v; apply reg_write_same_register; congruence);
      unfold Op.br, Op.jmp; frame.
  - intros H H7 Hpc. rewrite (execute_JSR _ H).
    assert (forall v, keeps (same_register i) (reg_write PC v))
      by (intros v; apply reg_write_same_register; congruence).
    assert (forall v, keeps (same_register i) (reg_write R7 v))
      by (intros v; apply reg_write_same_register; congruence).
    unfold Op.jsr. frame.
  - intros H Hdr Hcond.
    assert (forall v, keeps (same_register i)
                        (reg_write (Z.land (Z.shiftr instr 9) 0x7) v))
      by (intros v; apply reg_write_same_register; unfold field_DR in Hdr; congruence).
    assert (forall v, keeps (same_register i) (reg_write COND v))
      by (intros v; apply reg_write_same_register; congruence).
    unfold writes_result in H.
    repeat (apply orb_true_iff in H as [H | H]); apply Z.eqb_eq in H;
      [rewrite (execute_ADD _ H) | rewrite (execute_AND _ H)
       | rewrite (execute_NOT _ H) | rewrite (execute_LD _ H)
       | rewrite (execute_LDI _ H) | rewrite (execute_LDR _ H)
       | rewrite (execute_LEA _ H)];
      unfold Op.add, Op.and, Op.not, Op.ld, Op.ldi, Op.ldr, Op.lea, update_flags;
      frame.
  - intros H H0. rewrite (execute_TRAP _ H). apply trap_same_register. exact H0.
Qed.

(** ADD R1,R1,#-1 leaves R2 as it is. *)
Lemma execute_register_footprint_witness :
  registers (final (execute 0x127F (sample [0x127F] [(R2, 0x0007)]))) !! Z.to_nat R2
    = registers (sample [0x127F] [(R2, 0x0007)]) !! Z.to_nat R2.
Proof.
  destruct (execute_register_footprint 0x127F (Z.to_nat R2))
    as (_ & _ & _ & Hwrites & _).
  apply Hwrites.
  - reflexivity.
  - discriminate.
  - discriminate.
Defined.

(** ** The earlier revision *)

(** The earlier [update_flags] on a register that holds a word. *)
Lemma Early_update_flags_run r v m :
  length (registers m) = Z.to_nat COUNT ->
  registers m !! Z.to_nat r = Some v ->
  word v ->
  Early.update_flags r m =
    Ok tt (with_registers
             (<[Z.to_nat COND := if v =? 0 then FL_ZRO else FL_NEG]> (registers m)) m).
Proof.
  intros Hlen Hr Hv. unfold Early.update_flags.
  assert (HC : (Z.to_nat COND < length (registers m))%nat)
    by (rewrite Hlen; unfold COND, COUNT; lia).
  rewrite (bind_ok _ _ _ _ _ (reg_read_some _ _ _ Hr)).
  destruct (Z.eqb_spec v 0) as [| Hnz]; [apply reg_write_lt; exact HC |].
  rewrite (bind_ok _ _ _ _ _ (reg_read_some _ _ _ Hr)).
  assert (Ht : truthy (Z.shiftl v 0xF) = true).
  { unfold truthy. rewrite Z.shiftl_mul_pow2 by lia.
    destruct (Z.eqb_spec (v * 2 ^ 15) 0) as [E |]; [| reflexivity].
    unfold word in Hv. change (2 ^ 15) with 32768 in E. lia. }
  rewrite Ht. apply reg_write_lt. exact HC.
Qed.

(** A write to a register followed by the earlier [update_flags]. *)
Lemma Early_write_result_run dr x m :
  length (registers m) = Z.to_nat COUNT ->
  0 <= dr < 8 ->
  word x ->
  (reg_write dr x ;; Early.update_flags dr) m =
    Ok tt (with_registers
             (<[Z.to_nat COND := if x =? 0 then FL_ZRO else FL_NEG]>
                (<[Z.to_nat dr := x]> (registers m))) m).
Proof.
  intros Hlen Hdr Hx.
  assert (Hlt : (Z.to_nat dr < length (registers m))%nat)
    by (rewrite Hlen; unfold COUNT; lia).
  rewrite (bind_ok _ _ _ _ _ (reg_write_lt dr x m Hlt)).
  rewrite (Early_update_flags_run dr x).
  - reflexivity.
  - cbn [registers with_registers]. rewrite length_insert. exact Hlen.
  - cbn [registers with_registers]. apply list_lookup_insert_eq. exact Hlt.
  - exact Hx.
Qed.

(** X24.  In the earlier revision ADD never sets the flag POS: COND is
    ZRO after a zero sum and NEG after every other one, whatever its
    bit 15, the test of [update_flags] being [registers[r] << 0xF]. *)
Theorem early_add_never_sets_pos instr m a b :
  length (registers m) = Z.to_nat COUNT ->
  registers m !! Z.to_nat (field_SR1 instr) = Some a ->
  registers m !! Z.to_nat (field_SR2 instr) = Some b ->
  let x := add_result instr a b in
  Early.add instr m =
    Ok tt (with_registers
             (<[Z.to_nat COND := if x =? 0 then FL_ZRO else FL_NEG]>
                (<[Z.to_nat (field_DR instr) := x]> (registers m))) m).
Proof.
  intros Hlen Ha Hb x. unfold x, Early.add, add_result.
  fold (field_DR instr) (field_SR1 instr) (field_SR2 instr).
  destruct (truthy (Z.land (Z.shiftr instr 5) 0x1)).
  - erewrite bind_ok.
    2: { rewrite (bind_ok _ _ _ _ _ (reg_read_some _ _ _ Ha)).
         apply (write_lt instr m Hlen). }
    pose proof (Early_write_result_run (field_DR instr)
                  (u16 (a + sign_extend (Z.land instr 0x1F) 5)) m Hlen
                  (field3_range _) (u16_word _)) as H.
    rewrite (bind_ok _ _ _ _ _ (write_lt instr m Hlen _)) in H. exact H.
  - erewrite bind_ok.
    2: { rewrite (bind_ok _ _ _ _ _ (reg_read_some _ _ _ Ha)).
         rewrite (bind_ok _ _ _ _ _ (reg_read_some _ _ _ Hb)).
         apply (write_lt instr m Hlen). }
    pose proof (Early_write_result_run (field_DR instr) (u16 (a + b)) m Hlen
                  (field3_range _) (u16_word _)) as H.
    rewrite (bind_ok _ _ _ _ _ (write_lt instr m Hlen _)) in H. exact H.
Qed.

(** ADD R1,R1,#1 with R1 = 0: the sum is 1 and COND is NEG. *)
Lemma early_add_witness :
  let m := sample [0x1261] [] in
  Early.add 0x1261 m =
    Ok tt (with_registers
             (<[Z.to_nat COND := FL_NEG]> (<[Z.to_nat R1 := 1]> (registers m))) m).
Proof.
  apply (early_add_never_sets_pos 0x1261 (sample [0x1261] []) 0 0); reflexivity.
Defined.

(** X25.  In the earlier revision the targets of BR and JSR are
    absolute: a BR with a non-zero [nzp] field sets the PC to its
    sign-extended offset without reading COND or adding the PC, a BR with
    a zero field does nothing, and a JSR with bit 11 set saves the PC in
    R7 and sets the PC to its sign-extended offset. *)
Theorem early_branch_targets_are_absolute instr m pc :
  length (registers m) = Z.to_nat COUNT ->
  registers m !! Z.to_nat PC = Some pc ->
  (Z.land (Z.shiftr instr 9) 0x7 <> 0 ->
   Early.br instr m =
     Ok tt (with_registers
              (<[Z.to_nat PC := sign_extend (Z.land instr 0x1FF) 9]> (registers m)) m)) /\
  (Z.land (Z.shiftr instr 9) 0x7 = 0 -> Early.br instr m = Ok tt m) /\
  (Z.land (Z.shiftr instr 11) 0x1 = 1 ->
   Early.jsr instr m =
     Ok tt (with_registers
              (<[Z.to_nat PC := sign_extend (Z.land instr 0x7FF) 11]>
                 (<[Z.to_nat R7 := pc]> (registers m))) m)).
Proof.
  intros Hlen Hpc. split; [| split].
  - apply Early_br_assigns_and_ignores_cond. exact Hlen.
  - intros Hz. unfold Early.br. rewrite Hz. reflexivity.
  - apply Early_jsr_assigns_offset; assumption.
Qed.

(** BRnzp #5 fetched at 0x3000: the PC becomes 5, not 0x3006. *)
Lemma early_branch_witness :
  let m := advance (sample [0x0E05] []) in
  Early.br 0x0E05 m =
    Ok tt (with_registers (<[Z.to_nat PC := 5]> (registers m)) m).
Proof.
  intros m.
  destruct (early_branch_targets_are_absolute 0x0E05 m 0x3001) as [Htaken _].
  - reflexivity.
  - reflexivity.
  - apply Htaken. discriminate.
Defined.

(** The offset of the earlier LD and LDI: five bits, never negative. *)
Lemma Early_load_offset instr :
  sign_extend (Z.land instr 0x1f) 9 = Z.land instr 0x1f.
Proof.
  pose proof (field5_range instr) as H. unfold sign_extend.
  assert (E : Z.shiftr (Z.land instr 0x1f) (9 - 1) = 0).
  { rewrite Z.shiftr_div_pow2 by lia. apply Z.div_small.
    change (2 ^ (9 - 1)) with 256. lia. }
  rewrite E. reflexivity.
Qed.

(** X26.  In the earlier revision LD takes its offset from bits 4..0
    only: it reads the cell at PC plus [instr & 0x1F], at most 31 cells
    ahead and never behind, whatever bits 8..5 of the instruction are,
    and COND is ZRO or NEG after it. *)
Theorem early_ld_reads_five_bit_offset instr m pc w :
  length (registers m) = Z.to_nat COUNT ->
  registers m !! Z.to_nat PC = Some pc ->
  let a := u16 (pc + Z.land instr 0x1F) in
  a <> MR_KBSR ->
  memory m !! Z.to_nat a = Some w ->
  word w ->
  Early.ld instr m =
    Ok tt (with_registers
             (<[Z.to_nat COND := if w =? 0 then FL_ZRO else FL_NEG]>
                (<[Z.to_nat (field_DR instr) := w]> (registers m))) m).
Proof.
  intros Hlen Hpc a Hne Hw Ww. unfold Early.ld. fold (field_DR instr).
  rewrite Early_load_offset.
  rewrite (bind_ok _ _ _ _ _ (reg_read_some _ _ _ Hpc)).
  rewrite (bind_ok _ _ _ _ _ (mem_read_plain _ _ _ Hne Hw)).
  apply Early_write_result_run; [exact Hlen | apply field3_range | exact Ww].
Qed.

(** LD R1,#-1 fetched at 0x3000 reads 0x3020, not 0x3000. *)
Lemma early_ld_witness :
  let m := advance (sample [0x23FF] []) in
  Early.ld 0x23FF m =
    Ok tt (with_registers
             (<[Z.to_nat COND := FL_ZRO]> (<[Z.to_nat R1 := 0]> (registers m))) m).
Proof.
  intros m.
  apply (early_ld_reads_five_bit_offset 0x23FF m 0x3001 0).
  - reflexivity.
  - reflexivity.
  - discriminate.
  - reflexivity.
  - unfold word. lia.
Defined.

Lemma Early_execute_unhandled fuel instr :
  Z.shiftr instr 12 = STI \/ Z.shiftr instr 12 = STR \/
  Z.shiftr instr 12 = RTI \/ Z.shiftr instr 12 = RES ->
  Early.execute fuel instr = (ret tt ;; Early.trap fuel instr).
Proof.
  unfold Early.execute. intros [-> | [-> | [-> | ->]]]; reflexivity.
Qed.

(** X27.  In the loop of the earlier revision STI, STR, RTI and RES have
    no handler and the second switch, on the low byte, runs under every
    opcode: such an instruction leaves the machine as it is and the loop
    running when its low byte is none of 0x20..0x25, so that nothing is
    stored and nothing aborts, and it stops the loop as HALT does when
    its low byte is 0x25. *)
Theorem early_loop_unhandled_opcodes fuel instr m :
  Z.shiftr instr 12 = STI \/ Z.shiftr instr 12 = STR \/
  Z.shiftr instr 12 = RTI \/ Z.shiftr instr 12 = RES ->
  (Z.land instr 0xFF < 0x20 \/ 0x25 < Z.land instr 0xFF ->
   Early.execute fuel instr m = Ok (Some true) m) /\
  (Z.land instr 0xFF = TRAP_HALT ->
   Early.execute fuel instr m =
     Ok (Some false)
       (all_flushed
          (with_stdout (stdout m ++ bytes_of_string (String.append "HALT" nl)) m))).
Proof.
  intros Hop. rewrite (Early_execute_unhandled fuel instr Hop).
  unfold bind at 1. unfold ret at 1. split.
  - intros Hvec. unfold Early.trap.
    unfold TRAP_GETC, TRAP_OUT, TRAP_PUTS, TRAP_IN, TRAP_PUTSP, TRAP_HALT.
    repeat match goal with
           | |- context [?a =? ?b] =>
               rewrite (proj2 (Z.eqb_neq a b)) by lia
           end.
    reflexivity.
  - intros Hvec. unfold Early.trap. rewrite Hvec. reflexivity.
Qed.

(** STR R0,R0,#-27, whose low byte is 0x25, stops the loop. *)
Lemma early_loop_witness :
  let m := advance (sample [0x7025] []) in
  Early.execute 1 0x7025 m =
    Ok (Some false)
      (all_flushed
         (with_stdout (stdout m ++ bytes_of_string (String.append "HALT" nl)) m)).
Proof.
  intros m.
  destruct (early_loop_unhandled_opcodes 1 0x7025 m) as [_ Hhalt].
  - right. left. reflexivity.
  - apply Hhalt. reflexivity.
Defined.

(** X28.  In the earlier revision PUTSP does not end on a word whose
    high byte is zero: the pointer moves on only after a second
    character, so that after any number of turns of its loop the routine
    has written the low byte that many times and is still at the word. *)
Theorem early_putsp_does_not_end fuel instr m r w rest :
  Z.shiftr instr 12 = TRAP ->
  Z.land instr 0xFF = TRAP_PUTSP ->
  registers m !! Z.to_nat R0 = Some r ->
  drop (Z.to_nat r) (memory m) = w :: rest ->
  0 < w < 256 ->
  Early.execute fuel instr m =
    Ok None (with_stdout (stdout m ++ replicate fuel w) m).
Proof.
  intros Hop Hvec Hr Hdrop Hw.
  unfold Early.execute. rewrite Hop. cbv zeta.
  change (TRAP =? ADD) with false. change (TRAP =? AND) with false.
  change (TRAP =? NOT) with false. change (TRAP =? BR) with false.
  change (TRAP =? JMP) with false. change (TRAP =? JSR) with false.
  change (TRAP =? LD) with false. change (TRAP =? LDI) with false.
  change (TRAP =? LDR) with false. change (TRAP =? LEA) with false.
  change (TRAP =? ST) with false. cbv iota.
  unfold bind at 1. unfold ret at 1.
  unfold Early.trap. rewrite Hvec.
  change (TRAP_PUTSP =? TRAP_GETC) with false.
  change (TRAP_PUTSP =? TRAP_OUT) with false.
  change (TRAP_PUTSP =? TRAP_PUTS) with false.
  change (TRAP_PUTSP =? TRAP_IN) with false.
  change (TRAP_PUTSP =? TRAP_PUTSP) with true. cbv iota.
  rewrite (bind_ok _ _ _ _ _ (reg_read_some _ _ _ Hr)).
  unfold bind at 1. unfold pointer at 1. rewrite Hdrop.
  rewrite (bind_ok _ _ _ _ _ (Early_putsp_never_ends fuel w rest m Hw)).
  reflexivity.
Qed.

(** PUTSP on the word 0x0041, for three turns of its loop. *)
Lemma early_putsp_witness :
  let m := advance (sample [0xF024; 0x0041] [(R0, 0x3001)]) in
  Early.execute 3 0xF024 m = Ok None (with_stdout [0x41; 0x41; 0x41] m).
Proof.
  intros m.
  apply (early_putsp_does_not_end 3 0xF024 m 0x3001 0x0041
           (drop (S (Z.to_nat 0x3001)) (memory m))).
  - reflexivity.
  - reflexivity.
  - vm_compute. reflexivity.
  - rewrite (drop_S _ 0x0041) by (vm_compute; reflexivity). reflexivity.
  - lia.
Defined.
